(** * uart_commander: the literal parser and the integer-to-bytes encoder

    A shallow embedding of [scripts/uart_commander.py]: the functions
    [str_to_int], [detect_com_port], [loop_send_uart_input] and [main],
    and the built-ins of Python they call ([str.strip], [str.lower],
    [str.isdigit], [str.startswith], [int], [int.bit_length],
    [int.to_bytes]).

    - A Python [int] is a [Z]; a [str] is the list of its code points (an
      [N] each); a [bytes] object is a list of [Byte.byte].
    - An exception is a constructor of [exn]; a call that can raise returns
      a [result].
    - Logging, the prompt and the serial port are effects, collected in
      order by the writer part of the monad [M]. A call of the logger and
      a write to the open port always succeed; [input] gives a line, or
      raises KeyboardInterrupt, or EOFError at the end of the input; an
      interrupt arrives at a prompt only.
    - The libraries around the script are taken by what they give it:
      argparse by the namespace or the exit it makes of the command line,
      the enumeration of the ports by its list, the opening of a port by
      its success or failure.
    - The rows of the Unicode character database for U+0000..U+00FF are
      written out; the rows above U+00FF are the fields of a [Runtime],
      and so is the limit of the interpreter on the digits of a decimal
      conversion. The built-ins follow CPython 3.11. *)

From Stdlib Require Import Strings.String Strings.Ascii Strings.Byte.
From Stdlib Require Import ZArith NArith List Bool Lia.
Import ListNotations.

(** ** Exceptions, results and effects *)

Inductive exn : Type :=
| ValueError
| OverflowError
| EOFError
| KeyboardInterrupt
| SerialException
| SystemExit (status : Z).

Inductive result (A : Type) : Type :=
| Return (a : A)
| Raise (e : exn).

Arguments Return {A} a.
Arguments Raise {A} e.

Definition exn_eqb (e1 e2 : exn) : bool :=
  match e1, e2 with
  | ValueError, ValueError
  | OverflowError, OverflowError
  | EOFError, EOFError
  | KeyboardInterrupt, KeyboardInterrupt
  | SerialException, SerialException
  | SystemExit _, SystemExit _ => true
  | _, _ => false
  end.

(** A code point, and a Python string. *)
Definition codepoint : Type := N.
Bind Scope N_scope with codepoint.
Definition str : Type := list codepoint.

(** The code points of a literal of the script (ASCII). *)
Definition lit (s : string) : str := map N_of_ascii (list_ascii_of_string s).

Inductive level : Type := INFO | WARNING | ERROR.

(** What the script does to the outside world: a record handed to the
    logger (format and the string argument, if any), the prompt written by
    [input], a write to the serial port and its release, and the help or
    the usage and error message that argparse writes on the terminal
    before it ends the program. *)
Inductive effect : Type :=
| Log (lvl : level) (fmt : string) (arg : option str)
| Prompt (msg : string)
| SerialWrite (data : list byte)
| SerialClose
| Usage.

(** Writer of effects over exceptions. *)
Definition M (A : Type) : Type := (list effect * result A)%type.

Definition ret {A} (a : A) : M A := ([], Return a).

Definition bind {A B} (m : M A) (k : A -> M B) : M B :=
  match m with
  | (w, Return a) => let (w', r) := k a in (w ++ w', r)
  | (w, Raise e) => (w, Raise e)
  end.

Definition lift {A} (r : result A) : M A := ([], r).

Definition emit (ef : effect) : M unit := ([ef], Return tt).

(** [try: body / except e: handler]. *)
Definition try_except {A} (body : M A) (e : exn) (handler : M A) : M A :=
  match body with
  | (w, Raise e') =>
      if exn_eqb e e' then let (w', r) := handler in (w ++ w', r) else body
  | _ => body
  end.

(** [try: body / finally: cleanup]. *)
Definition try_finally {A} (body : M A) (cleanup : M unit) : M A :=
  let (w, r) := body in
  match cleanup with
  | (w', Return _) => (w ++ w', r)
  | (w', Raise e) => (w ++ w', Raise e)
  end.

Declare Scope monad_scope.
Delimit Scope monad_scope with monad.
Notation "x <- m ;; k" := (bind m (fun x => k))
  (at level 61, m at next level, right associativity) : monad_scope.
Notation "m ;; k" := (bind m (fun _ => k))
  (at level 61, right associativity) : monad_scope.

Definition outcome {A} (m : M A) : result A := snd m.

(** ** The interpreter's tables *)

(** The part of the runtime the script does not fix: the character
    database above U+00FF and the limit on the digits of a decimal
    conversion ([sys.get_int_max_str_digits()], 0 when disabled). *)
Record Runtime : Type := {
  hi_isspace : codepoint -> bool;
  hi_isdigit : codepoint -> bool;
  hi_todecimal : codepoint -> option N;
  hi_tolower : codepoint -> list codepoint;
  hi_iscased : codepoint -> bool;
  hi_iscaseignorable : codepoint -> bool;
  int_max_str_digits : N
}.

Module Unicode.

Local Open Scope N_scope.

Definition between (lo hi c : N) : bool := (lo <=? c) && (c <=? hi).

(** White space below U+0100: TAB..CR, FS..US, SPACE, NEL, NBSP. *)
Definition latin1_isspace (c : codepoint) : bool :=
  between 9 13 c || between 28 31 c || (c =? 32) || (c =? 133) || (c =? 160).

(** Decimal digits (category Nd) below U+0100: the ASCII digits. *)
Definition latin1_todecimal (c : codepoint) : option N :=
  if between 48 57 c then Some (c - 48) else None.

(** Digits (Numeric_Type Digit or Decimal) below U+0100: the ASCII digits
    and the superscripts two, three and one. *)
Definition latin1_isdigit (c : codepoint) : bool :=
  between 48 57 c || (c =? 178) || (c =? 179) || (c =? 185).

(** Lower case below U+0100: A..Z and the capitals U+00C0..U+00DE except
    the multiplication sign move up by 32. *)
Definition latin1_tolower (c : codepoint) : codepoint :=
  if between 65 90 c || (between 192 222 c && negb (c =? 215))
  then c + 32 else c.

(** Cased code points below U+0100: the letters of ASCII and Latin-1, the
    ordinal indicators and the micro sign. *)
Definition latin1_iscased (c : codepoint) : bool :=
  between 65 90 c || between 97 122 c || (c =? 170) || (c =? 181)
  || (c =? 186) || between 192 214 c || between 216 246 c
  || between 248 255 c.

(** Case-ignorable code points below U+0100: apostrophe, full stop, colon,
    circumflex, grave, diaeresis, soft hyphen, macron, acute, middle dot,
    cedilla. *)
Definition latin1_iscaseignorable (c : codepoint) : bool :=
  (c =? 39) || (c =? 46) || (c =? 58) || (c =? 94) || (c =? 96)
  || (c =? 168) || (c =? 173) || (c =? 175) || (c =? 180)
  || between 183 184 c.

Section Tables.

Context (rt : Runtime).

Definition isspace (c : codepoint) : bool :=
  if c <? 256 then latin1_isspace c else hi_isspace rt c.

Definition isdigit (c : codepoint) : bool :=
  if c <? 256 then latin1_isdigit c else hi_isdigit rt c.

Definition todecimal (c : codepoint) : option N :=
  if c <? 256 then latin1_todecimal c else hi_todecimal rt c.

Definition tolower_full (c : codepoint) : list codepoint :=
  if c <? 256 then [latin1_tolower c] else hi_tolower rt c.

Definition iscased (c : codepoint) : bool :=
  if c <? 256 then latin1_iscased c else hi_iscased rt c.

Definition iscaseignorable (c : codepoint) : bool :=
  if c <? 256 then latin1_iscaseignorable c else hi_iscaseignorable rt c.

End Tables.

Definition CAPITAL_SIGMA : codepoint := 931.
Definition SMALL_FINAL_SIGMA : codepoint := 962.
Definition SMALL_SIGMA : codepoint := 963.

End Unicode.

(** ** Python strings *)

Module PyStr.

Local Open Scope N_scope.

Fixpoint eqb (s t : str) : bool :=
  match s, t with
  | [], [] => true
  | c :: s', d :: t' => (c =? d) && eqb s' t'
  | _, _ => false
  end.

Definition len (s : str) : Z := Z.of_nat (length s).

Fixpoint startswith (s prefix : str) {struct prefix} : bool :=
  match prefix, s with
  | [], _ => true
  | p :: prefix', c :: s' => (c =? p) && startswith s' prefix'
  | _ :: _, [] => false
  end.

Fixpoint dropwhile (f : codepoint -> bool) (s : str) : str :=
  match s with
  | c :: s' => if f c then dropwhile f s' else s
  | [] => []
  end.

Section Methods.

Context (rt : Runtime).

Definition lstrip (s : str) : str := dropwhile (Unicode.isspace rt) s.

Definition rstrip (s : str) : str := rev (lstrip (rev s)).

(** [s.strip()]: the white space at both ends goes. *)
Definition strip (s : str) : str := rstrip (lstrip s).

(** [s.isdigit()]: at least one character, and all of them digits. *)
Definition isdigit (s : str) : bool :=
  match s with
  | [] => false
  | _ => forallb (Unicode.isdigit rt) s
  end.

(** The small sigma a capital sigma lowers to. It is the final one when
    the nearest code point that is not case-ignorable in [before] (the text
    in front, nearest first) is cased and the nearest one in [after], if
    any, is not. *)
Definition handle_capital_sigma (before after : str) : codepoint :=
  let final_sigma :=
    match dropwhile (Unicode.iscaseignorable rt) before with
    | c :: _ => Unicode.iscased rt c
    | [] => false
    end
    && match dropwhile (Unicode.iscaseignorable rt) after with
       | c :: _ => negb (Unicode.iscased rt c)
       | [] => true
       end in
  if final_sigma then Unicode.SMALL_FINAL_SIGMA else Unicode.SMALL_SIGMA.

(** [s.lower()]: every code point gives its full lower-case mapping, a
    capital sigma gives one of the two small sigmas. *)
Fixpoint lower_from (before s : str) : str :=
  match s with
  | [] => []
  | c :: rest =>
      (if c =? Unicode.CAPITAL_SIGMA
       then [handle_capital_sigma before rest]
       else Unicode.tolower_full rt c)
      ++ lower_from (c :: before) rest
  end.

Definition lower (s : str) : str := lower_from [] s.

End Methods.

End PyStr.

(** ** Python integers *)

Module PyInt.

Local Open Scope Z_scope.

(** [n.bit_length()]: the number of bits of the absolute value, 0 for 0. *)
Definition bit_length (n : Z) : Z :=
  if n =? 0 then 0 else Z.log2 (Z.abs n) + 1.

Definition byte_of_Z (z : Z) : byte :=
  match Byte.of_N (Z.to_N z) with
  | Some b => b
  | None => x00
  end.

Definition Z_of_byte (b : byte) : Z := Z.of_N (Byte.to_N b).

(** The [k] low-order bytes of [n], least significant first. *)
Fixpoint le_bytes (k : nat) (n : Z) : list byte :=
  match k with
  | O => []
  | S k' => byte_of_Z (n mod 256) :: le_bytes k' (n / 256)
  end.

(** [n.to_bytes(length, byteorder="little")], unsigned: a negative [n]
    and an [n] that does not fit in [length] bytes raise OverflowError; a
    negative [length] raises ValueError. *)
Definition to_bytes (n length : Z) : result (list byte) :=
  if length <? 0 then Raise ValueError
  else if n <? 0 then Raise OverflowError
  else if 256 ^ length <=? n then Raise OverflowError
  else Return (le_bytes (Z.to_nat length) n).

(** [int.from_bytes(bs, byteorder="little")], unsigned. *)
Fixpoint from_bytes (bs : list byte) : Z :=
  match bs with
  | [] => 0
  | b :: bs' => Z_of_byte b + 256 * from_bytes bs'
  end.

(** [a or b] on integers: [a] unless it is zero. *)
Definition or_ (a b : Z) : Z := if a =? 0 then b else a.

(** *** [int(x, base)] on a string, for the bases 2..36 *)

(** The value of an ASCII character as a digit, 37 when it is none. *)
Definition digit_value (c : codepoint) : N :=
  (if Unicode.between 48 57 c then c - 48
   else if Unicode.between 97 122 c then c - 87
   else if Unicode.between 65 90 c then c - 55
   else 37)%N.

(** ASCII white space, as the parser of numbers skips it. *)
Definition Py_ISSPACE (c : codepoint) : bool :=
  (Unicode.between 9 13 c || (c =? 32))%N.

Definition UNDERSCORE : codepoint := 95%N.

Fixpoint skip_spaces (s : str) : str :=
  match s with
  | c :: s' => if Py_ISSPACE c then skip_spaces s' else s
  | [] => []
  end.

(** The run of digits of [base], single underscores allowed between two
    digits: its digit values and what follows it; [None] on a doubled or
    trailing underscore. [prev] tells that the previous character was an
    underscore. *)
Fixpoint scan_digits (base : N) (prev : bool) (s : str)
  : option (list N * str) :=
  match s with
  | c :: s' =>
      if (c =? UNDERSCORE)%N then
        if prev then None else scan_digits base true s'
      else if (digit_value c <? base)%N then
        match scan_digits base false s' with
        | Some (ds, rest) => Some (digit_value c :: ds, rest)
        | None => None
        end
      else if prev then None else Some ([], s)
  | [] => if prev then None else Some ([], [])
  end.

(** The number a list of digit values spells, most significant first. *)
Definition accumulate (base : N) (ds : list N) : N :=
  fold_left (fun acc d => (acc * base + d)%N) ds 0%N.

(** The letter of the prefix a base admits: 0x, 0o, 0b. *)
Definition prefix_letter (base : N) (c : codepoint) : bool :=
  (((base =? 16) && ((c =? 120) || (c =? 88)))
   || ((base =? 8) && ((c =? 111) || (c =? 79)))
   || ((base =? 2) && ((c =? 98) || (c =? 66))))%N.

Definition is_binary_base (base : N) : bool :=
  (N.land base (base - 1) =? 0)%N.

(** A leading sign. *)
Definition skip_sign (s : str) : Z * str :=
  match s with
  | c :: s' =>
      if (c =? 43)%N then (1, s')
      else if (c =? 45)%N then (-1, s')
      else (1, s)
  | [] => (1, [])
  end.

Definition starts_with_underscore (s : str) : bool :=
  match s with
  | c :: _ => (c =? UNDERSCORE)%N
  | [] => false
  end.

Definition skip_underscore (s : str) : str :=
  if starts_with_underscore s then tl s else s.

(** The prefix of the base, and one underscore after it. *)
Definition skip_prefix (base : N) (s : str) : str :=
  match s with
  | c0 :: c1 :: s' =>
      if (c0 =? 48)%N && prefix_letter base c1 then skip_underscore s' else s
  | _ => s
  end.

Section Conversion.

Context (rt : Runtime).

(** Before parsing, a character from U+007F on becomes a space when it is
    white space and its ASCII digit when it is a decimal digit; at any
    other one the text is cut short with a question mark. *)
Fixpoint TransformDecimalAndSpaceToASCII (u : str) : str :=
  match u with
  | [] => []
  | ch :: u' =>
      if (ch <? 127)%N then ch :: TransformDecimalAndSpaceToASCII u'
      else if Unicode.isspace rt ch
           then 32%N :: TransformDecimalAndSpaceToASCII u'
      else match Unicode.todecimal rt ch with
           | Some d => (48 + d)%N :: TransformDecimalAndSpaceToASCII u'
           | None => [63%N]
           end
  end.

(** The limit on the digits of a conversion applies to the bases that are
    no power of two, above 640 digits, when it is set. *)
Definition exceeds_limit (base : N) (digits : nat) : bool :=
  (negb (is_binary_base base)
   && (640 <? N.of_nat digits)
   && (0 <? int_max_str_digits rt)
   && (int_max_str_digits rt <? N.of_nat digits))%N.

(** The parser of ASCII text: spaces, a sign, the prefix of the base and
    one underscore after it, the digits, spaces, the end. *)
Definition PyLong_FromString (s : str) (base : N) : result Z :=
  let s := skip_spaces s in
  let (sign, s) := skip_sign s in
  let s := skip_prefix base s in
  if starts_with_underscore s then Raise ValueError
  else
    match scan_digits base false s with
    | None => Raise ValueError
    | Some (ds, rest) =>
        match ds with
        | [] => Raise ValueError
        | _ =>
            if exceeds_limit base (length ds) then Raise ValueError
            else match skip_spaces rest with
                 | [] => Return (sign * Z.of_N (accumulate base ds))
                 | _ => Raise ValueError
                 end
        end
    end.

(** [int(x, base)] for a string [x]. *)
Definition int (x : str) (base : N) : result Z :=
  PyLong_FromString (TransformDecimalAndSpaceToASCII x) base.

End Conversion.

End PyInt.

(** ** The script *)

Section Script.

Context (rt : Runtime).

Local Open Scope Z_scope.
Local Open Scope monad_scope.

Definition warning (fmt : string) (arg : str) : M unit :=
  emit (Log WARNING fmt (Some arg)).

(** [str_to_int] (lines 11-44). The parameter is [string] in the script. *)
Definition str_to_int (s : str) : M Z :=
  let s := PyStr.lower rt (PyStr.strip rt s) in
  if PyStr.isdigit rt s then
    lift (PyInt.int rt s 10)
  else if PyStr.len s <? 3 then
    warning "Value missing from string: %s" s ;;
    ret (-1)
  else if PyStr.startswith s (lit "0x") then
    try_except (lift (PyInt.int rt s 16)) ValueError
      (warning "Invalid hex value: %s" s ;;
       ret (-1))
  else if PyStr.startswith s (lit "0b") then
    try_except (lift (PyInt.int rt s 2)) ValueError
      (warning "Invalid binary value: %s" s ;;
       ret (-1))
  else
    warning "Unknown format for string: %s" s ;;
    ret (-1).

(** The encode step (lines 92-93). *)
Definition encode (data_int : Z) : result (list byte) :=
  let data_byte_len := (PyInt.bit_length data_int + 7) / 8 in
  PyInt.to_bytes data_int (PyInt.or_ data_byte_len 1).

Inductive control : Type := Break | Continue.

(** What happens at a prompt: a line is typed, or the user interrupts. *)
Inductive keyboard : Type :=
| Line (s : str)
| CtrlC.

Definition PROMPT : string :=
  "Enter int, hex, or bits to send (or x to exit): ".

(** The loop takes the parse step as an argument, so that a statement can
    say that an iteration does not depend on it. *)
Section Loop.

Variable parse : str -> M Z.

(** [input(PROMPT)]: the prompt is written, then the call gives the line
    typed, or raises KeyboardInterrupt on an interrupt and EOFError at the
    end of the standard input. *)
Definition input (k : option keyboard) : M str :=
  emit (Prompt PROMPT) ;;
  match k with
  | Some (Line s) => ret s
  | Some CtrlC => lift (Raise KeyboardInterrupt)
  | None => lift (Raise EOFError)
  end.

(** One turn of [while True] (lines 84-94). *)
Definition iteration (k : option keyboard) : M control :=
  line <- input k ;;
  let data_str := PyStr.lower rt (PyStr.strip rt line) in
  if PyStr.eqb data_str (lit "x") then ret Break
  else
    data_int <- parse data_str ;;
    if data_int =? -1 then ret Continue
    else
      data_bytes <- lift (encode data_int) ;;
      emit (SerialWrite data_bytes) ;;
      ret Continue.

(** The loop, on what is typed at the successive prompts. *)
Fixpoint while_true (stdin : list keyboard) : M unit :=
  match stdin with
  | [] => _ <- iteration None ;; ret tt
  | k :: stdin' =>
      c <- iteration (Some k) ;;
      match c with
      | Break => ret tt
      | Continue => while_true stdin'
      end
  end.

(** [loop_send_uart_input] (lines 68-99); [opened] tells whether the serial
    port could be opened (SerialException otherwise). *)
Definition loop_send_uart_input_with (opened : bool) (stdin : list keyboard)
  : M unit :=
  if opened then
    try_finally
      (try_except (while_true stdin) KeyboardInterrupt
         (emit (Log INFO "Interrupted by user" None)))
      (emit SerialClose ;;
       emit (Log INFO "Serial port closed" None))
  else
    emit (Log ERROR "Failed to open serial port: %s" None).

End Loop.

Definition loop_send_uart_input : bool -> list keyboard -> M unit :=
  loop_send_uart_input_with str_to_int.

End Script.

(** ** Notions of the specification *)

(** The reading of an encoded sequence: the little-endian number the bytes
    spell. *)
Definition decode (bs : list byte) : Z := PyInt.from_bytes bs.

(** Ceiling division, as the specification words the byte count. *)
Definition ceil_div (a b : Z) : Z := (- ((- a) / b))%Z.

(** The number of bytes the encode step asks for. *)
Definition byte_count (n : Z) : Z :=
  PyInt.or_ ((PyInt.bit_length n + 7) / 8) 1.

(** The code points below U+0100. *)
Definition below_256 : list codepoint := map N.of_nat (seq 0 256).

(** A string with no white space at either end. *)
Definition trimmed (rt : Runtime) (u : str) : Prop :=
  match u with
  | [] => True
  | c :: _ =>
      Unicode.isspace rt c = false /\ Unicode.isspace rt (last u 0%N) = false
  end.

(** A code point that lowers to itself and is no capital sigma. *)
Definition fixed (rt : Runtime) (d : codepoint) : Prop :=
  d <> Unicode.CAPITAL_SIGMA /\ Unicode.tolower_full rt d = [d].

(** What one code point gives in [lower]. *)
Definition image (rt : Runtime) (before : str) (c : codepoint) (after : str)
  : str :=
  if (c =? Unicode.CAPITAL_SIGMA)%N
  then [PyStr.handle_capital_sigma rt before after]
  else Unicode.tolower_full rt c.

(** The token of a line: trimmed, then lowered (line 21). *)
Definition token (rt : Runtime) (s : str) : str :=
  PyStr.lower rt (PyStr.strip rt s).

Definition is_ascii_digit (c : codepoint) : bool := Unicode.between 48 57 c.

(** The ASCII digits of a base up to 36, in either case. *)
Definition is_digit_of (base : N) (c : codepoint) : bool :=
  (PyInt.digit_value c <? base)%N.

(** The positional value of a numeral in ASCII digits, most significant
    digit first. *)
Fixpoint numeral_value (base : N) (s : str) : N :=
  match s with
  | [] => 0%N
  | c :: s' =>
      (PyInt.digit_value c * base ^ N.of_nat (length s') + numeral_value base s')%N
  end.

(** What [int] reads as a digit of [base]: an ASCII digit of the base, or
    another decimal digit of the database whose value is below the base. *)
Definition reads_as_digit (rt : Runtime) (base : N) (c : codepoint) : bool :=
  if (c <? 127)%N then is_digit_of base c
  else match Unicode.todecimal rt c with
       | Some d => (d <? base)%N
       | None => false
       end.

(** Whether a code point is a decimal digit of the database. *)
Definition is_decimal (rt : Runtime) (c : codepoint) : bool :=
  match Unicode.todecimal rt c with
  | Some _ => true
  | None => false
  end.

(** [s.isdecimal()]. *)
Definition isdecimal (rt : Runtime) (s : str) : bool :=
  match s with
  | [] => false
  | _ => forallb (is_decimal rt) s
  end.

(** The numerals of the specification (rules 1, 3 and 4 of its parser): the
    ASCII decimal digits, or 0x and hexadecimal digits, or 0b and binary
    digits, at least one digit each. *)
Definition spec_numeral (t : str) : bool :=
  match t with
  | [] => false
  | c0 :: t' =>
      forallb is_ascii_digit t
      || ((c0 =? 48)%N
          && match t' with
             | c1 :: r =>
                 match r with
                 | [] => false
                 | _ =>
                     ((c1 =? 120)%N && forallb (is_digit_of 16) r)
                     || ((c1 =? 98)%N && forallb (is_digit_of 2) r)
                 end
             | [] => false
             end)
  end.

(** What the proofs use of the character database above U+00FF: a decimal
    digit has a value below ten, is a digit and is no white space; a lower
    case mapping is not empty, is white space only if its source is, and
    is made of code points that lower to themselves; so are the two small
    sigmas. *)
Record UnicodeFacts (rt : Runtime) : Prop := {
  decimal_lt_10 : forall c d,
    (256 <= c)%N -> hi_todecimal rt c = Some d -> (d < 10)%N;
  decimal_isdigit : forall c d,
    (256 <= c)%N -> hi_todecimal rt c = Some d -> hi_isdigit rt c = true;
  decimal_not_space : forall c d,
    (256 <= c)%N -> hi_todecimal rt c = Some d -> hi_isspace rt c = false;
  lower_nonempty : forall c,
    (256 <= c)%N -> hi_tolower rt c <> [];
  lower_not_space : forall c d,
    (256 <= c)%N -> hi_isspace rt c = false -> In d (hi_tolower rt c) ->
    Unicode.isspace rt d = false;
  lower_fixed : forall c d,
    (256 <= c)%N -> In d (hi_tolower rt c) ->
    d <> Unicode.CAPITAL_SIGMA /\ Unicode.tolower_full rt d = [d];
  sigma_not_space :
    hi_isspace rt Unicode.SMALL_SIGMA = false
    /\ hi_isspace rt Unicode.SMALL_FINAL_SIGMA = false;
  sigma_fixed :
    hi_tolower rt Unicode.SMALL_SIGMA = [Unicode.SMALL_SIGMA]
    /\ hi_tolower rt Unicode.SMALL_FINAL_SIGMA = [Unicode.SMALL_FINAL_SIGMA]
}.

(** The outcome of a parse that failed: the sentinel, after one warning. *)
Definition fails (m : M Z) : Prop :=
  exists fmt arg, m = ([Log WARNING fmt (Some arg)], Return (-1)%Z).

(** ** A runtime to run the script on

    An excerpt of the character database above U+00FF: its white space,
    the Arabic-Indic digits U+0660..U+0669, the three Greek sigmas and the
    Kelvin sign. Every other code point is left without case and without
    digit value. The limit on digits is the default of CPython 3.11. *)
Definition excerpt : Runtime := {|
  hi_isspace c :=
    ((c =? 5760) || Unicode.between 8192 8202 c || (c =? 8232) || (c =? 8233)
     || (c =? 8239) || (c =? 8287) || (c =? 12288))%N;
  hi_isdigit c := Unicode.between 1632 1641 c;
  hi_todecimal c :=
    if Unicode.between 1632 1641 c then Some (c - 1632)%N else None;
  hi_tolower c :=
    (if c =? 931 then [963] else if c =? 8490 then [107] else [c])%N;
  hi_iscased c := ((c =? 931) || (c =? 962) || (c =? 963) || (c =? 8490))%N;
  hi_iscaseignorable _ := false;
  int_max_str_digits := 4300
|}.

(** ** The rest of the script *)

Section Entry.

Context (rt : Runtime).

Local Open Scope monad_scope.

(** [for x in xs: body(x)]. *)
Fixpoint for_each {A} (xs : list A) (body : A -> M unit) : M unit :=
  match xs with
  | [] => ret tt
  | x :: xs' => body x ;; for_each xs' body
  end.

(** [detect_com_port] (lines 47-65); [ports] is what the enumeration of
    the serial ports gives, each port by its device name; the result is
    [None] or a device name. *)
Definition detect_com_port (ports : list str) : M (option str) :=
  match ports with
  | [] =>
      emit (Log ERROR "No COM ports detected" None) ;;
      ret None
  | port0 :: _ =>
      for_each ports
        (fun port => emit (Log INFO "Detected COM port: %s" (Some port))) ;;
      let selected_port := port0 in
      emit (Log INFO "Selected COM port: %s" (Some selected_port)) ;;
      ret (Some selected_port)
  end.

(** The truth value of [None] or a string: a string that is not empty. *)
Definition truthy (v : option str) : bool :=
  match v with
  | Some (_ :: _) => true
  | _ => false
  end.

(** What argparse makes of the command line, for the parser of lines
    103-110 (one optional flag [--com_port] with a string value, and the
    help): the namespace, here the value of [com_port] (the empty string,
    its default, when the flag is absent), or the end of the program,
    with status 0 after the help and 2 after an error (an unknown flag, a
    positional argument, the flag without its value). *)
Inductive command_line : Type :=
| Namespace (com_port : str)
| Exits (status : Z).

(** [parser.parse_args()] (line 111): the namespace, or the message of
    argparse and SystemExit. *)
Definition parse_args (argv : command_line) : M str :=
  match argv with
  | Namespace com_port => ret com_port
  | Exits status =>
      emit Usage ;;
      lift (Raise (SystemExit status))
  end.

(** [main] (lines 102-115); [argv] is what argparse makes of the command
    line, [ports] what the enumeration of the ports gives and [opens]
    tells which device names can be opened. *)
Definition main (argv : command_line) (ports : list str)
    (opens : str -> bool) (stdin : list keyboard) : M unit :=
  args_com_port <- parse_args argv ;;
  com_port <- (if truthy (Some args_com_port) then ret (Some args_com_port)
               else detect_com_port ports) ;;
  if truthy com_port then
    match com_port with
    | Some p => loop_send_uart_input rt (opens p) stdin
    | None => ret tt
    end
  else ret tt.

End Entry.

(** ** Notions for the further properties *)

(** The byte sequences written to the port, in order. *)
Definition writes (w : list effect) : list (list byte) :=
  flat_map (fun e => match e with SerialWrite bs => [bs] | _ => [] end) w.

(** An effect on the terminal or on the port. *)
Definition touches_device (e : effect) : bool :=
  match e with
  | Log _ _ _ => false
  | _ => true
  end.

(** The effects a turn of the loop can have: the prompt, a warning, a
    write. *)
Definition turn_effect (e : effect) : Prop :=
  e = Prompt PROMPT
  \/ (exists fmt arg, e = Log WARNING fmt (Some arg))
  \/ (exists bs, e = SerialWrite bs).

(** A turn of the loop that goes on to the next prompt. *)
Definition continuing (rt : Runtime) (k : keyboard) : Prop :=
  exists w, iteration rt (str_to_int rt) (Some k) = (w, Return Continue).

(** The effects of the turns of the loop on [stdin], one after the other. *)
Definition turns (rt : Runtime) (stdin : list keyboard) : list effect :=
  flat_map (fun k => fst (iteration rt (str_to_int rt) (Some k))) stdin.

(** The value of a numeral in decimal digits of the database, ASCII or
    not, most significant digit first. *)
Fixpoint decimal_value (rt : Runtime) (t : str) : N :=
  match t with
  | [] => 0%N
  | c :: t' =>
      (match Unicode.todecimal rt c with
       | Some d => d
       | None => 0
       end * 10 ^ N.of_nat (length t') + decimal_value rt t')%N
  end.

(** More digits than the interpreter converts: the limit is set, and
    passed, above 640 digits. *)
Definition over_limit (rt : Runtime) (t : str) : Prop :=
  (640 < N.of_nat (length t)
   /\ 0 < int_max_str_digits rt < N.of_nat (length t))%N.

(** The digits of the database are no white space. *)
Definition digits_not_space (rt : Runtime) : Prop :=
  forall c, (256 <= c)%N -> hi_isdigit rt c = true -> hi_isspace rt c = false.

(** The letters, digits and underscore of ASCII. *)
Definition is_word_char (c : codepoint) : bool :=
  is_digit_of 36 c || (c =? PyInt.UNDERSCORE)%N.

(** The last part of [PyLong_FromString]: the digits and what follows
    them, once the spaces, the sign and the prefix are passed. *)
Definition parse_digits (rt : Runtime) (base : N) (sign : Z) (s : str)
  : result Z :=
  if PyInt.starts_with_underscore s then Raise ValueError
  else
    match PyInt.scan_digits base false s with
    | None => Raise ValueError
    | Some (ds, rest) =>
        match ds with
        | [] => Raise ValueError
        | _ =>
            if PyInt.exceeds_limit rt base (length ds) then Raise ValueError
            else match PyInt.skip_spaces rest with
                 | [] => Return (sign * Z.of_N (PyInt.accumulate base ds))%Z
                 | _ => Raise ValueError
                 end
        end
    end.

(** Groups of digits with one underscore between two groups. *)
Definition join (groups : list str) : str :=
  match groups with
  | [] => []
  | g :: gs => g ++ flat_map (fun h => PyInt.UNDERSCORE :: h) gs
  end.

(** Groups of digits of [base]: at least one group, no group empty. *)
Definition digit_groups (base : N) (groups : list str) : Prop :=
  groups <> []
  /\ Forall (fun g => g <> [] /\ forallb (is_digit_of base) g = true) groups.

(** Two underscores in a row. *)
Fixpoint doubled_underscore (s : str) : bool :=
  match s with
  | c :: s' =>
      match s' with
      | d :: _ =>
          ((c =? PyInt.UNDERSCORE)%N && (d =? PyInt.UNDERSCORE)%N)
          || doubled_underscore s'
      | [] => false
      end
  | [] => false
  end.

(** The ASCII character that [int] reads a character as: the character
    itself below U+007F, its ASCII digit for a decimal digit of another
    script. *)
Definition read_as (rt : Runtime) (c : codepoint) : codepoint :=
  if (c <? 127)%N then c
  else match Unicode.todecimal rt c with
       | Some d => (48 + d)%N
       | None => c
       end.

(** The value in [base] of a numeral made of characters that [int] reads
    as digits, most significant digit first. *)
Definition read_value (rt : Runtime) (base : N) (s : str) : N :=
  numeral_value base (map (read_as rt) s).

(** Groups of characters that [int] reads as digits of [base]: at least
    one group, no group empty. *)
Definition read_groups (rt : Runtime) (base : N) (groups : list str) : Prop :=
  groups <> []
  /\ Forall (fun g => g <> [] /\ forallb (reads_as_digit rt base) g = true)
       groups.

(** A text in groups: at most one underscore, then groups of what [int]
    reads as digits of [base] with one underscore between two groups. *)
Definition grouped (rt : Runtime) (base : N) (r : str) : Prop :=
  exists u groups,
    (u = [] \/ u = [PyInt.UNDERSCORE])
    /\ read_groups rt base groups
    /\ r = u ++ join groups.

(** Digits with single underscores between two of them, to the end of the
    text; [sep] tells that a digit has to come next, as at the start and
    after an underscore. *)
Fixpoint digits_and_underscores (digit : codepoint -> bool) (sep : bool)
    (s : str) : bool :=
  match s with
  | [] => negb sep
  | c :: s' =>
      if (c =? PyInt.UNDERSCORE)%N
      then negb sep && digits_and_underscores digit true s'
      else digit c && digits_and_underscores digit false s'
  end.

(** The grammar of [int] for what follows the prefix of a base: at most
    one underscore, then digits of the base, as [int] reads them, with
    single underscores between two digits. *)
Definition literal_body (rt : Runtime) (base : N) (r : str) : bool :=
  match r with
  | c :: r' =>
      digits_and_underscores (reads_as_digit rt base) true
        (if (c =? PyInt.UNDERSCORE)%N then r' else r)
  | [] => false
  end.

(** The tokens that are a literal of [base]: the digit zero, the letter
    [p] of the base, and a body in the grammar of [int]. *)
Definition prefixed_literal (rt : Runtime) (base : N) (p : codepoint)
    (t : str) : bool :=
  match t with
  | c0 :: c1 :: r => (c0 =? 48)%N && (c1 =? p)%N && literal_body rt base r
  | _ => false
  end.

(** A text without its underscores. *)
Definition without_underscores (s : str) : str :=
  filter (fun c => negb (c =? PyInt.UNDERSCORE)%N) s.

(** * Facts *)

(** Case analysis on the comparisons of code points in sight. *)
Ltac ncases :=
  repeat match goal with
    | H : context [(?a <=? ?b)%N] |- _ => destruct (N.leb_spec a b)
    | H : context [(?a <? ?b)%N] |- _ => destruct (N.ltb_spec a b)
    | H : context [(?a =? ?b)%N] |- _ => destruct (N.eqb_spec a b)
    | |- context [(?a <=? ?b)%N] => destruct (N.leb_spec a b)
    | |- context [(?a <? ?b)%N] => destruct (N.ltb_spec a b)
    | |- context [(?a =? ?b)%N] => destruct (N.eqb_spec a b)
    end;
  cbn [andb orb negb] in *;
  try reflexivity; try discriminate; try lia; try (exfalso; lia).

(** ** Bytes and bit lengths *)

Section EncoderFacts.

Import PyInt.

Local Open Scope Z_scope.

Lemma Z_of_byte_of_Z (z : Z) :
  0 <= z < 256 -> Z_of_byte (byte_of_Z z) = z.
Proof.
  intros Hz. unfold Z_of_byte, byte_of_Z.
  destruct (Byte.of_N (Z.to_N z)) as [b|] eqn:E.
  - apply Byte.to_of_N in E. rewrite E. lia.
  - apply Byte.of_N_None_iff in E. lia.
Qed.

Lemma Z_of_byte_range (b : byte) : 0 <= Z_of_byte b < 256.
Proof.
  unfold Z_of_byte. pose proof (Byte.to_N_bounded b). lia.
Qed.

Lemma bit_length_nonneg (n : Z) : 0 <= bit_length n.
Proof.
  unfold bit_length. destruct (Z.eqb_spec n 0); [lia|].
  pose proof (Z.log2_nonneg (Z.abs n)). lia.
Qed.

(** [bit_length n] bits are enough for [n] ... *)
Lemma bit_length_upper (n : Z) : 0 <= n -> n < 2 ^ bit_length n.
Proof.
  intros Hn. unfold bit_length. destruct (Z.eqb_spec n 0) as [->|Hne].
  - reflexivity.
  - rewrite Z.abs_eq by lia.
    replace (Z.log2 n + 1) with (Z.succ (Z.log2 n)) by lia.
    apply Z.log2_spec. lia.
Qed.

(** ... and no smaller number of bits is. *)
Lemma bit_length_least (n k : Z) :
  0 <= n -> 0 <= k -> n < 2 ^ k -> bit_length n <= k.
Proof.
  intros Hn Hk Hlt. unfold bit_length.
  destruct (Z.eqb_spec n 0) as [->|Hne]; [lia|].
  rewrite Z.abs_eq by lia.
  assert (Z.log2 n < k); [|lia].
  apply Z.log2_lt_pow2; lia.
Qed.

Lemma ceil_div_8 (a : Z) : ceil_div a 8 = (a + 7) / 8.
Proof.
  unfold ceil_div.
  pose proof (Z.div_mod (- a) 8 ltac:(lia)).
  pose proof (Z.mod_pos_bound (- a) 8 ltac:(lia)).
  pose proof (Z.div_mod (a + 7) 8 ltac:(lia)).
  pose proof (Z.mod_pos_bound (a + 7) 8 ltac:(lia)).
  lia.
Qed.

Lemma length_le_bytes (k : nat) (n : Z) : length (le_bytes k n) = k.
Proof.
  revert n. induction k as [|k IH]; intros n; simpl; [reflexivity|].
  now rewrite IH.
Qed.

Lemma from_bytes_le_bytes (k : nat) (n : Z) :
  0 <= n < 256 ^ Z.of_nat k -> from_bytes (le_bytes k n) = n.
Proof.
  revert n. induction k as [|k IH]; intros n Hn.
  - simpl in *. lia.
  - cbn [le_bytes from_bytes].
    pose proof (Z.mod_pos_bound n 256 ltac:(lia)) as Hm.
    rewrite Z_of_byte_of_Z by exact Hm.
    rewrite IH.
    + pose proof (Z.div_mod n 256 ltac:(lia)). lia.
    + rewrite Nat2Z.inj_succ, Z.pow_succ_r in Hn by lia.
      split; [apply Z.div_pos; lia|].
      apply Z.div_lt_upper_bound; lia.
Qed.

Lemma nth_le_bytes (k i : nat) (n : Z) :
  (i < k)%nat ->
  nth i (le_bytes k n) x00 = byte_of_Z ((n / 256 ^ Z.of_nat i) mod 256).
Proof.
  revert i n. induction k as [|k IH]; intros i n Hi; [lia|].
  destruct i as [|i].
  - simpl. now rewrite Z.div_1_r.
  - cbn [le_bytes nth]. rewrite IH by lia.
    rewrite Nat2Z.inj_succ, Z.pow_succ_r by lia.
    rewrite Z.div_div by lia. reflexivity.
Qed.

Lemma from_bytes_bound (bs : list byte) :
  0 <= from_bytes bs < 256 ^ Z.of_nat (length bs).
Proof.
  induction bs as [|b bs IH].
  - simpl. lia.
  - cbn [from_bytes length]. rewrite Nat2Z.inj_succ, Z.pow_succ_r by lia.
    pose proof (Z_of_byte_range b). lia.
Qed.

Lemma byte_count_max (n : Z) :
  byte_count n = Z.max 1 (ceil_div (bit_length n) 8).
Proof.
  unfold byte_count, or_. rewrite ceil_div_8.
  pose proof (bit_length_nonneg n).
  assert (0 <= (bit_length n + 7) / 8) by (apply Z.div_pos; lia).
  destruct (Z.eqb_spec ((bit_length n + 7) / 8) 0); lia.
Qed.

Lemma byte_count_fits (n : Z) : 0 <= n -> n < 256 ^ byte_count n.
Proof.
  intros Hn. rewrite byte_count_max, ceil_div_8.
  pose proof (bit_length_nonneg n) as Hb.
  pose proof (bit_length_upper n Hn) as Hu.
  pose proof (Z.div_mod (bit_length n + 7) 8 ltac:(lia)).
  pose proof (Z.mod_pos_bound (bit_length n + 7) 8 ltac:(lia)).
  set (L := Z.max 1 ((bit_length n + 7) / 8)).
  assert (HL : bit_length n <= 8 * L) by lia.
  change 256 with (2 ^ 8). rewrite <- Z.pow_mul_r by lia.
  eapply Z.lt_le_trans; [exact Hu|].
  apply Z.pow_le_mono_r; lia.
Qed.

Lemma encode_eq (n : Z) :
  0 <= n -> encode n = Return (le_bytes (Z.to_nat (byte_count n)) n).
Proof.
  intros Hn. unfold encode. fold (byte_count n).
  pose proof (byte_count_fits n Hn) as Hf.
  pose proof (byte_count_max n) as Hm.
  unfold to_bytes.
  destruct (Z.ltb_spec (byte_count n) 0); [lia|].
  destruct (Z.ltb_spec n 0); [lia|].
  destruct (Z.leb_spec (256 ^ byte_count n) n); [lia|].
  reflexivity.
Qed.

(** A negative value is refused by the conversion. *)
Lemma encode_negative (n : Z) : n < 0 -> encode n = Raise OverflowError.
Proof.
  intros Hn. unfold encode, to_bytes.
  pose proof (byte_count_max n) as Hm. unfold byte_count in Hm.
  destruct (Z.ltb_spec (or_ ((bit_length n + 7) / 8) 1) 0); [lia|].
  destruct (Z.ltb_spec n 0); [reflexivity|lia].
Qed.

(** No shorter sequence of bytes spells the same number. *)
Lemma encode_shortest (n : Z) (bs bs' : list byte) :
  0 <= n -> encode n = Return bs -> bs' <> [] -> decode bs' = n ->
  (length bs <= length bs')%nat.
Proof.
  intros Hn He Hne Hd. rewrite encode_eq in He by exact Hn.
  injection He as <-. rewrite length_le_bytes.
  pose proof (from_bytes_bound bs') as Hb. unfold decode in Hd. rewrite Hd in Hb.
  assert (Hl : bit_length n <= 8 * Z.of_nat (length bs')).
  { apply bit_length_least; [lia|lia|].
    rewrite Z.pow_mul_r by lia. exact (proj2 Hb). }
  rewrite byte_count_max, ceil_div_8.
  destruct bs' as [|b bs'']; [congruence|]. cbn [length] in *.
  pose proof (Z.div_mod (bit_length n + 7) 8 ltac:(lia)).
  pose proof (Z.mod_pos_bound (bit_length n + 7) 8 ltac:(lia)).
  lia.
Qed.

End EncoderFacts.

(** ** Strings: trimming and lowering *)

Section StringFacts.

Import Unicode PyStr.

Local Open Scope N_scope.

Lemma forall_below_256 (P : N -> bool) :
  forallb P below_256 = true -> forall c, c < 256 -> P c = true.
Proof.
  intros H c Hc. rewrite forallb_forall in H. apply H.
  unfold below_256. apply in_map_iff. exists (N.to_nat c).
  split; [lia|]. apply in_seq. lia.
Qed.

Lemma latin1_tolower_facts (c : codepoint) :
  c < 256 ->
  latin1_tolower c < 256
  /\ latin1_tolower (latin1_tolower c) = latin1_tolower c
  /\ latin1_isspace (latin1_tolower c) = latin1_isspace c.
Proof.
  intros Hc.
  pose proof (forall_below_256
    (fun c => (latin1_tolower c <? 256)
              && (latin1_tolower (latin1_tolower c) =? latin1_tolower c)
              && Bool.eqb (latin1_isspace (latin1_tolower c)) (latin1_isspace c))
    eq_refl c Hc) as H.
  cbv beta in H. rewrite !andb_true_iff in H. destruct H as [[H1 H2] H3].
  apply N.ltb_lt in H1. apply N.eqb_eq in H2. apply Bool.eqb_prop in H3.
  auto.
Qed.

Lemma dropwhile_split (f : codepoint -> bool) (s : str) :
  exists pre, s = pre ++ dropwhile f s.
Proof.
  induction s as [|c s [pre IH]]; [now exists []|].
  simpl. destruct (f c).
  - exists (c :: pre). simpl. now rewrite <- IH.
  - now exists [].
Qed.

Lemma dropwhile_head (f : codepoint -> bool) (s : str) (c : codepoint) (r : str) :
  dropwhile f s = c :: r -> f c = false.
Proof.
  induction s as [|a s IH]; simpl; [discriminate|].
  destruct (f a) eqn:E; [exact IH|]. intros [= <- <-]. exact E.
Qed.

Lemma last_app_nonempty (u v : str) (d : codepoint) :
  v <> [] -> last (u ++ v) d = last v d.
Proof.
  intros Hv. destruct (exists_last Hv) as [v' [c ->]].
  rewrite app_assoc, !last_last. reflexivity.
Qed.

Lemma rev_last (u : str) (d : codepoint) :
  u <> [] -> exists r, rev u = last u d :: r.
Proof.
  intros Hu. destruct (exists_last Hu) as [u' [c ->]].
  rewrite rev_app_distr, last_last. simpl. eauto.
Qed.

Section WithRuntime.

Context (rt : Runtime).

Lemma strip_trimmed (s : str) : trimmed rt (strip rt s).
Proof.
  unfold strip, rstrip.
  set (a := lstrip rt s).
  destruct (lstrip rt (rev a)) as [|c r] eqn:E; [exact I|].
  pose proof (dropwhile_head _ _ _ _ E) as Hc.
  destruct (dropwhile_split (isspace rt) (rev a)) as [pre Hpre].
  fold (lstrip rt (rev a)) in Hpre. rewrite E in Hpre.
  assert (Ha : a = rev (c :: r) ++ rev pre).
  { rewrite <- (rev_involutive a), Hpre, rev_app_distr. reflexivity. }
  assert (Hne : rev (c :: r) <> []).
  { simpl. now destruct (rev r). }
  destruct (rev (c :: r)) as [|x y] eqn:Er; [congruence|].
  split.
  - subst a. unfold lstrip in Ha. simpl in Ha.
    eapply dropwhile_head. exact Ha.
  - rewrite <- Er. simpl. rewrite last_last. exact Hc.
Qed.

Lemma strip_of_trimmed (u : str) : trimmed rt u -> strip rt u = u.
Proof.
  destruct u as [|c r]; [reflexivity|]. intros [Hh Hl].
  assert (Hlstrip : lstrip rt (c :: r) = c :: r).
  { unfold lstrip. cbn [dropwhile]. now rewrite Hh. }
  unfold strip. rewrite Hlstrip. unfold rstrip, lstrip.
  destruct (rev_last (c :: r) 0 ltac:(discriminate)) as [r' Hr].
  rewrite Hr. cbn [dropwhile]. rewrite Hl, <- Hr. apply rev_involutive.
Qed.

Hypothesis facts : UnicodeFacts rt.

Lemma sigma_image (before after : str) :
  let d := handle_capital_sigma rt before after in
  fixed rt d /\ isspace rt d = false.
Proof.
  destruct facts as [_ _ _ _ _ _ [Hs1 Hs2] [Hf1 Hf2]].
  unfold handle_capital_sigma.
  match goal with |- context [if ?b then _ else _] => destruct b end;
    cbv zeta; (split; [split; [discriminate|]|]); assumption.
Qed.

Lemma tolower_image (c d : codepoint) :
  In d (tolower_full rt c) ->
  fixed rt d /\ (isspace rt c = false -> isspace rt d = false).
Proof.
  unfold fixed. unfold tolower_full at 1, isspace at 1.
  destruct (N.ltb_spec c 256) as [Hc|Hc].
  - intros [<-|[]].
    destruct (latin1_tolower_facts c Hc) as (H1 & H2 & H3).
    unfold tolower_full, isspace. apply N.ltb_lt in H1 as H1'. rewrite H1'.
    rewrite H2, H3. repeat split; auto. unfold CAPITAL_SIGMA. lia.
  - intros Hd. split.
    + eapply lower_fixed; eauto.
    + intros Hsp. eapply lower_not_space; eauto.
Qed.

Lemma tolower_nonempty (c : codepoint) : tolower_full rt c <> [].
Proof.
  unfold tolower_full. destruct (N.ltb_spec c 256); [discriminate|].
  now apply lower_nonempty.
Qed.

Lemma image_spec (before : str) (c : codepoint) (after : str) :
  image rt before c after <> []
  /\ Forall (fixed rt) (image rt before c after)
  /\ (isspace rt c = false ->
      Forall (fun d => isspace rt d = false) (image rt before c after)).
Proof.
  unfold image. destruct (c =? CAPITAL_SIGMA).
  - destruct (sigma_image before after) as [H1 H2].
    split; [discriminate|].
    split; intros; (constructor; [assumption|constructor]).
  - split; [apply tolower_nonempty|].
    split; [|intros Hsp]; apply Forall_forall; intros d Hd;
      destruct (tolower_image c d Hd) as [H1 H2]; auto.
Qed.

Lemma lower_from_fixed (before s : str) : Forall (fixed rt) (lower_from rt before s).
Proof.
  revert before. induction s as [|c s IH]; intros before; simpl; [constructor|].
  apply Forall_app. split; [|apply IH].
  apply (image_spec before c s).
Qed.

Lemma lower_from_id (before u : str) :
  Forall (fixed rt) u -> lower_from rt before u = u.
Proof.
  revert before. induction u as [|c u IH]; intros before Hu; [reflexivity|].
  inversion Hu as [|? ? [Hc1 Hc2] Hu']; subst. simpl.
  apply N.eqb_neq in Hc1. rewrite Hc1, Hc2, IH by assumption. reflexivity.
Qed.

Lemma lower_from_last (before s : str) :
  s <> [] -> isspace rt (last s 0) = false ->
  lower_from rt before s <> []
  /\ isspace rt (last (lower_from rt before s) 0) = false.
Proof.
  revert before. induction s as [|c s IH]; intros before Hne Hl; [congruence|].
  change (lower_from rt before (c :: s))
    with (image rt before c s ++ lower_from rt (c :: before) s).
  destruct (image_spec before c s) as (Hi1 & _ & Hi3).
  destruct s as [|c' s'].
  - simpl in Hl. cbn [lower_from]. rewrite app_nil_r. split; [exact Hi1|].
    specialize (Hi3 Hl). destruct (exists_last Hi1) as [u [d Hud]].
    change (isspace rt (last (image rt before c []) 0) = false).
    rewrite Hud in *. rewrite last_last.
    apply Forall_app in Hi3 as [_ Hd]. now inversion Hd.
  - destruct (IH (c :: before) ltac:(discriminate) Hl) as [IH1 IH2].
    split.
    + intros Happ. apply app_eq_nil in Happ as [_ Happ]. auto.
    + rewrite last_app_nonempty by exact IH1. exact IH2.
Qed.

Lemma lower_trimmed (t : str) : trimmed rt t -> trimmed rt (lower rt t).
Proof.
  destruct t as [|c r]; [intros _; exact I|]. intros [Hh Hl].
  destruct (lower_from_last [] (c :: r) ltac:(discriminate) Hl) as [H1 H2].
  fold (lower rt (c :: r)) in H1, H2.
  destruct (lower rt (c :: r)) as [|x y] eqn:E; [congruence|].
  split; [|exact H2].
  change (image rt [] c r ++ lower_from rt [c] r = x :: y) in E.
  destruct (image_spec [] c r) as (Hi1 & _ & Hi3).
  specialize (Hi3 Hh). destruct (image rt [] c r) as [|x' y']; [congruence|].
  cbn [app] in E. injection E as <- _. now inversion Hi3.
Qed.

(** The token of a line is trimmed. *)
Lemma token_trimmed (s : str) : trimmed rt (token rt s).
Proof. apply lower_trimmed, strip_trimmed. Qed.

(** Making the token of a token changes nothing. *)
Lemma token_idempotent (s : str) : token rt (token rt s) = token rt s.
Proof.
  unfold token at 1. rewrite strip_of_trimmed by apply token_trimmed.
  unfold token, lower. apply lower_from_id, lower_from_fixed.
Qed.

End WithRuntime.

End StringFacts.

(** ** The conversion of a string to an integer *)

Section IntFacts.

Import Unicode PyInt.

Local Open Scope N_scope.

(** *** Characters *)

Lemma digit_value_digit (base : N) (c : codepoint) :
  base <= 36 -> digit_value c < base ->
  c < 127 /\ (c =? UNDERSCORE) = false /\ Py_ISSPACE c = false
  /\ (c =? 43) = false /\ (c =? 45) = false.
Proof.
  unfold digit_value, Py_ISSPACE, UNDERSCORE, between. intros Hb Hd.
  repeat split; ncases.
Qed.

Lemma digit_value_ascii_digit (d : N) : d < 10 -> digit_value (48 + d) = d.
Proof. unfold digit_value, between. intros Hd. ncases. Qed.

Lemma is_ascii_digit_decimal (c : codepoint) :
  is_ascii_digit c = true -> is_digit_of 10 c = true /\ latin1_isdigit c = true.
Proof.
  unfold is_ascii_digit, is_digit_of, latin1_isdigit, digit_value, between.
  intros H. split; ncases.
Qed.

Lemma Py_ISSPACE_isspace (rt : Runtime) (c : codepoint) :
  Py_ISSPACE c = true -> isspace rt c = true.
Proof.
  unfold Py_ISSPACE, isspace, latin1_isspace, between. intros H. ncases.
Qed.

Lemma latin1_todecimal_high (c : codepoint) :
  127 <= c -> latin1_todecimal c = None.
Proof. unfold latin1_todecimal, between. intros H. ncases. Qed.

Lemma latin1_isdigit_not_sign (c : codepoint) :
  latin1_isdigit c = true -> c <> 45.
Proof. unfold latin1_isdigit, between. intros H. ncases. Qed.

(** *** The pieces of the parser *)

Lemma skip_spaces_suffix (s : str) : exists pre, s = pre ++ skip_spaces s.
Proof.
  induction s as [|c s [pre IH]]; [now exists []|].
  simpl. destruct (Py_ISSPACE c).
  - exists (c :: pre). simpl. now rewrite <- IH.
  - now exists [].
Qed.

Lemma skip_spaces_nil (s : str) :
  skip_spaces s = [] -> s <> [] -> Py_ISSPACE (last s 0) = true.
Proof.
  induction s as [|c s IH]; [congruence|]. intros H _.
  cbn [skip_spaces] in H. destruct (Py_ISSPACE c) eqn:E; [|discriminate].
  destruct s as [|c' s']; [exact E|].
  change (last (c :: c' :: s') 0) with (last (c' :: s') 0).
  apply IH; [exact H|discriminate].
Qed.

Lemma scan_digits_split (base : N) (prev : bool) (s : str)
    (ds : list N) (rest : str) :
  scan_digits base prev s = Some (ds, rest) ->
  exists pre, s = pre ++ rest
    /\ Forall (fun c => c = UNDERSCORE \/ is_digit_of base c = true) pre.
Proof.
  revert prev ds. induction s as [|c s IH]; intros prev ds; cbn [scan_digits].
  - destruct prev; [discriminate|]. intros [= <- <-]. now exists [].
  - destruct (N.eqb_spec c UNDERSCORE) as [->|Hc].
    + destruct prev; [discriminate|]. intros H.
      destruct (IH _ _ H) as (pre & -> & Hpre).
      exists (UNDERSCORE :: pre). split; [reflexivity|].
      constructor; [now left|exact Hpre].
    + destruct (digit_value c <? base) eqn:Ed.
      * destruct (scan_digits base false s) as [[ds' rest']|] eqn:Es;
          [|discriminate].
        intros [= <- <-]. destruct (IH _ _ Es) as (pre & -> & Hpre).
        exists (c :: pre). split; [reflexivity|].
        constructor; [now right|exact Hpre].
      * destruct prev; [discriminate|]. intros [= <- <-]. now exists [].
Qed.

Lemma scan_all_digits (base : N) (r : str) :
  base <= 36 -> forallb (is_digit_of base) r = true ->
  scan_digits base false r = Some (map digit_value r, []).
Proof.
  intros Hb. induction r as [|c r IH]; [reflexivity|].
  cbn [forallb]. rewrite andb_true_iff. intros [Hc Hr].
  cbn [scan_digits map]. unfold is_digit_of in Hc.
  apply N.ltb_lt in Hc as Hlt.
  destruct (digit_value_digit base c Hb Hlt) as (_ & Hu & _).
  now rewrite Hu, Hc, IH.
Qed.

Lemma accumulate_from (base : N) (r : str) (acc : N) :
  fold_left (fun acc d => acc * base + d) (map digit_value r) acc
  = acc * base ^ N.of_nat (length r) + numeral_value base r.
Proof.
  revert acc. induction r as [|c r IH]; intros acc.
  - simpl. lia.
  - cbn [map fold_left numeral_value length]. rewrite IH.
    rewrite Nat2N.inj_succ, N.pow_succ_r'. lia.
Qed.

Lemma accumulate_numeral (base : N) (r : str) :
  accumulate base (map digit_value r) = numeral_value base r.
Proof. unfold accumulate. rewrite accumulate_from. lia. Qed.

Lemma skip_prefix_decimal (s : str) : skip_prefix 10 s = s.
Proof.
  destruct s as [|c0 [|c1 s]]; try reflexivity.
  unfold skip_prefix, prefix_letter. cbn. now rewrite andb_false_r.
Qed.

Lemma PyLong_FromString_raises (rt : Runtime) (s : str) (base : N) (e : exn) :
  PyLong_FromString rt s base = Raise e -> e = ValueError.
Proof.
  unfold PyLong_FromString.
  destruct (skip_sign (skip_spaces s)) as [sign s1].
  destruct (starts_with_underscore _); [congruence|].
  destruct (scan_digits _ _ _) as [[[|d ds] rest]|]; try congruence.
  destruct (exceeds_limit _ _ _); [congruence|].
  destruct (skip_spaces rest); congruence.
Qed.

(** A negative result needs a minus sign in front. *)
Lemma PyLong_FromString_negative (rt : Runtime) (s : str) (base : N) (v : Z) :
  PyLong_FromString rt s base = Return v -> (v < 0)%Z ->
  exists s', skip_spaces s = 45 :: s'.
Proof.
  unfold PyLong_FromString, skip_sign.
  destruct (skip_spaces s) as [|c s0].
  - cbn. discriminate.
  - destruct (N.eqb_spec c 43); [|destruct (N.eqb_spec c 45)].
    2: { subst c. eauto. }
    all: destruct (starts_with_underscore _); [discriminate|];
      destruct (scan_digits _ _ _) as [[[|d ds] rest]|]; try discriminate;
      destruct (exceeds_limit _ _ _); [discriminate|];
      destruct (skip_spaces rest); [|discriminate];
      rewrite Z.mul_1_l; intros [= <-] Hneg; exfalso; lia.
Qed.

Section WithRuntime.

Context (rt : Runtime).

Lemma transform_ascii (u : str) :
  Forall (fun c => c < 127) u -> TransformDecimalAndSpaceToASCII rt u = u.
Proof.
  induction 1 as [|c u Hc _ IH]; [reflexivity|].
  cbn [TransformDecimalAndSpaceToASCII].
  apply N.ltb_lt in Hc. now rewrite Hc, IH.
Qed.

Lemma transform_last (u : str) :
  u <> [] -> isspace rt (last u 0) = false ->
  TransformDecimalAndSpaceToASCII rt u <> [] /\ Py_ISSPACE (last (TransformDecimalAndSpaceToASCII rt u) 0) = false.
Proof.
  induction u as [|c u IH]; [congruence|]. intros _ Hl.
  assert (Htail : u <> [] -> forall x,
            x :: TransformDecimalAndSpaceToASCII rt u <> []
            /\ Py_ISSPACE (last (x :: TransformDecimalAndSpaceToASCII rt u) 0) = false).
  { intros Hu x. destruct u as [|c' u']; [congruence|].
    destruct (IH ltac:(discriminate) Hl) as [H1 H2].
    split; [discriminate|].
    destruct (TransformDecimalAndSpaceToASCII rt (c' :: u')) as [|y z] eqn:E; [congruence|].
    exact H2. }
  cbn [TransformDecimalAndSpaceToASCII].
  destruct (N.ltb_spec c 127) as [Hc|Hc].
  - destruct u as [|c' u']; [|apply Htail; discriminate].
    split; [discriminate|]. cbn in Hl |- *.
    destruct (Py_ISSPACE c) eqn:E; [|reflexivity].
    apply (Py_ISSPACE_isspace rt) in E. congruence.
  - destruct (isspace rt c) eqn:Es.
    + destruct u as [|c' u']; [|apply Htail; discriminate].
      cbn in Hl. congruence.
    + destruct (todecimal rt c) as [d|].
      * destruct u as [|c' u']; [|apply Htail; discriminate].
        split; [discriminate|]. cbn [TransformDecimalAndSpaceToASCII last].
        unfold Py_ISSPACE, between. ncases.
      * split; [discriminate|]. reflexivity.
Qed.

Lemma transform_not_minus (u : str) :
  Forall (fun c => c <> 45) u -> Forall (fun c => c <> 45) (TransformDecimalAndSpaceToASCII rt u).
Proof.
  induction 1 as [|c u Hc _ IH]; [constructor|].
  cbn [TransformDecimalAndSpaceToASCII].
  destruct (c <? 127); [now constructor|].
  destruct (isspace rt c); [constructor; [lia|exact IH]|].
  destruct (todecimal rt c) as [d|].
  - constructor; [lia|exact IH].
  - constructor; [lia|constructor].
Qed.

Hypothesis facts : UnicodeFacts rt.

Lemma todecimal_lt_10 (c : codepoint) (d : N) :
  todecimal rt c = Some d -> d < 10.
Proof.
  unfold todecimal, latin1_todecimal, between.
  destruct (N.ltb_spec c 256).
  - destruct ((48 <=? c) && (c <=? 57)) eqn:E; [|discriminate].
    intros [= <-]. ncases.
  - now apply decimal_lt_10.
Qed.

(** When the transformed text is made of digits of the base and
    underscores, the text is made of what [int] reads as such. *)
Lemma transform_chars (base : N) (u : str) :
  base <= 36 ->
  Forall (fun c => c = UNDERSCORE \/ is_digit_of base c = true) (TransformDecimalAndSpaceToASCII rt u) ->
  Forall (fun c => c = UNDERSCORE \/ reads_as_digit rt base c = true) u.
Proof.
  intros Hb. induction u as [|c u IH]; [constructor|].
  cbn [TransformDecimalAndSpaceToASCII].
  assert (Hbad : forall x, (x = 32 \/ x = 63) ->
            ~ (x = UNDERSCORE \/ is_digit_of base x = true)).
  { intros x Hx [H|H]; [unfold UNDERSCORE in H; lia|].
    unfold is_digit_of in H. apply N.ltb_lt in H.
    destruct Hx as [-> | ->];
      [change (digit_value 32) with 37 in H
      |change (digit_value 63) with 37 in H]; lia. }
  destruct (N.ltb_spec c 127) as [Hc|Hc].
  - intros H. apply Forall_cons_iff in H as [Hx Hu].
    constructor; [|auto]. unfold reads_as_digit.
    apply N.ltb_lt in Hc. now rewrite Hc.
  - destruct (isspace rt c).
    + intros H. apply Forall_cons_iff in H as [Hx _].
      now apply Hbad in Hx; [|left].
    + destruct (todecimal rt c) as [d|] eqn:Ed.
      * intros H. apply Forall_cons_iff in H as [Hx Hu].
        pose proof (todecimal_lt_10 _ _ Ed) as Hd.
        constructor; [|auto]. right. unfold reads_as_digit.
        apply N.ltb_ge in Hc. rewrite Hc, Ed.
        destruct Hx as [Hx|Hx]; [unfold UNDERSCORE in Hx; exfalso; lia|].
        unfold is_digit_of in Hx.
        now rewrite digit_value_ascii_digit in Hx.
      * intros H. apply Forall_cons_iff in H as [Hx _].
        now apply Hbad in Hx; [|right].
Qed.

End WithRuntime.

End IntFacts.

(** *** [int] on the texts the script gives it *)

Section ConversionFacts.

Import Unicode PyInt.

Local Open Scope N_scope.

Lemma skip_spaces_cons (c : codepoint) (s : str) :
  Py_ISSPACE c = false -> skip_spaces (c :: s) = c :: s.
Proof. intros H. cbn [skip_spaces]. now rewrite H. Qed.

Lemma skip_sign_cons (c : codepoint) (s : str) :
  (c =? 43) = false -> (c =? 45) = false -> skip_sign (c :: s) = (1%Z, c :: s).
Proof. intros H1 H2. unfold skip_sign. now rewrite H1, H2. Qed.

Lemma skip_prefix_cons (base : N) (p : codepoint) (s : str) :
  prefix_letter base p = true ->
  skip_prefix base (48 :: p :: s) = skip_underscore s.
Proof. intros H. unfold skip_prefix. now rewrite H. Qed.

Lemma skip_underscore_cases (s : str) :
  exists pre, s = pre ++ skip_underscore s /\ (pre = [] \/ pre = [UNDERSCORE]).
Proof.
  unfold skip_underscore, starts_with_underscore.
  destruct s as [|c s]; [exists []; auto|].
  destruct (N.eqb_spec c UNDERSCORE) as [->|_].
  - exists [UNDERSCORE]. auto.
  - exists []. auto.
Qed.

Lemma prefix_letter_ascii (base : N) (p : codepoint) :
  prefix_letter base p = true -> p < 127.
Proof.
  unfold prefix_letter. rewrite !orb_true_iff, !andb_true_iff, !orb_true_iff.
  rewrite !N.eqb_eq. lia.
Qed.

Lemma digits_ascii (base : N) (r : str) :
  base <= 36 -> forallb (is_digit_of base) r = true ->
  Forall (fun c => c < 127) r.
Proof.
  intros Hb H. rewrite forallb_forall in H. apply Forall_forall.
  intros c Hc. apply H in Hc. unfold is_digit_of in Hc.
  apply N.ltb_lt in Hc. now apply (digit_value_digit base c Hb).
Qed.

Section WithRuntime.

Context (rt : Runtime).

Lemma int_raises (x : str) (base : N) (e : exn) :
  int rt x base = Raise e -> e = ValueError.
Proof. apply PyLong_FromString_raises. Qed.

Lemma transform_prefixed (p : codepoint) (r : str) :
  p < 127 ->
  TransformDecimalAndSpaceToASCII rt (48 :: p :: r)
  = 48 :: p :: TransformDecimalAndSpaceToASCII rt r.
Proof.
  intros Hp. cbn [TransformDecimalAndSpaceToASCII].
  apply N.ltb_lt in Hp. rewrite Hp. reflexivity.
Qed.

(** The digits of the base after the prefix give their value. *)
Lemma int_prefixed_digits (base : N) (p : codepoint) (r : str) :
  prefix_letter base p = true -> base <= 36 -> is_binary_base base = true ->
  r <> [] -> forallb (is_digit_of base) r = true ->
  int rt (48 :: p :: r) base = Return (Z.of_N (numeral_value base r)).
Proof.
  intros Hp Hb Hbin Hne Hr. unfold int.
  rewrite transform_prefixed by (eapply prefix_letter_ascii; eauto).
  rewrite transform_ascii by (eapply digits_ascii; eauto).
  unfold PyLong_FromString.
  rewrite skip_spaces_cons, skip_sign_cons, skip_prefix_cons by
    (reflexivity || exact Hp).
  destruct r as [|c r']; [congruence|].
  assert (Hc : (c =? UNDERSCORE) = false).
  { cbn [forallb] in Hr. apply andb_true_iff in Hr as [Hc _].
    unfold is_digit_of in Hc. apply N.ltb_lt in Hc.
    now apply (digit_value_digit base c Hb). }
  unfold skip_underscore, starts_with_underscore. rewrite Hc.
  rewrite scan_all_digits by assumption.
  cbn [map length]. unfold exceeds_limit. rewrite Hbin. cbn [negb andb].
  cbn [skip_spaces]. change (digit_value c :: map digit_value r')
    with (map digit_value (c :: r')).
  now rewrite ?Hc, accumulate_numeral, Z.mul_1_l.
Qed.

(** The ASCII decimal digits give their value, within the limit. *)
Lemma int_decimal_digits (t : str) :
  t <> [] -> forallb is_ascii_digit t = true ->
  exceeds_limit rt 10 (length t) = false ->
  int rt t 10 = Return (Z.of_N (numeral_value 10 t)).
Proof.
  intros Hne Ht Hlim. unfold int.
  assert (Hd : forallb (is_digit_of 10) t = true).
  { rewrite forallb_forall in *. intros c Hc.
    now apply is_ascii_digit_decimal, Ht. }
  rewrite transform_ascii by (apply (digits_ascii 10); [lia|exact Hd]).
  unfold PyLong_FromString.
  destruct t as [|c t']; [congruence|].
  assert (Hc : digit_value c < 10).
  { cbn [forallb] in Hd. apply andb_true_iff in Hd as [Hc _].
    now apply N.ltb_lt in Hc. }
  destruct (digit_value_digit 10 c ltac:(lia) Hc) as (_ & H1 & H2 & H3 & H4).
  rewrite skip_spaces_cons, skip_sign_cons, skip_prefix_decimal by assumption.
  unfold starts_with_underscore. rewrite H1.
  rewrite scan_all_digits by (lia || assumption).
  cbn [map length]. rewrite length_map. cbn [length] in Hlim. rewrite Hlim.
  cbn [skip_spaces]. change (digit_value c :: map digit_value t')
    with (map digit_value (c :: t')).
  now rewrite accumulate_numeral, Z.mul_1_l.
Qed.

Lemma int_nonnegative (x : str) (base : N) (v : Z) :
  Forall (fun c => c <> 45) x -> int rt x base = Return v -> (0 <= v)%Z.
Proof.
  intros Hx Hv. destruct (Z.lt_ge_cases v 0) as [Hneg|]; [|assumption].
  destruct (PyLong_FromString_negative _ _ _ _ Hv Hneg) as [s' Hs'].
  apply (transform_not_minus rt) in Hx.
  destruct (skip_spaces_suffix (TransformDecimalAndSpaceToASCII rt x))
    as [pre Hpre].
  rewrite Hs' in Hpre. rewrite Hpre in Hx.
  apply Forall_app in Hx as [_ Hx]. now inversion Hx.
Qed.

Lemma isdigit_not_minus (t : str) :
  PyStr.isdigit rt t = true -> Forall (fun c => c <> 45) t.
Proof.
  unfold PyStr.isdigit. destruct t as [|c0 t0]; [discriminate|].
  intros H. rewrite forallb_forall in H. apply Forall_forall.
  intros c Hc ->. apply H in Hc. discriminate.
Qed.

Lemma int_prefixed_nonnegative (p : codepoint) (r : str) (base : N) (v : Z) :
  int rt (48 :: p :: r) base = Return v -> (0 <= v)%Z.
Proof.
  intros Hv. destruct (Z.lt_ge_cases v 0) as [Hneg|]; [|assumption].
  destruct (PyLong_FromString_negative _ _ _ _ Hv Hneg) as [s' Hs'].
  cbn [TransformDecimalAndSpaceToASCII] in Hs'.
  change (48 <? 127) with true in Hs'. cbv iota in Hs'.
  rewrite skip_spaces_cons in Hs' by reflexivity. discriminate.
Qed.

Hypothesis facts : UnicodeFacts rt.

(** A text with the prefix that [int] takes is made, after the prefix, of
    what it reads as digits of the base and of underscores. *)
Lemma int_prefixed_inv (base : N) (p : codepoint) (r : str) (v : Z) :
  prefix_letter base p = true -> base <= 36 ->
  r <> [] -> isspace rt (last r 0) = false ->
  int rt (48 :: p :: r) base = Return v ->
  Forall (fun c => c = UNDERSCORE \/ reads_as_digit rt base c = true) r.
Proof.
  intros Hp Hb Hne Hl. unfold int.
  rewrite transform_prefixed by (eapply prefix_letter_ascii; eauto).
  destruct (transform_last rt r Hne Hl) as [Hne' Hl'].
  set (r0 := TransformDecimalAndSpaceToASCII rt r) in *.
  unfold PyLong_FromString.
  rewrite skip_spaces_cons, skip_sign_cons, skip_prefix_cons by
    (reflexivity || exact Hp).
  destruct (skip_underscore_cases r0) as (pre0 & Hr0 & Hpre0).
  destruct (starts_with_underscore (skip_underscore r0)); [discriminate|].
  destruct (scan_digits base false (skip_underscore r0))
    as [[ds rest]|] eqn:Es; [|discriminate].
  destruct ds as [|d ds]; [discriminate|].
  destruct (exceeds_limit rt base _); [discriminate|].
  destruct (skip_spaces rest) as [|x y] eqn:Er; [|discriminate].
  intros _.
  destruct (scan_digits_split _ _ _ _ _ Es) as (pre & Hsplit & Hpre).
  assert (Hall : Forall (fun c => c = UNDERSCORE \/ is_digit_of base c = true)
                   (pre0 ++ pre)).
  { apply Forall_app. split; [|exact Hpre].
    destruct Hpre0 as [-> | ->]; [constructor|].
    constructor; [now left|constructor]. }
  rewrite Hsplit, app_assoc in Hr0.
  destruct rest as [|x y].
  - rewrite app_nil_r in Hr0. apply transform_chars; [exact facts|exact Hb|].
    fold r0. now rewrite Hr0.
  - pose proof (skip_spaces_nil _ Er ltac:(discriminate)) as Hsp.
    rewrite Hr0, last_app_nonempty in Hl' by discriminate. congruence.
Qed.

End WithRuntime.

End ConversionFacts.

(** ** The script *)

Section ScriptFacts.

Import Unicode.

Local Open Scope Z_scope.

Lemma forallb_false_witness {A} (f : A -> bool) (l : list A) :
  forallb f l = false -> exists x, In x l /\ f x = false.
Proof.
  induction l as [|a l IH]; [discriminate|].
  cbn [forallb]. destruct (f a) eqn:E.
  - intros H. destruct (IH H) as (x & Hx & Hfx). exists x. split; [now right|auto].
  - intros _. exists a. split; [now left|auto].
Qed.

Lemma startswith_two (t : str) (a b : codepoint) :
  PyStr.startswith t [a; b] = true -> exists r, t = a :: b :: r.
Proof.
  destruct t as [|c0 [|c1 r]]; cbn [PyStr.startswith].
  - discriminate.
  - now rewrite andb_false_r.
  - rewrite andb_true_r, andb_true_iff, !N.eqb_eq. intros [-> ->]. eauto.
Qed.

Lemma outcome_bind {A B} (m : M A) (k : A -> M B) :
  outcome (bind m k)
  = match outcome m with
    | Return a => outcome (k a)
    | Raise e => Raise e
    end.
Proof.
  destruct m as [w [a|e]]; [|reflexivity].
  cbn. now destruct (k a).
Qed.

Section WithRuntime.

Context (rt : Runtime).

(** The cases of [str_to_int], on the token of its argument. *)
Lemma str_to_int_eq (s : str) :
  str_to_int rt s =
  let t := token rt s in
  if PyStr.isdigit rt t then ([], PyInt.int rt t 10)
  else if PyStr.len t <? 3 then
    ([Log WARNING "Value missing from string: %s" (Some t)], Return (-1))
  else if PyStr.startswith t (lit "0x") then
    match PyInt.int rt t 16 with
    | Return v => ([], Return v)
    | Raise _ => ([Log WARNING "Invalid hex value: %s" (Some t)], Return (-1))
    end
  else if PyStr.startswith t (lit "0b") then
    match PyInt.int rt t 2 with
    | Return v => ([], Return v)
    | Raise _ =>
        ([Log WARNING "Invalid binary value: %s" (Some t)], Return (-1))
    end
  else ([Log WARNING "Unknown format for string: %s" (Some t)], Return (-1)).
Proof.
  unfold str_to_int. fold (token rt s). cbv zeta.
  destruct (PyStr.isdigit rt (token rt s)); [reflexivity|].
  destruct (PyStr.len (token rt s) <? 3); [reflexivity|].
  destruct (PyStr.startswith (token rt s) (lit "0x")).
  { destruct (PyInt.int rt (token rt s) 16) as [v|e] eqn:E; [reflexivity|].
    apply int_raises in E. subst e. reflexivity. }
  destruct (PyStr.startswith (token rt s) (lit "0b")); [|reflexivity].
  destruct (PyInt.int rt (token rt s) 2) as [v|e] eqn:E; [reflexivity|].
  apply int_raises in E. subst e. reflexivity.
Qed.

(** A parse gives a value that is not negative, or the sentinel after a
    warning, or raises ValueError. *)
Lemma str_to_int_outcomes (s : str) :
  (exists v, 0 <= v /\ str_to_int rt s = ([], Return v))
  \/ fails (str_to_int rt s)
  \/ str_to_int rt s = ([], Raise ValueError).
Proof.
  rewrite str_to_int_eq. cbv zeta. set (t := token rt s).
  destruct (PyStr.isdigit rt t) eqn:Ed.
  { destruct (PyInt.int rt t 10) as [v|e] eqn:E.
    - left. exists v. split; [|reflexivity].
      eapply int_nonnegative; [|exact E]. eapply isdigit_not_minus, Ed.
    - right. right. apply int_raises in E. now subst e. }
  destruct (PyStr.len t <? 3); [right; left; unfold fails; eauto|].
  destruct (PyStr.startswith t (lit "0x")) eqn:Ex.
  { apply startswith_two in Ex as [r Hr]. rewrite Hr.
    destruct (PyInt.int rt _ 16) as [v|e] eqn:E;
      [|right; left; unfold fails; eauto].
    left. exists v. split; [|reflexivity].
    eapply int_prefixed_nonnegative. exact E. }
  destruct (PyStr.startswith t (lit "0b")) eqn:Eb;
    [|right; left; unfold fails; eauto].
  apply startswith_two in Eb as [r Hr]. rewrite Hr.
  destruct (PyInt.int rt _ 2) as [v|e] eqn:E;
    [|right; left; unfold fails; eauto].
  left. exists v. split; [|reflexivity].
  eapply int_prefixed_nonnegative. exact E.
Qed.

(** A token that is no run of digits and is shorter than three characters
    fails. *)
Lemma short_token_fails (s : str) :
  PyStr.isdigit rt (token rt s) = false -> PyStr.len (token rt s) < 3 ->
  fails (str_to_int rt s).
Proof.
  intros Hd Hl. rewrite str_to_int_eq. cbv zeta. rewrite Hd.
  apply Z.ltb_lt in Hl. rewrite Hl. unfold fails. eauto.
Qed.

(** What the parse of a token with a prefix comes to. *)
Lemma str_to_int_prefixed (s : str) (base : N) (p : codepoint) (r : str) :
  (base = 16%N /\ p = 120%N) \/ (base = 2%N /\ p = 98%N) ->
  token rt s = 48%N :: p :: r -> r <> [] ->
  exists fmt,
    str_to_int rt s =
    match PyInt.int rt (48%N :: p :: r) base with
    | Return v => ([], Return v)
    | Raise _ => ([Log WARNING fmt (Some (48%N :: p :: r))], Return (-1))
    end.
Proof.
  intros Hbase Ht Hr. rewrite str_to_int_eq. cbv zeta. rewrite Ht.
  assert (Hlen : (PyStr.len (48%N :: p :: r) <? 3) = false).
  { apply Z.ltb_ge. unfold PyStr.len. destruct r; [congruence|].
    cbn [length]. lia. }
  rewrite Hlen.
  destruct Hbase as [[-> ->]|[-> ->]]; eexists; reflexivity.
Qed.

Hypothesis facts : UnicodeFacts rt.

Lemma token_last_not_space (s : str) (c0 c1 : codepoint) (r : str) :
  token rt s = c0 :: c1 :: r -> r <> [] -> isspace rt (last r 0%N) = false.
Proof.
  intros Ht Hr. pose proof (token_trimmed rt facts s) as H.
  rewrite Ht in H. destruct H as [_ H].
  destruct r as [|x y]; [congruence|]. exact H.
Qed.

End WithRuntime.

End ScriptFacts.

(** ** The loop *)

Section LoopFacts.

Context (rt : Runtime).

Local Open Scope Z_scope.

(** One turn of the loop on a line, case by case. *)
Lemma iteration_line (parse : str -> M Z) (line : str) :
  iteration rt parse (Some (Line line)) =
  if PyStr.eqb (token rt line) (lit "x") then ([Prompt PROMPT], Return Break)
  else
    match parse (token rt line) with
    | (w, Return v) =>
        if v =? -1 then (Prompt PROMPT :: w, Return Continue)
        else match encode v with
             | Return bs =>
                 (Prompt PROMPT :: w ++ [SerialWrite bs], Return Continue)
             | Raise e => (Prompt PROMPT :: w, Raise e)
             end
    | (w, Raise e) => (Prompt PROMPT :: w, Raise e)
    end.
Proof.
  unfold iteration, input, token. cbn [bind emit ret app].
  destruct (PyStr.eqb _ _); [reflexivity|].
  destruct (parse _) as [w [v|e]]; [|reflexivity]. cbn [bind].
  destruct (v =? -1); [cbn; now rewrite app_nil_r|].
  destruct (encode v) as [bs|e]; cbn; [reflexivity|now rewrite app_nil_r].
Qed.

Lemma iteration_cases (line : str) :
  let it := iteration rt (str_to_int rt) (Some (Line line)) in
  it = ([Prompt PROMPT], Return Break)
  \/ (exists fmt arg,
        it = ([Prompt PROMPT; Log WARNING fmt (Some arg)], Return Continue))
  \/ (exists v bs, 0 <= v /\ encode v = Return bs
        /\ it = ([Prompt PROMPT; SerialWrite bs], Return Continue))
  \/ it = ([Prompt PROMPT], Raise ValueError).
Proof.
  cbv zeta. rewrite iteration_line.
  destruct (PyStr.eqb _ _); [now left|]. right.
  destruct (str_to_int_outcomes rt (token rt line))
    as [(v & Hv & ->)|[(fmt & arg & ->)| ->]].
  - right. left. destruct (Z.eqb_spec v (-1)); [lia|].
    pose proof (encode_eq v Hv) as He. rewrite He.
    exists v. eexists. repeat split; [exact Hv|exact He].
  - left. cbn. eauto.
  - right. right. reflexivity.
Qed.

Lemma while_true_outcome (stdin : list keyboard) :
  let r := outcome (while_true rt (str_to_int rt) stdin) in
  r = Return tt \/ r = Raise ValueError \/ r = Raise KeyboardInterrupt
  \/ r = Raise EOFError.
Proof.
  cbv zeta. induction stdin as [|k stdin IH]; cbn [while_true].
  - cbn. auto.
  - rewrite outcome_bind. destruct k as [line|]; [|cbn; auto].
    destruct (iteration_cases line)
      as [-> |[(fmt & arg & ->)|[(v & bs & _ & _ & ->)| ->]]]; cbn; auto.
Qed.

(** The function ends normally or with ValueError or EOFError. *)
Lemma loop_outcome (opened : bool) (stdin : list keyboard) :
  let r := outcome (loop_send_uart_input rt opened stdin) in
  r = Return tt \/ r = Raise ValueError \/ r = Raise EOFError.
Proof.
  cbv zeta. unfold loop_send_uart_input, loop_send_uart_input_with.
  destruct opened; [|cbn; auto].
  pose proof (while_true_outcome stdin) as H. cbv zeta in H.
  destruct (while_true rt (str_to_int rt) stdin) as [w r].
  cbn in H. destruct H as [-> |[-> |[-> | ->]]]; cbn; auto.
Qed.

End LoopFacts.

(** ** The excerpt of the database *)

Lemma excerpt_facts : UnicodeFacts excerpt.
Proof.
  split; cbn [hi_todecimal hi_isdigit hi_isspace hi_tolower excerpt].
  - intros c d Hc. unfold Unicode.between.
    destruct ((1632 <=? c) && (c <=? 1641))%N eqn:E; [|discriminate].
    intros [= <-]. ncases.
  - intros c d Hc. destruct (Unicode.between 1632 1641 c); [auto|discriminate].
  - intros c d Hc. unfold Unicode.between.
    destruct ((1632 <=? c) && (c <=? 1641))%N eqn:E; [|discriminate].
    intros _. ncases.
  - intros c Hc. ncases.
  - intros c d Hc Hs Hd.
    destruct (N.eqb_spec c 931); [|destruct (N.eqb_spec c 8490)];
      destruct Hd as [<-|[]]; try reflexivity.
    unfold Unicode.isspace. apply N.ltb_ge in Hc. now rewrite Hc.
  - intros c d Hc Hd.
    destruct (N.eqb_spec c 931); [|destruct (N.eqb_spec c 8490)];
      destruct Hd as [<-|[]]; try (split; [discriminate|reflexivity]).
    split; [exact n|].
    unfold Unicode.tolower_full. apply N.ltb_ge in Hc. rewrite Hc.
    cbn [hi_tolower excerpt].
    apply N.eqb_neq in n, n0. now rewrite n, n0.
  - split; reflexivity.
  - split; reflexivity.
Qed.

(** ** The shape of what [int] takes *)

Section ParserShape.

Import Unicode PyInt.

Local Open Scope N_scope.

Lemma PyLong_FromString_eq (rt : Runtime) (s : str) (base : N) :
  PyLong_FromString rt s base
  = let (sign, s1) := skip_sign (skip_spaces s) in
    parse_digits rt base sign (skip_prefix base s1).
Proof. reflexivity. Qed.

Lemma skip_spaces_split (s : str) :
  exists pre, s = pre ++ skip_spaces s /\ forallb Py_ISSPACE pre = true.
Proof.
  induction s as [|c s (pre & IH & Hpre)]; [now exists []|].
  cbn [skip_spaces]. destruct (Py_ISSPACE c) eqn:E.
  - exists (c :: pre). cbn. rewrite E, Hpre, <- IH. auto.
  - now exists [].
Qed.

Lemma skip_spaces_all (s : str) :
  skip_spaces s = [] -> forallb Py_ISSPACE s = true.
Proof.
  intros H. destruct (skip_spaces_split s) as (pre & Hs & Hpre).
  rewrite H, app_nil_r in Hs. now subst.
Qed.

Lemma skip_spaces_of_spaces (s : str) :
  forallb Py_ISSPACE s = true -> skip_spaces s = [].
Proof.
  induction s as [|c s IH]; [reflexivity|].
  cbn [forallb skip_spaces]. rewrite andb_true_iff. intros [-> H]. auto.
Qed.

(** Nothing is consumed when no digit is found. *)
Lemma scan_no_digits (base : N) (prev : bool) (s rest : str) :
  scan_digits base prev s = Some ([], rest) -> rest = s /\ prev = false.
Proof.
  revert prev. induction s as [|c s IH]; intros prev; cbn [scan_digits].
  - destruct prev; [discriminate|]. now intros [= <-].
  - destruct (c =? UNDERSCORE).
    + destruct prev; [discriminate|]. intros H. apply IH in H as [_ H].
      discriminate.
    + destruct (digit_value c <? base).
      * destruct (scan_digits base false s) as [[ds r]|]; discriminate.
      * destruct prev; [discriminate|]. now intros [= <-].
Qed.

Lemma join_cons (g : str) (groups : list str) :
  groups <> [] -> join (g :: groups) = g ++ UNDERSCORE :: join groups.
Proof.
  destruct groups as [|h gs]; [now intros []|]. intros _. reflexivity.
Qed.

Lemma digit_groups_cons (base : N) (g : str) (groups : list str) :
  g <> [] -> forallb (is_digit_of base) g = true ->
  groups = [] \/ digit_groups base groups ->
  digit_groups base (g :: groups).
Proof.
  intros Hg Hd H. split; [discriminate|]. constructor; [auto|].
  destruct H as [-> |[_ H]]; [constructor|exact H].
Qed.

(** The digits found, when the text is consumed to its end, come in
    groups; an underscore in front is possible at the start only. *)
Lemma scan_digits_groups (base : N) (prev : bool) (s : str) (ds : list N) :
  scan_digits base prev s = Some (ds, []) -> ds <> [] ->
  exists u groups,
    s = u ++ join groups /\ digit_groups base groups
    /\ (u = [] \/ (u = [UNDERSCORE] /\ prev = false))
    /\ ds = map digit_value (concat groups).
Proof.
  revert prev ds. induction s as [|c s IH]; intros prev ds; cbn [scan_digits].
  - destruct prev; [discriminate|]. intros [= <-]. congruence.
  - destruct (N.eqb_spec c UNDERSCORE) as [->|Hc].
    + destruct prev; [discriminate|]. intros H Hds.
      destruct (IH _ _ H Hds) as (u & groups & -> & Hg & [-> |[_ [=]]] & ->).
      exists [UNDERSCORE], groups.
      split; [reflexivity|]. split; [exact Hg|]. split; [right|]; auto.
    + destruct (digit_value c <? base) eqn:Ed.
      * destruct (scan_digits base false s) as [[ds' rest]|] eqn:Es;
          [|discriminate].
        intros [= <- ->] _.
        destruct ds' as [|d ds'].
        { apply scan_no_digits in Es as [<- _].
          exists [], [[c]].
          split; [reflexivity|]. split; [|split; [now left|reflexivity]].
          apply digit_groups_cons; [discriminate| |now left].
          cbn. unfold is_digit_of. now rewrite Ed. }
        destruct (IH _ _ Es ltac:(discriminate))
          as (u & groups & -> & Hg & Hu & Hds).
        rewrite Hds. destruct Hu as [-> |[-> _]].
        -- destruct groups as [|g gs]; [now destruct Hg as [[] _]|].
           exists [], ((c :: g) :: gs).
           split; [reflexivity|]. split; [|split; [now left|reflexivity]].
           destruct Hg as [_ Hg]. inversion Hg as [|? ? [Hg1 Hg2] Hgs]; subst.
           split; [discriminate|].
           constructor; [|exact Hgs]. split; [discriminate|].
           cbn. unfold is_digit_of at 1. now rewrite Ed.
        -- exists [], ([c] :: groups).
           split; [cbn [app]; now rewrite join_cons by apply Hg|].
           split; [|split; [now left|reflexivity]].
           apply digit_groups_cons; [discriminate| |now right].
           cbn. unfold is_digit_of. now rewrite Ed.
      * destruct prev; [discriminate|]. intros [= <- [=]].
Qed.

Lemma scan_digits_digit (base : N) (prev : bool) (c : codepoint) (s : str) :
  base <= 36 -> is_digit_of base c = true ->
  scan_digits base prev (c :: s)
  = match scan_digits base false s with
    | Some (ds, rest) => Some (digit_value c :: ds, rest)
    | None => None
    end.
Proof.
  intros Hb Hc. cbn [scan_digits]. unfold is_digit_of in Hc.
  apply N.ltb_lt in Hc as Hlt.
  destruct (digit_value_digit base c Hb Hlt) as (_ & Hu & _).
  now rewrite Hu, Hc.
Qed.

Lemma scan_digits_group (base : N) (prev : bool) (g s : str) :
  base <= 36 -> g <> [] -> forallb (is_digit_of base) g = true ->
  scan_digits base prev (g ++ s)
  = match scan_digits base false s with
    | Some (ds, rest) => Some (map digit_value g ++ ds, rest)
    | None => None
    end.
Proof.
  intros Hb Hne Hg. revert prev.
  induction g as [|c g IH]; intros prev; [now destruct Hne|].
  cbn [forallb] in Hg. apply andb_true_iff in Hg as [Hc Hg].
  cbn [app]. rewrite scan_digits_digit by assumption.
  destruct g as [|c' g'].
  - cbn [app map]. now destruct (scan_digits base false s) as [[ds rest]|].
  - rewrite IH by (discriminate || assumption).
    now destruct (scan_digits base false s) as [[ds rest]|].
Qed.

(** Groups of digits followed by something that is no digit and no
    underscore are consumed, and nothing more. *)
Lemma scan_digits_join (base : N) (prev : bool) (groups : list str)
    (rest : str) :
  base <= 36 -> digit_groups base groups ->
  match rest with
  | [] => True
  | c :: _ => (c =? UNDERSCORE) = false /\ is_digit_of base c = false
  end ->
  scan_digits base prev (join groups ++ rest)
  = Some (map digit_value (concat groups), rest).
Proof.
  intros Hb [Hne Hg] Hrest. revert prev Hne.
  induction Hg as [|g gs [Hg1 Hg2] Hgs IH]; intros prev Hne;
    [now destruct Hne|].
  destruct gs as [|h gs'].
  - cbn [join flat_map concat]. rewrite !app_nil_r.
    rewrite scan_digits_group by assumption.
    destruct rest as [|c rest'].
    + cbn. now rewrite app_nil_r.
    + destruct Hrest as [Hu Hd]. cbn [scan_digits].
      unfold is_digit_of in Hd. rewrite Hu, Hd. now rewrite app_nil_r.
  - rewrite join_cons by discriminate. rewrite <- app_assoc.
    rewrite scan_digits_group by assumption. cbn [app scan_digits].
    rewrite N.eqb_refl.
    rewrite (IH true ltac:(discriminate)). cbn [concat].
    now rewrite (map_app digit_value g).
Qed.

Lemma join_chars (base : N) (groups : list str) :
  digit_groups base groups ->
  Forall (fun c => c = UNDERSCORE \/ is_digit_of base c = true) (join groups).
Proof.
  intros [Hne Hg]. clear Hne.
  assert (Hgroup : forall g, forallb (is_digit_of base) g = true ->
            Forall (fun c => c = UNDERSCORE \/ is_digit_of base c = true) g).
  { intros g H. rewrite forallb_forall in H. apply Forall_forall. auto. }
  destruct Hg as [|g gs [_ Hg] Hgs]; [constructor|].
  cbn [join]. apply Forall_app. split; [auto|].
  induction Hgs as [|h hs [_ Hh] _ IH]; [constructor|].
  cbn [flat_map]. constructor; [now left|]. apply Forall_app. auto.
Qed.

Lemma join_nonempty (base : N) (groups : list str) :
  digit_groups base groups -> join groups <> [].
Proof.
  intros [Hne Hg]. destruct Hg as [|g gs [Hg _] _]; [now destruct Hne|].
  destruct g; [now destruct Hg|]. discriminate.
Qed.

Lemma skip_underscore_join (base : N) (u : str) (groups : list str) :
  base <= 36 -> digit_groups base groups ->
  u = [] \/ u = [UNDERSCORE] ->
  skip_underscore (u ++ join groups) = join groups.
Proof.
  intros Hb Hg [-> | ->]; [|reflexivity].
  unfold skip_underscore. cbn [app].
  replace (starts_with_underscore (join groups)) with false; [reflexivity|].
  destruct Hg as [Hne Hg]. destruct Hg as [|g gs [Hg1 Hg2] _]; [now destruct Hne|].
  destruct g as [|c g]; [now destruct Hg1|]. cbn.
  cbn [forallb] in Hg2. apply andb_true_iff in Hg2 as [Hc _].
  unfold is_digit_of in Hc. apply N.ltb_lt in Hc. symmetry.
  now apply (digit_value_digit base c Hb).
Qed.

Section WithRuntime.

Context (rt : Runtime).

(** The texts [parse_digits] takes: groups of digits, then white space. *)
Lemma parse_digits_inv (base : N) (sign : Z) (s : str) (v : Z) :
  parse_digits rt base sign s = Return v ->
  exists groups trail,
    s = join groups ++ trail /\ digit_groups base groups
    /\ forallb Py_ISSPACE trail = true
    /\ exceeds_limit rt base (length (concat groups)) = false
    /\ v = (sign * Z.of_N (numeral_value base (concat groups)))%Z.
Proof.
  unfold parse_digits.
  destruct (starts_with_underscore s) eqn:Eu; [discriminate|].
  destruct (scan_digits base false s) as [[ds rest]|] eqn:Es; [|discriminate].
  destruct ds as [|d ds]; [discriminate|].
  destruct (exceeds_limit rt base _) eqn:El; [discriminate|].
  destruct (skip_spaces rest) eqn:Er; [|discriminate]. intros [= <-].
  destruct (scan_digits_split _ _ _ _ _ Es) as (pre & Hsplit & Hpre).
  assert (Hscan : scan_digits base false pre = Some (d :: ds, [])).
  { clear - Es Hsplit. subst s. revert Es. generalize false as prev.
    generalize (d :: ds) as ds0. clear d ds.
    induction pre as [|c pre IH]; intros ds0 prev.
    - cbn [app]. destruct rest as [|x y]; [auto|].
      cbn [scan_digits].
      destruct (x =? UNDERSCORE); [destruct prev; [discriminate|]|].
      + intros H. exfalso. pose proof (scan_digits_split _ _ _ _ _ H)
          as (p & Hp & _).
        apply (f_equal (@length codepoint)) in Hp.
        rewrite length_app in Hp. cbn in Hp. lia.
      + destruct (digit_value x <? base).
        * destruct (scan_digits base false y) as [[ds1 r1]|] eqn:E1;
            [|discriminate].
          intros [= <- Hr]. exfalso.
          pose proof (scan_digits_split _ _ _ _ _ E1) as (p & Hp & _).
          rewrite Hr in Hp. apply (f_equal (@length codepoint)) in Hp.
          rewrite length_app in Hp. cbn in Hp. lia.
        * destruct prev; [discriminate|]. now intros [= <-].
    - cbn [app scan_digits]. destruct (c =? UNDERSCORE).
      + destruct prev; [discriminate|]. apply IH.
      + destruct (digit_value c <? base).
        * destruct (scan_digits base false (pre ++ rest)) as [[ds1 r1]|] eqn:E1;
            [|discriminate].
          intros [= <- ->]. now rewrite (IH _ _ E1).
        * destruct prev; [discriminate|]. intros [= <- Hr].
          apply (f_equal (@length codepoint)) in Hr.
          cbn in Hr. rewrite length_app in Hr. lia. }
  destruct (scan_digits_groups _ _ _ _ Hscan ltac:(discriminate))
    as (u & groups & Hu & Hg & Hcase & Hds).
  assert (u = []).
  { destruct Hcase as [-> |[-> _]]; [reflexivity|].
    rewrite Hsplit, Hu in Eu. cbn in Eu. discriminate. }
  subst u. cbn [app] in Hu. subst pre.
  exists groups, rest.
  split; [exact Hsplit|]. split; [exact Hg|].
  split; [now apply skip_spaces_all|]. split.
  - rewrite <- El, Hds, !length_map. reflexivity.
  - now rewrite Hds, accumulate_numeral.
Qed.

(** Groups of digits of the base, then white space, are taken. *)
Lemma parse_digits_groups (base : N) (sign : Z) (groups : list str)
    (trail : str) :
  base <= 36 -> digit_groups base groups ->
  forallb Py_ISSPACE trail = true ->
  exceeds_limit rt base (length (concat groups)) = false ->
  parse_digits rt base sign (join groups ++ trail)
  = Return (sign * Z.of_N (numeral_value base (concat groups)))%Z.
Proof.
  intros Hb Hg Ht Hl. unfold parse_digits.
  assert (Hrest : match trail with
                  | [] => True
                  | c :: _ => (c =? UNDERSCORE) = false
                              /\ is_digit_of base c = false
                  end).
  { destruct trail as [|c tr]; [exact I|].
    cbn [forallb] in Ht. apply andb_true_iff in Ht as [Hc _].
    unfold is_digit_of, digit_value, Py_ISSPACE, UNDERSCORE, between in *.
    split; ncases. }
  assert (Hu : starts_with_underscore (join groups ++ trail) = false).
  { destruct Hg as [Hne Hg].
    destruct Hg as [|g gs [Hg1 Hg2] _]; [now destruct Hne|].
    destruct g as [|c g]; [now destruct Hg1|]. cbn.
    cbn [forallb] in Hg2. apply andb_true_iff in Hg2 as [Hc _].
    unfold is_digit_of in Hc. apply N.ltb_lt in Hc.
    now apply (digit_value_digit base c Hb). }
  rewrite Hu, (scan_digits_join base false groups trail Hb Hg Hrest).
  destruct (map digit_value (concat groups)) as [|d ds] eqn:Em.
  - exfalso. destruct Hg as [Hne Hg].
    destruct Hg as [|g gs [Hg1 Hg2] _]; [now destruct Hne|].
    destruct g; [now destruct Hg1|]. discriminate Em.
  - rewrite <- Em, length_map, Hl, skip_spaces_of_spaces by exact Ht.
    now rewrite accumulate_numeral.
Qed.

Lemma int_prefixed_eq (base : N) (p : codepoint) (r : str) :
  prefix_letter base p = true ->
  int rt (48 :: p :: r) base
  = parse_digits rt base 1
      (skip_underscore (TransformDecimalAndSpaceToASCII rt r)).
Proof.
  intros Hp. unfold int.
  rewrite transform_prefixed by (eapply prefix_letter_ascii; eauto).
  rewrite PyLong_FromString_eq.
  rewrite skip_spaces_cons, skip_sign_cons, skip_prefix_cons by
    (reflexivity || exact Hp).
  reflexivity.
Qed.

End WithRuntime.

End ParserShape.

(** ** The literals after a prefix *)

Section LiteralFacts.

Import Unicode PyInt.

Local Open Scope N_scope.

Lemma map_flat_underscore (f : codepoint -> codepoint) (gs : list str) :
  f UNDERSCORE = UNDERSCORE ->
  map f (flat_map (fun h => UNDERSCORE :: h) gs)
  = flat_map (fun h => UNDERSCORE :: h) (map (map f) gs).
Proof.
  intros Hf. induction gs as [|h gs IH]; [reflexivity|].
  cbn [flat_map map]. rewrite map_app, IH. cbn [app map]. now rewrite Hf.
Qed.

Lemma map_join (f : codepoint -> codepoint) (groups : list str) :
  f UNDERSCORE = UNDERSCORE ->
  map f (join groups) = join (map (map f) groups).
Proof.
  intros Hf. destruct groups as [|g gs]; [reflexivity|].
  cbn [join map]. now rewrite map_app, map_flat_underscore.
Qed.

(** A text whose image is groups between underscores is itself groups
    between underscores, when only an underscore gives an underscore. *)
Lemma flat_underscore_inv (f : codepoint -> codepoint) (gs : list str)
    (r : str) :
  (forall c, f c = UNDERSCORE -> c = UNDERSCORE) ->
  map f r = flat_map (fun h => UNDERSCORE :: h) gs ->
  exists gs0,
    r = flat_map (fun h => UNDERSCORE :: h) gs0 /\ map (map f) gs0 = gs.
Proof.
  intros Hf. revert r. induction gs as [|h gs IH]; intros r H.
  - apply map_eq_nil in H. subst r. now exists [].
  - cbn [flat_map] in H. destruct r as [|c r]; [discriminate H|].
    cbn [map app] in H. injection H as Hc H.
    apply Hf in Hc. subst c.
    apply map_eq_app in H as (h0 & r1 & -> & Hh & Hr).
    destruct (IH r1 Hr) as (gs0 & -> & Hgs).
    exists (h0 :: gs0). split; [reflexivity|]. cbn [map]. now subst.
Qed.

Lemma join_inv (f : codepoint -> codepoint) (groups : list str) (r : str) :
  (forall c, f c = UNDERSCORE -> c = UNDERSCORE) ->
  groups <> [] -> map f r = join groups ->
  exists groups0, r = join groups0 /\ map (map f) groups0 = groups.
Proof.
  intros Hf Hne H. destruct groups as [|g gs]; [now destruct Hne|].
  cbn [join] in H. apply map_eq_app in H as (g0 & r1 & -> & Hg & Hr).
  destruct (flat_underscore_inv f gs r1 Hf Hr) as (gs0 & -> & Hgs).
  exists (g0 :: gs0). split; [reflexivity|]. cbn [map]. now subst.
Qed.

Section WithRuntime.

Context (rt : Runtime).

Hypothesis facts : UnicodeFacts rt.

Lemma read_as_underscore : read_as rt UNDERSCORE = UNDERSCORE.
Proof. reflexivity. Qed.

Lemma read_as_underscore_inv (c : codepoint) :
  read_as rt c = UNDERSCORE -> c = UNDERSCORE.
Proof.
  unfold read_as. destruct (N.ltb_spec c 127) as [Hc|Hc]; [auto|].
  destruct (todecimal rt c) as [d|] eqn:Ed.
  - apply (todecimal_lt_10 rt facts) in Ed. unfold UNDERSCORE. lia.
  - unfold UNDERSCORE. lia.
Qed.

(** What [int] reads as a digit of the base: the transformation gives
    its ASCII digit, which is a digit of the base. *)
Lemma reads_as_digit_step (base : N) (c : codepoint) (u : str) :
  base <= 36 -> reads_as_digit rt base c = true ->
  is_digit_of base (read_as rt c) = true
  /\ TransformDecimalAndSpaceToASCII rt (c :: u)
     = read_as rt c :: TransformDecimalAndSpaceToASCII rt u.
Proof.
  intros Hb. unfold reads_as_digit, read_as.
  cbn [TransformDecimalAndSpaceToASCII].
  destruct (N.ltb_spec c 127) as [Hc|Hc]; [auto|].
  destruct (todecimal rt c) as [d|] eqn:Ed; [|discriminate].
  intros Hd. pose proof (todecimal_lt_10 rt facts c d Ed) as H10.
  assert (Hs : isspace rt c = false).
  { unfold todecimal, isspace in *.
    destruct (N.ltb_spec c 256) as [Hlt|Hge].
    - rewrite latin1_todecimal_high in Ed by exact Hc. discriminate Ed.
    - eapply decimal_not_space; eauto. }
  rewrite Hs. split; [|reflexivity].
  unfold is_digit_of. now rewrite digit_value_ascii_digit.
Qed.

(** Conversely, a character whose reading is a digit of the base is read
    as one. *)
Lemma read_as_digit_inv (base : N) (c : codepoint) :
  base <= 36 -> is_digit_of base (read_as rt c) = true ->
  reads_as_digit rt base c = true.
Proof.
  intros Hb. unfold reads_as_digit, read_as.
  destruct (N.ltb_spec c 127) as [Hc|Hc]; [auto|].
  destruct (todecimal rt c) as [d|] eqn:Ed.
  - pose proof (todecimal_lt_10 rt facts c d Ed) as H10.
    unfold is_digit_of. now rewrite digit_value_ascii_digit.
  - unfold is_digit_of. intros H. apply N.ltb_lt in H.
    destruct (digit_value_digit base c Hb H) as (Hlt & _). lia.
Qed.

Lemma transform_read (base : N) (r : str) :
  base <= 36 ->
  Forall (fun c => c = UNDERSCORE \/ reads_as_digit rt base c = true) r ->
  TransformDecimalAndSpaceToASCII rt r = map (read_as rt) r.
Proof.
  intros Hb. induction 1 as [|c r [-> |Hc] _ IH]; [reflexivity| |].
  - cbn [map]. rewrite <- IH. reflexivity.
  - destruct (reads_as_digit_step base c r Hb Hc) as [_ ->].
    cbn [map]. now rewrite IH.
Qed.

Lemma read_groups_chars (base : N) (groups : list str) :
  read_groups rt base groups ->
  Forall (fun c => c = UNDERSCORE \/ reads_as_digit rt base c = true)
    (join groups).
Proof.
  intros [_ Hg].
  assert (Hgroup : forall g, forallb (reads_as_digit rt base) g = true ->
            Forall (fun c => c = UNDERSCORE \/ reads_as_digit rt base c = true)
              g).
  { intros g H. rewrite forallb_forall in H. apply Forall_forall. auto. }
  destruct Hg as [|g gs [_ Hg] Hgs]; [constructor|].
  cbn [join]. apply Forall_app. split; [auto|].
  induction Hgs as [|h hs [_ Hh] _ IH]; [constructor|].
  cbn [flat_map]. constructor; [now left|]. apply Forall_app. auto.
Qed.

(** Groups of what [int] reads as digits are read as groups of digits. *)
Lemma read_groups_digits (base : N) (groups : list str) :
  base <= 36 -> read_groups rt base groups ->
  digit_groups base (map (map (read_as rt)) groups).
Proof.
  intros Hb [Hne Hg]. split.
  - destruct groups; [now destruct Hne|discriminate].
  - apply Forall_map. eapply Forall_impl; [|exact Hg].
    intros g [Hg1 Hg2]. split.
    + destruct g; [now destruct Hg1|discriminate].
    + rewrite forallb_forall in *. intros x Hx.
      apply in_map_iff in Hx as (c & <- & Hc).
      now apply (reads_as_digit_step base c [] Hb), Hg2.
Qed.

(** And groups of digits are the reading of groups of what is read as
    digits only. *)
Lemma digit_groups_read (base : N) (groups0 : list str) :
  base <= 36 -> digit_groups base (map (map (read_as rt)) groups0) ->
  read_groups rt base groups0.
Proof.
  intros Hb [Hne Hg]. split.
  - destruct groups0; [now destruct Hne|discriminate].
  - apply Forall_map in Hg. eapply Forall_impl; [|exact Hg].
    intros g [Hg1 Hg2]. split.
    + destruct g; [now destruct Hg1|discriminate].
    + rewrite forallb_forall in *. intros c Hc.
      apply (read_as_digit_inv base c Hb), Hg2, in_map, Hc.
Qed.

(** The literals after a prefix that the parse takes, and their value. *)
Lemma literal_returns (s : str) (base : N) (p : codepoint) (r u : str)
    (groups : list str) :
  (base = 16 /\ p = 120) \/ (base = 2 /\ p = 98) ->
  token rt s = 48 :: p :: r ->
  u = [] \/ u = [UNDERSCORE] -> read_groups rt base groups ->
  r = u ++ join groups ->
  str_to_int rt s
  = ([], Return (Z.of_N (read_value rt base (concat groups)))).
Proof.
  intros Hbase Ht Hu Hg Hr.
  assert (Hb : base <= 36) by (destruct Hbase as [[-> _]|[-> _]]; lia).
  assert (Hp : prefix_letter base p = true)
    by (destruct Hbase as [[-> ->]|[-> ->]]; reflexivity).
  assert (Hbin : is_binary_base base = true)
    by (destruct Hbase as [[-> _]|[-> _]]; reflexivity).
  pose proof (read_groups_digits base groups Hb Hg) as Hd.
  assert (Hne : r <> []).
  { rewrite Hr. intros E. apply app_eq_nil in E as [_ E].
    apply (f_equal (map (read_as rt))) in E.
    rewrite map_join in E by reflexivity.
    now apply (join_nonempty base _ Hd). }
  destruct (str_to_int_prefixed rt s base p r Hbase Ht Hne) as [fmt ->].
  assert (Hall : Forall (fun c => c = UNDERSCORE
                                  \/ reads_as_digit rt base c = true) r).
  { rewrite Hr. apply Forall_app. split; [|now apply read_groups_chars].
    destruct Hu as [-> | ->]; repeat constructor. }
  rewrite int_prefixed_eq, (transform_read base) by assumption.
  rewrite Hr, map_app, map_join by reflexivity.
  replace (map (read_as rt) u) with u by (destruct Hu as [-> | ->]; reflexivity).
  rewrite (skip_underscore_join base) by assumption.
  rewrite <- (app_nil_r (join _)).
  rewrite parse_digits_groups; try assumption; try reflexivity.
  - unfold read_value. now rewrite Z.mul_1_l, concat_map.
  - unfold exceeds_limit. now rewrite Hbin.
Qed.

(** The other texts after a prefix make the parse fail. *)
Lemma literal_fails (s : str) (base : N) (p : codepoint) (r : str) :
  (base = 16 /\ p = 120) \/ (base = 2 /\ p = 98) ->
  token rt s = 48 :: p :: r -> r <> [] ->
  ~ grouped rt base r -> fails (str_to_int rt s).
Proof.
  intros Hbase Ht Hne Hno.
  assert (Hb : base <= 36) by (destruct Hbase as [[-> _]|[-> _]]; lia).
  assert (Hp : prefix_letter base p = true)
    by (destruct Hbase as [[-> ->]|[-> ->]]; reflexivity).
  destruct (str_to_int_prefixed rt s base p r Hbase Ht Hne) as [fmt ->].
  destruct (int rt (48 :: p :: r) base) as [v|e] eqn:E;
    [exfalso|unfold fails; eauto].
  apply Hno.
  assert (Hall : Forall (fun c => c = UNDERSCORE
                                  \/ reads_as_digit rt base c = true) r).
  { eapply int_prefixed_inv; try eassumption.
    eapply token_last_not_space; eauto. }
  rewrite int_prefixed_eq, (transform_read base) in E by assumption.
  destruct (parse_digits_inv rt _ _ _ _ E)
    as (groups & trail & Hs & Hg & Htr & _).
  destruct (skip_underscore_cases (map (read_as rt) r)) as (u & Hm & Hu).
  assert (trail = []).
  { destruct trail as [|x trail']; [reflexivity|exfalso].
    cbn [forallb] in Htr. apply andb_true_iff in Htr as [Hx _].
    assert (Hin : In x (map (read_as rt) r)).
    { rewrite Hm, Hs. apply in_or_app. right. apply in_or_app. right.
      now left. }
    apply in_map_iff in Hin as (c & <- & Hc).
    rewrite Forall_forall in Hall. destruct (Hall c Hc) as [-> |Hd].
    - discriminate Hx.
    - apply (reads_as_digit_step base c [] Hb) in Hd as [Hd _].
      unfold is_digit_of in Hd. apply N.ltb_lt in Hd.
      destruct (digit_value_digit base _ Hb Hd) as (_ & _ & Hsp & _).
      congruence. }
  subst trail. rewrite app_nil_r in Hs. rewrite Hs in Hm.
  apply map_eq_app in Hm as (u0 & r1 & Hr & Hu0 & Hr1).
  destruct (join_inv (read_as rt) groups r1 read_as_underscore_inv
              (proj1 Hg) Hr1) as (groups0 & -> & <-).
  exists u0, groups0. split; [|split; [now apply digit_groups_read|exact Hr]].
  destruct Hu as [-> | ->].
  - apply map_eq_nil in Hu0. auto.
  - destruct u0 as [|c [|c' u0']]; try discriminate Hu0.
    injection Hu0 as Hc. apply read_as_underscore_inv in Hc. subst c. auto.
Qed.

(** The grammar, as a test and as groups. *)
Lemma scan_group (base : N) (sep : bool) (g rest : str) :
  base <= 36 -> g <> [] -> forallb (reads_as_digit rt base) g = true ->
  digits_and_underscores (reads_as_digit rt base) sep (g ++ rest)
  = digits_and_underscores (reads_as_digit rt base) false rest.
Proof.
  intros Hb Hne Hg. revert sep.
  induction g as [|c g IH]; intros sep; [now destruct Hne|].
  cbn [forallb] in Hg. apply andb_true_iff in Hg as [Hc Hg].
  cbn [app digits_and_underscores].
  replace (c =? UNDERSCORE) with false.
  2:{ symmetry. apply N.eqb_neq. intros ->.
      unfold reads_as_digit, is_digit_of in Hc. cbn in Hc.
      apply N.ltb_lt in Hc. lia. }
  rewrite Hc. cbn [andb].
  destruct g as [|c' g']; [reflexivity|].
  apply IH; [discriminate|exact Hg].
Qed.

Lemma scan_groups (base : N) (sep : bool) (groups : list str) :
  base <= 36 -> read_groups rt base groups ->
  digits_and_underscores (reads_as_digit rt base) sep (join groups) = true.
Proof.
  intros Hb [Hne Hg]. revert sep Hne.
  induction Hg as [|g gs [Hg1 Hg2] Hgs IH]; intros sep Hne;
    [now destruct Hne|].
  destruct gs as [|h gs'].
  - cbn [join flat_map]. rewrite scan_group by assumption. reflexivity.
  - rewrite join_cons by discriminate.
    rewrite scan_group by assumption.
    cbn [digits_and_underscores]. rewrite N.eqb_refl. cbn [negb andb].
    apply IH. discriminate.
Qed.

Lemma grouped_literal_body (base : N) (r : str) :
  base <= 36 -> grouped rt base r -> literal_body rt base r = true.
Proof.
  intros Hb (u & groups & Hu & Hg & ->).
  pose proof (scan_groups base true groups Hb Hg) as Hs.
  destruct Hu as [-> | ->].
  - cbn [app]. unfold literal_body.
    destruct (join groups) as [|c r'] eqn:E; [discriminate Hs|].
    destruct (N.eqb_spec c UNDERSCORE) as [->|_]; [|exact Hs].
    cbn [digits_and_underscores] in Hs. rewrite N.eqb_refl in Hs.
    discriminate Hs.
  - cbn [app literal_body]. rewrite N.eqb_refl. exact Hs.
Qed.

Lemma scan_inv (base : N) (s : str) (sep : bool) :
  digits_and_underscores (reads_as_digit rt base) sep s = true ->
  exists g gs,
    s = g ++ flat_map (fun h => UNDERSCORE :: h) gs
    /\ forallb (reads_as_digit rt base) g = true
    /\ Forall (fun h => h <> []
                        /\ forallb (reads_as_digit rt base) h = true) gs
    /\ (sep = true -> g <> [])
    /\ without_underscores s = g ++ concat gs.
Proof.
  revert sep. induction s as [|c s IH]; intros sep.
  - destruct sep; [discriminate|]. intros _. exists [], [].
    repeat split; [constructor|discriminate].
  - cbn [digits_and_underscores]. unfold without_underscores.
    cbn [filter]. fold (without_underscores s).
    destruct (N.eqb_spec c UNDERSCORE) as [->|Hc]; cbn [negb].
    + destruct sep; [discriminate|]. cbn [negb andb]. intros H.
      destruct (IH true H) as (g & gs & -> & Hg & Hgs & Hne & Hw).
      exists [], (g :: gs). split; [reflexivity|]. split; [reflexivity|].
      split; [constructor; auto|]. split; [discriminate|exact Hw].
    + rewrite andb_true_iff. intros [Hd H].
      destruct (IH false H) as (g & gs & -> & Hg & Hgs & _ & Hw).
      exists (c :: g), gs. split; [reflexivity|].
      split; [cbn [forallb]; now rewrite Hd|].
      split; [exact Hgs|]. split; [discriminate|].
      cbn [app]. now rewrite Hw.
Qed.

Lemma literal_body_grouped (base : N) (r : str) :
  literal_body rt base r = true ->
  exists u groups,
    (u = [] \/ u = [UNDERSCORE]) /\ read_groups rt base groups
    /\ r = u ++ join groups
    /\ without_underscores r = concat groups.
Proof.
  unfold literal_body. destruct r as [|c r']; [discriminate|].
  destruct (N.eqb_spec c UNDERSCORE) as [->|Hc]; intros H;
    destruct (scan_inv base _ true H) as (g & gs & Hs & Hg & Hgs & Hne & Hw).
  - exists [UNDERSCORE], (g :: gs). split; [now right|].
    split; [split; [discriminate|constructor; auto]|].
    split; [cbn [app join]; now rewrite Hs|].
    unfold without_underscores in *. cbn [filter].
    rewrite N.eqb_refl. cbn [negb concat]. exact Hw.
  - exists [], (g :: gs). split; [now left|].
    split; [split; [discriminate|constructor; auto]|].
    split; [exact Hs|exact Hw].
Qed.

(** The parse of a token with a prefix, by the grammar of [int]. *)
Lemma literal_parse (s : str) (base : N) (p : codepoint) (r : str) :
  (base = 16 /\ p = 120) \/ (base = 2 /\ p = 98) ->
  token rt s = 48 :: p :: r -> r <> [] ->
  (forallb (is_digit_of base) r = true ->
   str_to_int rt s = ([], Return (Z.of_N (numeral_value base r))))
  /\ (literal_body rt base r = true ->
      str_to_int rt s
      = ([], Return (Z.of_N (read_value rt base (without_underscores r)))))
  /\ (literal_body rt base r = false -> fails (str_to_int rt s)).
Proof.
  intros Hbase Ht Hne.
  assert (Hb : base <= 36) by (destruct Hbase as [[-> _]|[-> _]]; lia).
  split; [|split].
  - intros Hd.
    destruct (str_to_int_prefixed rt s base p r Hbase Ht Hne) as [fmt ->].
    rewrite (int_prefixed_digits rt base p r); auto;
      destruct Hbase as [[-> ->]|[-> ->]]; reflexivity.
  - intros H.
    destruct (literal_body_grouped base r H) as (u & groups & Hu & Hg & Hr & ->).
    now apply (literal_returns s base p r u groups).
  - intros H. apply (literal_fails s base p r Hbase Ht Hne).
    intros Hg. apply (grouped_literal_body base r Hb) in Hg. congruence.
Qed.

End WithRuntime.

End LiteralFacts.

(** * The properties of the specification *)

Section Encoder.

Local Open Scope Z_scope.

(** C1. For every non-negative integer [n], the encode step gives a
    sequence of bytes; read as a little-endian number it gives [n] back,
    and no shorter sequence of bytes reads as [n]. *)
Theorem decode_encode (n : Z) :
  0 <= n ->
  exists bs, encode n = Return bs /\ decode bs = n
    /\ forall bs', bs' <> [] -> decode bs' = n -> (length bs <= length bs')%nat.
Proof.
  intros Hn. pose proof (encode_eq n Hn) as He.
  eexists. split; [exact He|]. split.
  - apply from_bytes_le_bytes. split; [exact Hn|].
    pose proof (byte_count_max n). rewrite Z2Nat.id by lia.
    now apply byte_count_fits.
  - intros bs' Hne Hd. eapply encode_shortest; eauto.
Qed.

Lemma decode_encode_witness :
  exists bs, encode 258 = Return bs /\ decode bs = 258
    /\ forall bs', bs' <> [] -> decode bs' = 258 -> (length bs <= length bs')%nat.
Proof. apply (decode_encode 258). lia. Defined.

(** C2. For every non-negative integer [n], the encode step gives exactly
    max(1, ceil(bit_length(n) / 8)) bytes, and the byte at index [i] is the
    digit of weight 256^i of [n], the least significant one first;
    encode(0) is the single byte 0x00, encode(255) has one byte and
    encode(256) has two. *)
Theorem encode_byte_count :
  (forall n, 0 <= n ->
     exists bs, encode n = Return bs
       /\ Z.of_nat (length bs) = Z.max 1 (ceil_div (PyInt.bit_length n) 8)
       /\ forall i, (i < length bs)%nat ->
            nth i bs x00 = PyInt.byte_of_Z ((n / 256 ^ Z.of_nat i) mod 256))
  /\ encode 0 = Return [x00]
  /\ encode 255 = Return [xff]
  /\ encode 256 = Return [x00; x01].
Proof.
  split; [|repeat split; reflexivity].
  intros n Hn. pose proof (encode_eq n Hn) as He.
  eexists. split; [exact He|]. rewrite length_le_bytes.
  pose proof (byte_count_max n) as Hm. split.
  - rewrite Z2Nat.id by lia. exact Hm.
  - intros i Hi. now apply nth_le_bytes.
Qed.

Lemma encode_byte_count_witness :
  exists bs, encode 65536 = Return bs
    /\ Z.of_nat (length bs) = Z.max 1 (ceil_div (PyInt.bit_length 65536) 8)
    /\ forall i, (i < length bs)%nat ->
         nth i bs x00 = PyInt.byte_of_Z ((65536 / 256 ^ Z.of_nat i) mod 256).
Proof. apply (proj1 encode_byte_count 65536). lia. Defined.

End Encoder.

Section Parser.

Local Open Scope Z_scope.

(** The examples of the specification. *)
Example parse_examples (rt : Runtime) :
  str_to_int rt (lit "123") = ([], Return 123)
  /\ str_to_int rt (lit "0x1A") = ([], Return 26)
  /\ str_to_int rt (lit "0b101") = ([], Return 5)
  /\ fails (str_to_int rt (lit "0x"))
  /\ fails (str_to_int rt (lit "0xZZ"))
  /\ fails (str_to_int rt (lit "")).
Proof.
  repeat split; try reflexivity; unfold fails; eexists; eexists; reflexivity.
Qed.

Lemma within_limit (rt : Runtime) (digits : nat) :
  int_max_str_digits rt = 0%N
  \/ (N.of_nat digits <= int_max_str_digits rt)%N ->
  PyInt.exceeds_limit rt 10 digits = false.
Proof.
  intros H. unfold PyInt.exceeds_limit.
  destruct H as [->|H].
  - now rewrite andb_false_r.
  - apply N.ltb_ge in H. rewrite H. apply andb_false_r.
Qed.

(** C4, amended. For every token of length at least 3 that starts with 0x
    (resp. 0b), the parse returns the base-16 (resp. base-2) value of the
    remainder when every remaining character is a hexadecimal digit
    (resp. 0 or 1). More generally, when the remainder follows the
    grammar of [int] (at most one underscore, then characters that [int]
    reads as digits of the base, its ASCII digits or the decimal digits
    of another script whose value is below the base, with single
    underscores between two digits), the parse returns the value of the
    remainder without its underscores; and it fails on every other
    remainder. *)
Theorem prefixed_literal_parse (rt : Runtime) (s r : str) :
  UnicodeFacts rt -> r <> [] ->
  (token rt s = lit "0x" ++ r ->
     (forallb (is_digit_of 16) r = true ->
      str_to_int rt s = ([], Return (Z.of_N (numeral_value 16 r))))
     /\ (literal_body rt 16 r = true ->
         str_to_int rt s
         = ([], Return (Z.of_N (read_value rt 16 (without_underscores r)))))
     /\ (literal_body rt 16 r = false -> fails (str_to_int rt s)))
  /\ (token rt s = lit "0b" ++ r ->
     (forallb (is_digit_of 2) r = true ->
      str_to_int rt s = ([], Return (Z.of_N (numeral_value 2 r))))
     /\ (literal_body rt 2 r = true ->
         str_to_int rt s
         = ([], Return (Z.of_N (read_value rt 2 (without_underscores r)))))
     /\ (literal_body rt 2 r = false -> fails (str_to_int rt s))).
Proof.
  intros facts Hr. split; intros Ht.
  - apply (literal_parse rt facts s 16 120 r); auto.
  - apply (literal_parse rt facts s 2 98 r); auto.
Qed.

Lemma prefixed_literal_parse_witness :
  str_to_int excerpt (lit " 0X1f ")
  = ([], Return (Z.of_N (numeral_value 16 (lit "1f"))))
  /\ str_to_int excerpt (lit "0x_dead_BEEF")
     = ([], Return (Z.of_N (read_value excerpt 16
                              (without_underscores (lit "_dead_beef")))))
  /\ fails (str_to_int excerpt (lit "0x1g"))
  /\ fails (str_to_int excerpt (lit "0x1__a"))
  /\ fails (str_to_int excerpt (lit "0x_"))
  /\ str_to_int excerpt (lit "0b101")
     = ([], Return (Z.of_N (numeral_value 2 (lit "101"))))
  /\ str_to_int excerpt (lit "0b1_0")
     = ([], Return (Z.of_N (read_value excerpt 2
                              (without_underscores (lit "1_0")))))
  /\ fails (str_to_int excerpt (lit "0b12"))
  /\ fails (str_to_int excerpt (lit "0b1_")).
Proof.
  repeat apply conj.
  - apply (proj1 (prefixed_literal_parse excerpt (lit " 0X1f ") (lit "1f")
                    excerpt_facts ltac:(discriminate))); reflexivity.
  - apply (proj1 (prefixed_literal_parse excerpt (lit "0x_dead_BEEF")
                    (lit "_dead_beef") excerpt_facts ltac:(discriminate)));
      reflexivity.
  - apply (proj1 (prefixed_literal_parse excerpt (lit "0x1g") (lit "1g")
                    excerpt_facts ltac:(discriminate))); reflexivity.
  - apply (proj1 (prefixed_literal_parse excerpt (lit "0x1__a") (lit "1__a")
                    excerpt_facts ltac:(discriminate))); reflexivity.
  - apply (proj1 (prefixed_literal_parse excerpt (lit "0x_") (lit "_")
                    excerpt_facts ltac:(discriminate))); reflexivity.
  - apply (proj2 (prefixed_literal_parse excerpt (lit "0b101") (lit "101")
                    excerpt_facts ltac:(discriminate))); reflexivity.
  - apply (proj2 (prefixed_literal_parse excerpt (lit "0b1_0") (lit "1_0")
                    excerpt_facts ltac:(discriminate))); reflexivity.
  - apply (proj2 (prefixed_literal_parse excerpt (lit "0b12") (lit "12")
                    excerpt_facts ltac:(discriminate))); reflexivity.
  - apply (proj2 (prefixed_literal_parse excerpt (lit "0b1_") (lit "1_")
                    excerpt_facts ltac:(discriminate))); reflexivity.
Defined.

(** C4 as it is stated does not hold: the remainder of the token 0x1_a has
    a character that is no hexadecimal digit, and the parse returns 26. *)
Lemma underscore_is_accepted :
  token excerpt (lit "0x1_a") = lit "0x" ++ lit "1_a"
  /\ forallb (is_digit_of 16) (lit "1_a") = false
  /\ str_to_int excerpt (lit "0x1_a") = ([], Return 26)
  /\ ~ fails (str_to_int excerpt (lit "0x1_a")).
Proof.
  repeat split. intros (fmt & arg & H). discriminate H.
Qed.

(** C5, amended. The parse returns the base-10 value of the token when the
    token is not empty, all its characters are ASCII decimal digits and
    their number is within the limit of the interpreter on decimal
    conversions, if one is set; and it fails on every token that is not
    made of digit characters only ([str.isdigit]) and is no literal in
    the grammar of [int]: 0x or 0b, then at most one underscore, then
    digits of the base as [int] reads them with single underscores
    between two digits. *)
Theorem decimal_and_unrecognized (rt : Runtime) (s : str) :
  UnicodeFacts rt ->
  (token rt s <> [] -> forallb is_ascii_digit (token rt s) = true ->
   int_max_str_digits rt = 0%N
   \/ (N.of_nat (length (token rt s)) <= int_max_str_digits rt)%N ->
   str_to_int rt s = ([], Return (Z.of_N (numeral_value 10 (token rt s)))))
  /\ (PyStr.isdigit rt (token rt s) = false ->
      prefixed_literal rt 16 120 (token rt s) = false ->
      prefixed_literal rt 2 98 (token rt s) = false ->
      fails (str_to_int rt s)).
Proof.
  intros facts. split.
  - intros Hne Hd Hlim. rewrite str_to_int_eq. cbv zeta.
    assert (Hi : PyStr.isdigit rt (token rt s) = true).
    { unfold PyStr.isdigit. destruct (token rt s) as [|c t]; [congruence|].
      rewrite forallb_forall in *. intros x Hx. apply Hd in Hx.
      apply is_ascii_digit_decimal in Hx as [_ Hx].
      unfold Unicode.isdigit. unfold Unicode.latin1_isdigit in Hx.
      destruct (N.ltb_spec x 256) as [_|Hge]; [exact Hx|].
      unfold Unicode.between in Hx. exfalso. ncases. }
    rewrite Hi, int_decimal_digits; auto using within_limit.
  - intros Hd H16 H2.
    destruct (Z.ltb_spec (PyStr.len (token rt s)) 3) as [Hl|Hl];
      [now apply short_token_fails|].
    assert (Hprefixed : forall (base : N) (p : codepoint) (r : str),
              (base = 16%N /\ p = 120%N) \/ (base = 2%N /\ p = 98%N) ->
              token rt s = 48%N :: p :: r ->
              prefixed_literal rt base p (token rt s) = false ->
              fails (str_to_int rt s)).
    { intros base p r Hb Ht Hp. rewrite Ht in Hp, Hl.
      assert (Hr : r <> []).
      { intros ->. unfold PyStr.len in Hl. cbn in Hl. lia. }
      apply (literal_parse rt facts s base p r); auto.
      unfold prefixed_literal in Hp. now rewrite !N.eqb_refl in Hp. }
    destruct (PyStr.startswith (token rt s) (lit "0x")) eqn:Ex.
    { apply startswith_two in Ex as [r Hr].
      apply (Hprefixed 16%N 120%N r); auto. }
    destruct (PyStr.startswith (token rt s) (lit "0b")) eqn:Eb.
    { apply startswith_two in Eb as [r Hr].
      apply (Hprefixed 2%N 98%N r); auto. }
    rewrite str_to_int_eq. cbv zeta. rewrite Hd, Ex, Eb.
    apply Z.ltb_ge in Hl. rewrite Hl. unfold fails. eauto.
Qed.

Lemma decimal_and_unrecognized_witness :
  str_to_int excerpt (lit " 042")
  = ([], Return (Z.of_N (numeral_value 10 (token excerpt (lit " 042")))))
  /\ fails (str_to_int excerpt (lit "12a4"))
  /\ fails (str_to_int excerpt (lit "0x_"))
  /\ fails (str_to_int excerpt (lit "0x1__a")).
Proof.
  repeat apply conj.
  - apply (proj1 (decimal_and_unrecognized excerpt (lit " 042") excerpt_facts)).
    + discriminate.
    + reflexivity.
    + right. vm_compute. discriminate.
  - apply (proj2 (decimal_and_unrecognized excerpt (lit "12a4") excerpt_facts));
      reflexivity.
  - apply (proj2 (decimal_and_unrecognized excerpt (lit "0x_") excerpt_facts));
      reflexivity.
  - apply (proj2 (decimal_and_unrecognized excerpt (lit "0x1__a")
                    excerpt_facts)); reflexivity.
Defined.

(** C5 as it is stated does not hold. The Arabic-Indic digit three is no
    numeral of the specification, and the parse returns 3. A token of
    4301 digits 1 is made of ASCII decimal digits, and under the limit of
    4300 digits the parse returns no value: it raises ValueError. *)
Lemma decimal_rule_counterexamples :
  (spec_numeral (token excerpt [1635%N]) = false
   /\ str_to_int excerpt [1635%N] = ([], Return 3)
   /\ ~ fails (str_to_int excerpt [1635%N]))
  /\ (spec_numeral (token excerpt (repeat 49%N 4301)) = true
      /\ forallb is_ascii_digit (token excerpt (repeat 49%N 4301)) = true
      /\ str_to_int excerpt (repeat 49%N 4301) = ([], Raise ValueError)).
Proof.
  split.
  - repeat split. intros (fmt & arg & H). discriminate H.
  - split; [|split]; vm_compute; reflexivity.
Qed.

(** C6, at the input that breaks it. The token made of the superscript
    two is not made of decimal digits, of ASCII or of the database, and is
    shorter than three characters; the parse does not fail on it, it
    raises ValueError. *)
Theorem superscript_token_raises (rt : Runtime) :
  isdecimal rt (token rt [178%N]) = false
  /\ forallb is_ascii_digit (token rt [178%N]) = false
  /\ PyStr.len (token rt [178%N]) < 3
  /\ str_to_int rt [178%N] = ([], Raise ValueError)
  /\ ~ fails (str_to_int rt [178%N]).
Proof.
  repeat split. intros (fmt & arg & H). discriminate H.
Qed.

(** C7, at the input that breaks it. On the superscript two the parse
    returns nothing, neither the sentinel nor an integer. *)
Theorem superscript_parse_returns_nothing (rt : Runtime) :
  outcome (str_to_int rt [178%N]) = Raise ValueError
  /\ forall w v, str_to_int rt [178%N] <> (w, Return v).
Proof.
  split; [reflexivity|]. intros w v H. discriminate H.
Qed.

(** C9. The parse of a string is the parse of its lowered, trimmed form;
    in particular the parses of 0X1a and of 0x1A are the same. *)
Theorem str_to_int_of_token (rt : Runtime) (s : str) :
  UnicodeFacts rt ->
  str_to_int rt s = str_to_int rt (PyStr.lower rt (PyStr.strip rt s))
  /\ str_to_int rt (lit "0X1a") = str_to_int rt (lit "0x1A").
Proof.
  intros facts. split; [|reflexivity].
  fold (token rt s). rewrite !str_to_int_eq. cbv zeta.
  now rewrite token_idempotent.
Qed.

Lemma str_to_int_of_token_witness :
  str_to_int excerpt (lit "  0B11 ")
  = str_to_int excerpt (PyStr.lower excerpt (PyStr.strip excerpt (lit "  0B11 ")))
  /\ str_to_int excerpt (lit "0X1a") = str_to_int excerpt (lit "0x1A").
Proof. apply (str_to_int_of_token excerpt (lit "  0B11 ")). exact excerpt_facts. Defined.

End Parser.

Section Loop.

Local Open Scope Z_scope.

(** A line whose parse fails is logged and skipped: nothing is written for
    it and the loop goes on to the next prompt. *)
Lemma failed_line_is_skipped (rt : Runtime) (line : str) (rest : list keyboard) :
  PyStr.eqb (token rt line) (lit "x") = false ->
  fails (str_to_int rt (token rt line)) ->
  exists fmt arg,
    while_true rt (str_to_int rt) (Line line :: rest)
    = let (w, r) := while_true rt (str_to_int rt) rest in
      (Prompt PROMPT :: Log WARNING fmt (Some arg) :: w, r).
Proof.
  intros Hx (fmt & arg & Hf). exists fmt, arg.
  cbn [while_true]. rewrite iteration_line, Hx, Hf. cbn.
  now destruct (while_true rt (str_to_int rt) rest).
Qed.

(** C3, at the input that breaks it. The line made of the superscript two
    is no numeral of the specification; the parse raises ValueError on it,
    nothing is logged for it, and the function ends with that exception
    after the release of the port, whatever lines were to follow. *)
Theorem superscript_line_crashes (rt : Runtime) (rest : list keyboard) :
  spec_numeral (token rt [178%N]) = false
  /\ str_to_int rt (token rt [178%N]) = ([], Raise ValueError)
  /\ loop_send_uart_input rt true (Line [178%N] :: rest)
     = ([Prompt PROMPT; SerialClose; Log INFO "Serial port closed" None],
        Raise ValueError).
Proof. repeat split. Qed.

(** C8. For every line that, once trimmed, is x or X, the turn of the loop
    ends in a break whatever the parse step is, with the prompt as its
    only effect: the loop ends there, the function releases the port and
    returns, and the lines that follow are not read. *)
Theorem exit_token_breaks (rt : Runtime) (parse : str -> M Z) (line : str)
    (rest : list keyboard) :
  PyStr.strip rt line = lit "x" \/ PyStr.strip rt line = lit "X" ->
  iteration rt parse (Some (Line line)) = ([Prompt PROMPT], Return Break)
  /\ while_true rt parse (Line line :: rest) = ([Prompt PROMPT], Return tt)
  /\ loop_send_uart_input_with rt parse true (Line line :: rest)
     = ([Prompt PROMPT; SerialClose; Log INFO "Serial port closed" None],
        Return tt).
Proof.
  intros H.
  assert (Hit : iteration rt parse (Some (Line line))
                = ([Prompt PROMPT], Return Break)).
  { rewrite iteration_line. unfold token.
    destruct H as [-> | ->]; reflexivity. }
  assert (Hw : while_true rt parse (Line line :: rest)
               = ([Prompt PROMPT], Return tt)).
  { cbn [while_true]. rewrite Hit. reflexivity. }
  repeat split; [exact Hit|exact Hw|].
  unfold loop_send_uart_input_with. rewrite Hw. reflexivity.
Qed.

Lemma exit_token_breaks_witness :
  iteration excerpt (str_to_int excerpt) (Some (Line (lit " X ")))
  = ([Prompt PROMPT], Return Break)
  /\ while_true excerpt (str_to_int excerpt) [Line (lit " X "); Line (lit "7")]
     = ([Prompt PROMPT], Return tt)
  /\ loop_send_uart_input_with excerpt (str_to_int excerpt) true
       [Line (lit " X "); Line (lit "7")]
     = ([Prompt PROMPT; SerialClose; Log INFO "Serial port closed" None],
        Return tt).
Proof.
  apply (exit_token_breaks excerpt (str_to_int excerpt) (lit " X ")
           [Line (lit "7")]).
  right. reflexivity.
Defined.

(** Had the parse step been run on the exit token, it would have logged a
    warning. *)
Example parse_of_exit_token (rt : Runtime) :
  str_to_int rt (lit "x")
  = ([Log WARNING "Value missing from string: %s" (Some (lit "x"))],
     Return (-1)).
Proof. reflexivity. Qed.

(** C10. A parse that returns gives the sentinel -1 after a warning, or a
    value that is not negative and no warning; the conversion refuses the
    negative values only; a turn of the loop that writes bytes writes the
    bytes of a value that is not negative; and the function never ends
    with the OverflowError of the conversion. *)
Theorem conversion_gets_no_negative (rt : Runtime) :
  (forall s w v, str_to_int rt s = (w, Return v) ->
     (v = -1 /\ w <> []) \/ (0 <= v /\ w = []))
  /\ (forall v, encode v = Raise OverflowError <-> v < 0)
  /\ (forall line w c bs,
        iteration rt (str_to_int rt) (Some (Line line)) = (w, c) ->
        In (SerialWrite bs) w ->
        exists v, 0 <= v /\ encode v = Return bs)
  /\ (forall opened stdin,
        outcome (loop_send_uart_input rt opened stdin) <> Raise OverflowError).
Proof.
  repeat split.
  - intros s w v H.
    destruct (str_to_int_outcomes rt s) as [(v' & Hv & E)|[(f & a & E)|E]];
      rewrite E in H; inversion H; subst; [right|left]; split; auto.
    discriminate.
  - intros H. destruct (Z.lt_ge_cases v 0) as [|Hv]; [assumption|].
    rewrite encode_eq in H by exact Hv. discriminate.
  - apply encode_negative.
  - intros line w c bs E Hin.
    destruct (iteration_cases rt line)
      as [E'|[(f & a & E')|[(v & bs' & Hv & He & E')|E']]];
      rewrite E' in E; inversion E; subst; cbn in Hin;
      intuition try discriminate.
    match goal with
    | H : SerialWrite _ = SerialWrite _ |- _ => injection H as <-
    end.
    eauto.
  - intros opened stdin H.
    pose proof (loop_outcome rt opened stdin) as Ho. cbv zeta in Ho.
    rewrite H in Ho. destruct Ho as [Ho|[Ho|Ho]]; discriminate.
Qed.

Lemma conversion_gets_no_negative_witness :
  ((-1 = -1 /\ [Log WARNING "Unknown format for string: %s" (Some (lit "-15"))]
                 <> [])
   \/ (0 <= -1
       /\ [Log WARNING "Unknown format for string: %s" (Some (lit "-15"))] = []))
  /\ (exists v, 0 <= v /\ encode v = Return [x07]).
Proof.
  split.
  - apply (proj1 (conversion_gets_no_negative excerpt) (lit "-15")). reflexivity.
  - apply (proj1 (proj2 (proj2 (conversion_gets_no_negative excerpt)))
             (lit "7") [Prompt PROMPT; SerialWrite [x07]] (Return Continue) [x07]).
    + reflexivity.
    + right. left. reflexivity.
Defined.

End Loop.

(** * Further properties of the script *)

(** ** Whole runs of the loop *)

Section Run.

Context (rt : Runtime).

Local Open Scope Z_scope.

Lemma writes_app (a b : list effect) : writes (a ++ b) = writes a ++ writes b.
Proof. apply flat_map_app. Qed.

Lemma iteration_effects (k : option keyboard) :
  Forall turn_effect (fst (iteration rt (str_to_int rt) k)).
Proof.
  assert (Hp : Forall turn_effect [Prompt PROMPT]).
  { constructor; [now left|constructor]. }
  destruct k as [[line|]|]; [|exact Hp..].
  destruct (iteration_cases rt line)
    as [-> |[(fmt & arg & ->)|[(v & bs & _ & _ & ->)| ->]]]; cbn [fst];
    try exact Hp.
  - constructor; [now left|]. constructor; [|constructor].
    right. left. eauto.
  - constructor; [now left|]. constructor; [|constructor].
    right. right. eauto.
Qed.

Lemma while_true_effects (stdin : list keyboard) :
  Forall turn_effect (fst (while_true rt (str_to_int rt) stdin)).
Proof.
  induction stdin as [|k stdin IH]; cbn [while_true].
  - pose proof (iteration_effects None) as H.
    destruct (iteration rt (str_to_int rt) None) as [w [c|e]]; cbn in *;
      [rewrite app_nil_r|]; exact H.
  - pose proof (iteration_effects (Some k)) as H.
    destruct (iteration rt (str_to_int rt) (Some k)) as [w [[|]|e]];
      cbn in *; [rewrite app_nil_r; exact H| |exact H].
    destruct (while_true rt (str_to_int rt) stdin) as [w' r]. cbn in *.
    apply Forall_app. auto.
Qed.

Lemma while_true_continue (k : keyboard) (rest : list keyboard)
    (w : list effect) :
  iteration rt (str_to_int rt) (Some k) = (w, Return Continue) ->
  while_true rt (str_to_int rt) (k :: rest)
  = (w ++ fst (while_true rt (str_to_int rt) rest),
     snd (while_true rt (str_to_int rt) rest)).
Proof.
  intros H. cbn [while_true]. rewrite H. cbn.
  now destruct (while_true rt (str_to_int rt) rest).
Qed.

(** The loop over lines that all go on, and then over the rest. *)
Lemma while_true_app (pre rest : list keyboard) :
  Forall (continuing rt) pre ->
  while_true rt (str_to_int rt) (pre ++ rest)
  = (turns rt pre ++ fst (while_true rt (str_to_int rt) rest),
     snd (while_true rt (str_to_int rt) rest)).
Proof.
  induction 1 as [|k pre [w Hw] _ IH].
  - cbn. now destruct (while_true rt (str_to_int rt) rest).
  - cbn [app]. rewrite (while_true_continue _ _ _ Hw), IH.
    unfold turns. cbn [flat_map fst snd]. rewrite Hw. cbn [fst].
    now rewrite app_assoc.
Qed.

(** X1. When the user interrupts at a prompt after lines that were all
    sent or skipped, the function logs the interruption, releases the
    port and returns normally; what would have been typed afterwards is
    never read. *)
Theorem interrupt_ends_normally (pre rest : list keyboard) :
  Forall (continuing rt) pre ->
  loop_send_uart_input rt true (pre ++ CtrlC :: rest)
  = (turns rt pre
     ++ [Prompt PROMPT; Log INFO "Interrupted by user" None; SerialClose;
         Log INFO "Serial port closed" None],
     Return tt).
Proof.
  intros Hpre. unfold loop_send_uart_input, loop_send_uart_input_with.
  rewrite (while_true_app pre (CtrlC :: rest) Hpre). cbn.
  now rewrite <- !app_assoc.
Qed.

(** X2. When the standard input ends after lines that were all sent or
    skipped, the loop prompts once more, and the function releases the
    port and ends with EOFError: the end of the input is not an exit. *)
Theorem end_of_input_raises (stdin : list keyboard) :
  Forall (continuing rt) stdin ->
  loop_send_uart_input rt true stdin
  = (turns rt stdin
     ++ [Prompt PROMPT; SerialClose; Log INFO "Serial port closed" None],
     Raise EOFError).
Proof.
  intros Hpre. unfold loop_send_uart_input, loop_send_uart_input_with.
  rewrite <- (app_nil_r stdin) at 1.
  rewrite (while_true_app stdin [] Hpre). cbn.
  now rewrite <- !app_assoc.
Qed.

(** X3. When the port is open, it is released exactly once, as the last
    action on it, on every way out of the function, normal or not; when
    it could not be opened, the function only logs. *)
Theorem port_released_once (opened : bool) (stdin : list keyboard) :
  if opened then
    exists w,
      fst (loop_send_uart_input rt true stdin)
      = w ++ [SerialClose; Log INFO "Serial port closed" None]
      /\ ~ In SerialClose w
  else
    forallb (fun e => negb (touches_device e))
      (fst (loop_send_uart_input rt false stdin)) = true.
Proof.
  destruct opened; [|reflexivity].
  unfold loop_send_uart_input, loop_send_uart_input_with.
  pose proof (while_true_effects stdin) as Hw.
  pose proof (while_true_outcome rt stdin) as Ho. cbv zeta in Ho.
  destruct (while_true rt (str_to_int rt) stdin) as [w r]. cbn [fst snd] in *.
  assert (Hno : ~ In SerialClose w).
  { intros Hin. rewrite Forall_forall in Hw.
    destruct (Hw _ Hin) as [H|[(f & a & H)|(bs & H)]]; discriminate. }
  unfold outcome in Ho. cbn [snd] in Ho.
  destruct Ho as [-> |[-> |[-> | ->]]]; cbn.
  - exists w. auto.
  - exists w. auto.
  - exists (w ++ [Log INFO "Interrupted by user" None]).
    rewrite <- app_assoc. split; [reflexivity|].
    intros Hin. apply in_app_or in Hin as [Hin|[Hin|[]]]; [auto|discriminate].
  - exists w. auto.
Qed.

Lemma encode_decodes (v : Z) (bs : list byte) :
  0 <= v -> encode v = Return bs -> decode bs = v /\ bs <> [].
Proof.
  intros Hv He. rewrite encode_eq in He by exact Hv. injection He as <-.
  pose proof (byte_count_max v) as Hm. split.
  - apply from_bytes_le_bytes. split; [exact Hv|].
    rewrite Z2Nat.id by lia. now apply byte_count_fits.
  - intros E. apply (f_equal (@length byte)) in E.
    rewrite length_le_bytes in E. cbn in E. lia.
Qed.

Lemma iteration_writes (line : str) (bs : list byte) :
  In bs (writes (fst (iteration rt (str_to_int rt) (Some (Line line))))) ->
  exists v, 0 <= v /\ str_to_int rt (token rt line) = ([], Return v)
            /\ encode v = Return bs.
Proof.
  rewrite iteration_line.
  destruct (PyStr.eqb _ _); [cbn; tauto|].
  destruct (str_to_int_outcomes rt (token rt line))
    as [(v & Hv & E)|[(fmt & arg & E)|E]]; rewrite E.
  - destruct (Z.eqb_spec v (-1)); [lia|].
    pose proof (encode_eq v Hv) as He. rewrite He. cbn.
    intros [<-|[]]. eauto.
  - cbn. tauto.
  - cbn. tauto.
Qed.

Lemma while_true_writes (stdin : list keyboard) (bs : list byte) :
  In bs (writes (fst (while_true rt (str_to_int rt) stdin))) ->
  exists line v, In (Line line) stdin /\ 0 <= v
    /\ str_to_int rt (token rt line) = ([], Return v) /\ encode v = Return bs.
Proof.
  induction stdin as [|k stdin IH]; cbn [while_true].
  - cbn. tauto.
  - destruct k as [line|]; [|cbn; tauto].
    pose proof (iteration_writes line bs) as Hit.
    destruct (iteration rt (str_to_int rt) (Some (Line line)))
      as [w [[|]|e]]; cbn [fst bind] in *.
    + cbn. rewrite app_nil_r. intros H.
      destruct (Hit H) as (v & ?). exists line, v. split; [now left|auto].
    + destruct (while_true rt (str_to_int rt) stdin) as [w' r].
      cbn [fst] in *. rewrite writes_app. intros H.
      apply in_app_or in H as [H|H].
      * destruct (Hit H) as (v & ?). exists line, v. split; [now left|auto].
      * destruct (IH H) as (l & v & Hl & ?). exists l, v.
        split; [now right|auto].
    + intros H. destruct (Hit H) as (v & ?).
      exists line, v. split; [now left|auto].
Qed.

Lemma loop_writes (opened : bool) (stdin : list keyboard) :
  writes (fst (loop_send_uart_input rt opened stdin))
  = if opened then writes (fst (while_true rt (str_to_int rt) stdin)) else [].
Proof.
  unfold loop_send_uart_input, loop_send_uart_input_with.
  destruct opened; [|reflexivity].
  destruct (while_true rt (str_to_int rt) stdin) as [w [[]|e]]; cbn;
    rewrite ?writes_app; cbn; rewrite ?app_nil_r; try reflexivity.
  destruct e; cbn; rewrite ?writes_app; cbn; now rewrite ?app_nil_r.
Qed.

(** X4. Every sequence of bytes the function writes to the port comes from
    a line that was typed: it is not empty, and it is the encoding of the
    value, not negative, that the parse of that line returned, which the
    bytes spell back. *)
Theorem written_bytes_come_from_lines (opened : bool) (stdin : list keyboard)
    (bs : list byte) :
  In bs (writes (fst (loop_send_uart_input rt opened stdin))) ->
  exists line v,
    In (Line line) stdin /\ 0 <= v
    /\ str_to_int rt (token rt line) = ([], Return v)
    /\ encode v = Return bs /\ decode bs = v /\ bs <> [].
Proof.
  rewrite loop_writes. destruct opened; [|intros []].
  intros H. destruct (while_true_writes stdin bs H) as (l & v & Hl & Hv & Hp & He).
  exists l, v. destruct (encode_decodes v bs Hv He). auto 7.
Qed.

Lemma iteration_writes_count (k : keyboard) :
  (length (writes (fst (iteration rt (str_to_int rt) (Some k)))) <= 1)%nat.
Proof.
  destruct k as [line|]; [|cbn; lia].
  destruct (iteration_cases rt line)
    as [-> |[(fmt & arg & ->)|[(v & bs & _ & _ & ->)| ->]]]; cbn; lia.
Qed.

(** X5. The function writes to the port at most once for each line typed,
    and not at all when the port could not be opened. *)
Theorem at_most_one_write_per_line (opened : bool) (stdin : list keyboard) :
  (length (writes (fst (loop_send_uart_input rt opened stdin)))
   <= if opened then length stdin else 0)%nat.
Proof.
  rewrite loop_writes. destruct opened; [|cbn; lia].
  induction stdin as [|k stdin IH]; cbn [while_true].
  - cbn. lia.
  - pose proof (iteration_writes_count k) as Hk.
    destruct (iteration rt (str_to_int rt) (Some k)) as [w [[|]|e]];
      cbn [fst bind length] in *.
    + cbn. rewrite app_nil_r. unfold writes in Hk. lia.
    + destruct (while_true rt (str_to_int rt) stdin) as [w' r].
      cbn [fst] in *. rewrite writes_app, length_app. lia.
    + lia.
Qed.

End Run.

Lemma interrupt_ends_normally_witness :
  loop_send_uart_input excerpt true
    ([Line (lit "0x10"); Line (lit "zz")] ++ CtrlC :: [Line (lit "7")])
  = (turns excerpt [Line (lit "0x10"); Line (lit "zz")]
     ++ [Prompt PROMPT; Log INFO "Interrupted by user" None; SerialClose;
         Log INFO "Serial port closed" None],
     Return tt).
Proof.
  apply (interrupt_ends_normally excerpt).
  repeat constructor; eexists; reflexivity.
Defined.

Lemma end_of_input_raises_witness :
  loop_send_uart_input excerpt true [Line (lit "0x10"); Line (lit "zz")]
  = (turns excerpt [Line (lit "0x10"); Line (lit "zz")]
     ++ [Prompt PROMPT; SerialClose; Log INFO "Serial port closed" None],
     Raise EOFError).
Proof.
  apply (end_of_input_raises excerpt).
  repeat constructor; eexists; reflexivity.
Defined.

Lemma written_bytes_come_from_lines_witness :
  exists line v,
    In (Line line) [Line (lit "0x1_00"); Line (lit "x")] /\ (0 <= v)%Z
    /\ str_to_int excerpt (token excerpt line) = ([], Return v)
    /\ encode v = Return [x00; x01] /\ decode [x00; x01] = v
    /\ [x00; x01] <> [].
Proof.
  apply (written_bytes_come_from_lines excerpt true
           [Line (lit "0x1_00"); Line (lit "x")] [x00; x01]).
  left. reflexivity.
Defined.

(** ** The parser: white space, signs and other characters *)

Section ParserFurther.

Import Unicode PyStr.

Context (rt : Runtime).

Local Open Scope N_scope.

Lemma dropwhile_all (f : codepoint -> bool) (ws s : str) :
  forallb f ws = true -> dropwhile f (ws ++ s) = dropwhile f s.
Proof.
  induction ws as [|c ws IH]; [reflexivity|].
  cbn [forallb app dropwhile]. rewrite andb_true_iff. intros [-> H]. auto.
Qed.

Lemma dropwhile_app_nonempty (f : codepoint -> bool) (s u : str) :
  dropwhile f s <> [] -> dropwhile f (s ++ u) = dropwhile f s ++ u.
Proof.
  induction s as [|c s IH]; cbn [app dropwhile]; [congruence|].
  destruct (f c); auto.
Qed.

Lemma dropwhile_nil_app (f : codepoint -> bool) (s u : str) :
  dropwhile f s = [] -> dropwhile f (s ++ u) = dropwhile f u.
Proof.
  induction s as [|c s IH]; cbn [app dropwhile]; [reflexivity|].
  destruct (f c); [auto|discriminate].
Qed.

Lemma rstrip_all (x ws : str) :
  forallb (isspace rt) ws = true -> rstrip rt (x ++ ws) = rstrip rt x.
Proof.
  intros H. unfold rstrip, lstrip. rewrite rev_app_distr.
  rewrite dropwhile_all; [reflexivity|].
  rewrite forallb_forall in *. intros c Hc. apply H. now apply in_rev.
Qed.

Lemma strip_padded (ws1 s ws2 : str) :
  forallb (isspace rt) ws1 = true -> forallb (isspace rt) ws2 = true ->
  strip rt (ws1 ++ s ++ ws2) = strip rt s.
Proof.
  intros H1 H2. unfold strip. unfold lstrip at 1.
  rewrite dropwhile_all by exact H1. fold (lstrip rt (s ++ ws2)).
  destruct (lstrip rt s) as [|c r] eqn:E.
  - unfold lstrip in *. rewrite (dropwhile_nil_app _ _ _ E).
    rewrite <- (app_nil_r ws2), dropwhile_all by exact H2. reflexivity.
  - unfold lstrip in *. rewrite dropwhile_app_nonempty by (rewrite E; discriminate).
    rewrite E. now apply rstrip_all.
Qed.

(** X6. White space around a string does not change its parse, whatever
    the string. *)
Theorem surrounding_space_is_ignored (ws1 s ws2 : str) :
  forallb (isspace rt) ws1 = true -> forallb (isspace rt) ws2 = true ->
  str_to_int rt (ws1 ++ s ++ ws2) = str_to_int rt s.
Proof.
  intros H1 H2. rewrite !str_to_int_eq. cbv zeta. unfold token.
  now rewrite strip_padded.
Qed.

End ParserFurther.

Lemma surrounding_space_is_ignored_witness :
  str_to_int excerpt ([9; 160] ++ lit "0b101" ++ [32; 8195; 10])%N
  = str_to_int excerpt (lit "0b101").
Proof.
  apply (surrounding_space_is_ignored excerpt); reflexivity.
Defined.

(** ** The parser: underscores and other characters after a prefix *)

Section Underscores.

Import Unicode PyInt.

Context (rt : Runtime).

Local Open Scope N_scope.

Lemma word_char_ascii (c : codepoint) :
  is_word_char c = true -> c < 127 /\ Py_ISSPACE c = false.
Proof.
  unfold is_word_char, is_digit_of, digit_value, Py_ISSPACE, UNDERSCORE,
    between. intros H. split; ncases.
Qed.

Lemma join_word_chars (base : N) (groups : list str) :
  base <= 36 -> digit_groups base groups ->
  forallb is_word_char (join groups) = true.
Proof.
  intros Hb Hg. apply forallb_forall. intros c Hc.
  pose proof (join_chars base groups Hg) as H. rewrite Forall_forall in H.
  unfold is_word_char. destruct (H c Hc) as [-> |Hd]; [now rewrite orb_true_r|].
  unfold is_digit_of in *. apply N.ltb_lt in Hd.
  replace (digit_value c <? 36) with true; [reflexivity|].
  symmetry. apply N.ltb_lt. lia.
Qed.

Lemma word_chars_transform (r : str) :
  forallb is_word_char r = true -> TransformDecimalAndSpaceToASCII rt r = r.
Proof.
  intros H. apply transform_ascii. rewrite forallb_forall in H.
  apply Forall_forall. intros c Hc. now apply word_char_ascii, H.
Qed.

(** X7. After 0x or 0b, groups of digits of the base with one underscore
    between two groups, and possibly one underscore in front, are parsed
    as the number the digits spell without the underscores. *)
Theorem underscores_separate_digit_groups (s : str) (base : N)
    (p : codepoint) (u : str) (groups : list str) :
  (base = 16 /\ p = 120) \/ (base = 2 /\ p = 98) ->
  u = [] \/ u = [UNDERSCORE] -> digit_groups base groups ->
  token rt s = 48 :: p :: u ++ join groups ->
  str_to_int rt s
  = ([], Return (Z.of_N (numeral_value base (concat groups)))).
Proof.
  intros Hbase Hu Hg Ht.
  assert (Hb : base <= 36) by (destruct Hbase as [[-> _]|[-> _]]; lia).
  assert (Hp : prefix_letter base p = true)
    by (destruct Hbase as [[-> ->]|[-> ->]]; reflexivity).
  assert (Hbin : is_binary_base base = true)
    by (destruct Hbase as [[-> _]|[-> _]]; reflexivity).
  assert (Hne : u ++ join groups <> []).
  { intros E. apply app_eq_nil in E as [_ E].
    now apply (join_nonempty base groups). }
  destruct (str_to_int_prefixed rt s base p _ Hbase Ht Hne) as [fmt ->].
  rewrite int_prefixed_eq by exact Hp.
  rewrite word_chars_transform.
  2:{ rewrite forallb_app, (join_word_chars base) by assumption.
      destruct Hu as [-> | ->]; reflexivity. }
  rewrite (skip_underscore_join base) by assumption.
  rewrite <- (app_nil_r (join groups)).
  rewrite parse_digits_groups; try assumption; try reflexivity.
  - now rewrite Z.mul_1_l.
  - unfold exceeds_limit. now rewrite Hbin.
Qed.

Lemma prefixed_cases (s : str) (base : N) (p : codepoint) (r : str) :
  (base = 16 /\ p = 120) \/ (base = 2 /\ p = 98) ->
  token rt s = 48 :: p :: r -> r <> [] ->
  forallb is_word_char r = true ->
  (exists u groups,
     (u = [] \/ u = [UNDERSCORE]) /\ digit_groups base groups
     /\ r = u ++ join groups)
  \/ fails (str_to_int rt s).
Proof.
  intros Hbase Ht Hne Hw.
  assert (Hp : prefix_letter base p = true)
    by (destruct Hbase as [[-> ->]|[-> ->]]; reflexivity).
  destruct (str_to_int_prefixed rt s base p r Hbase Ht Hne) as [fmt ->].
  destruct (int rt (48 :: p :: r) base) as [v|e] eqn:E;
    [left|right; unfold fails; eauto].
  rewrite int_prefixed_eq, word_chars_transform in E by assumption.
  destruct (parse_digits_inv rt _ _ _ _ E) as (groups & trail & Hs & Hg & Htr & _).
  destruct (skip_underscore_cases r) as (u & Hr & Hu).
  exists u, groups. split; [tauto|]. split; [exact Hg|].
  destruct trail as [|c trail'].
  - rewrite app_nil_r in Hs. now rewrite <- Hs.
  - exfalso. cbn [forallb] in Htr. apply andb_true_iff in Htr as [Hc _].
    rewrite forallb_forall in Hw.
    assert (Hin : In c r).
    { rewrite Hr, Hs. apply in_or_app. right. apply in_or_app. right.
      now left. }
    apply Hw, word_char_ascii in Hin as [_ Hin]. congruence.
Qed.

(** X8. After 0x or 0b, a remainder made of ASCII letters, digits and
    underscores either has that shape, groups of digits of the base
    between single underscores, or the parse fails. *)
Theorem prefixed_shape_or_failure (s : str) (base : N) (p : codepoint)
    (r : str) :
  (base = 16 /\ p = 120) \/ (base = 2 /\ p = 98) ->
  token rt s = 48 :: p :: r -> r <> [] ->
  forallb is_word_char r = true ->
  (exists u groups,
     (u = [] \/ u = [UNDERSCORE]) /\ digit_groups base groups
     /\ r = u ++ join groups)
  \/ fails (str_to_int rt s).
Proof. apply prefixed_cases. Qed.

Lemma doubled_underscore_cons (c : codepoint) (x : str) :
  (c =? UNDERSCORE) = false ->
  doubled_underscore (c :: x) = doubled_underscore x.
Proof.
  intros Hc. destruct x as [|d x]; [reflexivity|].
  change (doubled_underscore (c :: d :: x))
    with (((c =? UNDERSCORE) && (d =? UNDERSCORE))
          || doubled_underscore (d :: x)).
  now rewrite Hc.
Qed.

Lemma doubled_underscore_digits (base : N) (g s : str) :
  base <= 36 -> forallb (is_digit_of base) g = true ->
  doubled_underscore (g ++ s) = doubled_underscore s.
Proof.
  intros Hb. induction g as [|c g IH]; [reflexivity|].
  cbn [forallb]. rewrite andb_true_iff. intros [Hc Hg].
  unfold is_digit_of in Hc. apply N.ltb_lt in Hc.
  destruct (digit_value_digit base c Hb Hc) as (_ & Hu & _).
  cbn [app]. rewrite doubled_underscore_cons by exact Hu. auto.
Qed.

Lemma join_underscores (base : N) (groups : list str) :
  base <= 36 -> digit_groups base groups ->
  doubled_underscore (join groups) = false
  /\ doubled_underscore (UNDERSCORE :: join groups) = false
  /\ last (join groups) 0 <> UNDERSCORE.
Proof.
  intros Hb [Hne Hg]. revert Hne.
  induction Hg as [|g gs [Hg1 Hg2] Hgs IH]; intros Hne; [now destruct Hne|].
  assert (Hhd : forall s, doubled_underscore (UNDERSCORE :: g ++ s)
                          = doubled_underscore s).
  { intros s. destruct g as [|c g']; [now destruct Hg1|].
    cbn [forallb] in Hg2. apply andb_true_iff in Hg2 as [Hc Hg2].
    unfold is_digit_of in Hc. apply N.ltb_lt in Hc.
    destruct (digit_value_digit base c Hb Hc) as (_ & Hu & _).
    change (doubled_underscore (UNDERSCORE :: (c :: g') ++ s))
      with (((UNDERSCORE =? UNDERSCORE) && (c =? UNDERSCORE))
            || doubled_underscore ((c :: g') ++ s)).
    rewrite Hu, andb_false_r. cbn [orb].
    apply (doubled_underscore_digits base); [exact Hb|].
    cbn [forallb]. unfold is_digit_of at 1.
    apply N.ltb_lt in Hc. now rewrite Hc. }
  assert (Hlast : forall d, last g d <> UNDERSCORE).
  { intros d E. destruct (exists_last Hg1) as (g' & c & ->).
    rewrite last_last in E. subst c.
    rewrite forallb_app in Hg2. apply andb_true_iff in Hg2 as [_ Hg2].
    cbn [forallb] in Hg2. apply andb_true_iff in Hg2 as [Hg2 _].
    unfold is_digit_of in Hg2. apply N.ltb_lt in Hg2.
    change (digit_value UNDERSCORE) with 37 in Hg2. lia. }
  destruct gs as [|h gs'].
  - cbn [join flat_map]. rewrite app_nil_r.
    rewrite <- (app_nil_r g) at 1 2. rewrite Hhd.
    rewrite (doubled_underscore_digits base) by assumption. auto.
  - destruct (IH ltac:(discriminate)) as (IH1 & IH2 & IH3).
    rewrite join_cons by discriminate.
    rewrite Hhd, (doubled_underscore_digits base) by assumption.
    assert (Hj : join (h :: gs') <> []).
    { apply (join_nonempty base). split; [discriminate|exact Hgs]. }
    split; [exact IH2|]. split; [exact IH2|].
    rewrite last_app_nonempty by discriminate.
    destruct (join (h :: gs')) as [|x y]; [now destruct Hj|]. exact IH3.
Qed.

(** X9. After 0x or 0b, a remainder made of ASCII letters, digits and
    underscores that has two underscores in a row, or ends with an
    underscore, makes the parse fail. *)
Theorem misplaced_underscore_fails (s : str) (base : N) (p : codepoint)
    (r : str) :
  (base = 16 /\ p = 120) \/ (base = 2 /\ p = 98) ->
  token rt s = 48 :: p :: r -> r <> [] ->
  forallb is_word_char r = true ->
  doubled_underscore r = true \/ last r 0 = UNDERSCORE ->
  fails (str_to_int rt s).
Proof.
  intros Hbase Ht Hne Hw Hbad.
  destruct (prefixed_cases s base p r Hbase Ht Hne Hw)
    as [(u & groups & Hu & Hg & ->)|]; [exfalso|assumption].
  assert (Hb : base <= 36) by (destruct Hbase as [[-> _]|[-> _]]; lia).
  destruct (join_underscores base groups Hb Hg) as (H1 & H2 & H3).
  pose proof (join_nonempty base groups Hg) as Hj.
  rewrite last_app_nonempty in Hbad by exact Hj.
  destruct Hbad as [Hd|Hl]; [|auto].
  destruct Hu as [-> | ->]; cbn [app] in Hd; congruence.
Qed.

End Underscores.

Lemma underscores_separate_digit_groups_witness :
  str_to_int excerpt (lit " 0X_dead_BEEF ")
  = ([], Return (Z.of_N (numeral_value 16 (concat [lit "dead"; lit "beef"])))).
Proof.
  apply (underscores_separate_digit_groups excerpt (lit " 0X_dead_BEEF ") 16
           120 [PyInt.UNDERSCORE] [lit "dead"; lit "beef"]).
  - left. split; reflexivity.
  - right. reflexivity.
  - split; [discriminate|].
    repeat constructor; discriminate.
  - reflexivity.
Defined.

Lemma prefixed_shape_or_failure_witness :
  (exists u groups,
     (u = [] \/ u = [PyInt.UNDERSCORE]) /\ digit_groups 2 groups
     /\ lit "1__0" = u ++ join groups)
  \/ fails (str_to_int excerpt (lit "0b1__0")).
Proof.
  apply (prefixed_shape_or_failure excerpt (lit "0b1__0") 2 98 (lit "1__0")).
  - right. split; reflexivity.
  - reflexivity.
  - discriminate.
  - reflexivity.
Defined.

Lemma misplaced_underscore_fails_witness :
  fails (str_to_int excerpt (lit "0x1f_")).
Proof.
  apply (misplaced_underscore_fails excerpt (lit "0x1f_") 16 120 (lit "1f_")).
  - left. split; reflexivity.
  - reflexivity.
  - discriminate.
  - reflexivity.
  - right. reflexivity.
Defined.

(** ** The parser: what fails and what raises *)

Section Rejections.

Import Unicode PyInt.

Context (rt : Runtime).

Local Open Scope N_scope.

Lemma transform_keeps (u : str) (c : codepoint) :
  In c u -> c < 127 ->
  In c (TransformDecimalAndSpaceToASCII rt u)
  \/ In 63 (TransformDecimalAndSpaceToASCII rt u).
Proof.
  intros Hin Hc. induction u as [|x u IH]; [destruct Hin|].
  cbn [TransformDecimalAndSpaceToASCII].
  destruct (x <? 127) eqn:Ex.
  - destruct Hin as [-> |Hin]; [left; now left|].
    destruct (IH Hin); [left|right]; now right.
  - destruct Hin as [-> |Hin]; [apply N.ltb_ge in Ex; lia|].
    destruct (isspace rt x).
    + destruct (IH Hin); [left|right]; now right.
    + destruct (todecimal rt x).
      * destruct (IH Hin); [left|right]; now right.
      * right. now left.
Qed.

Lemma transform_question_mark (u : str) (c : codepoint) :
  In c u -> isspace rt c = false -> todecimal rt c = None ->
  127 <= c -> In 63 (TransformDecimalAndSpaceToASCII rt u).
Proof.
  intros Hin Hs Hd Hc. induction u as [|x u IH]; [destruct Hin|].
  cbn [TransformDecimalAndSpaceToASCII].
  destruct Hin as [-> |Hin].
  - apply N.ltb_ge in Hc. rewrite Hc, Hs, Hd. now left.
  - destruct (x <? 127); [right; auto|].
    destruct (isspace rt x); [right; auto|].
    destruct (todecimal rt x); [right; auto|now left].
Qed.

Lemma skip_underscore_chars (s : str) (c : codepoint) :
  In c s -> c = UNDERSCORE \/ In c (skip_underscore s).
Proof.
  destruct (skip_underscore_cases s) as (u & Hs & [-> | ->]).
  - cbn [app] in Hs. rewrite <- Hs. auto.
  - intros Hin. rewrite Hs in Hin. destruct Hin as [<-|Hin]; auto.
Qed.

Lemma parse_digits_chars (base : N) (sign : Z) (s : str) (v : Z)
    (c : codepoint) :
  parse_digits rt base sign s = Return v -> In c s ->
  c = UNDERSCORE \/ is_digit_of base c = true \/ Py_ISSPACE c = true.
Proof.
  intros H Hin.
  destruct (parse_digits_inv rt _ _ _ _ H) as (groups & trail & -> & Hg & Ht & _).
  apply in_app_or in Hin as [Hin|Hin].
  - pose proof (join_chars base groups Hg) as Hj.
    rewrite Forall_forall in Hj. destruct (Hj c Hin); auto.
  - rewrite forallb_forall in Ht. auto.
Qed.

(** A stray character: ASCII, no letter, no digit, no underscore, no
    white space. *)
Lemma stray_not_taken (base : N) (c : codepoint) :
  base <= 36 -> is_word_char c = false -> Py_ISSPACE c = false ->
  ~ (c = UNDERSCORE \/ is_digit_of base c = true \/ Py_ISSPACE c = true).
Proof.
  unfold is_word_char, is_digit_of. intros Hb Hw Hs.
  apply orb_false_iff in Hw as [Hd Hu].
  apply N.ltb_ge in Hd. apply N.eqb_neq in Hu.
  intros [H|[H|H]]; [auto| |congruence].
  apply N.ltb_lt in H. lia.
Qed.

(** X10. A token with an ASCII character in it that is no letter, no
    digit, no underscore and no white space fails: a sign, a point, a
    comma are refused wherever they stand, so that no negative number
    can be entered. *)
Theorem stray_character_fails (s : str) (c : codepoint) :
  In c (token rt s) -> c < 127 ->
  is_word_char c = false -> Py_ISSPACE c = false ->
  fails (str_to_int rt s).
Proof.
  intros Hin Hc Hw Hs.
  assert (Hnd : PyStr.isdigit rt (token rt s) = false).
  { destruct (PyStr.isdigit rt (token rt s)) eqn:E; [exfalso|reflexivity].
    unfold PyStr.isdigit in E. destruct (token rt s) as [|x y]; [discriminate|].
    rewrite forallb_forall in E. apply E in Hin.
    unfold isdigit in Hin. replace (c <? 256) with true in Hin
      by (symmetry; apply N.ltb_lt; lia).
    unfold latin1_isdigit, is_word_char, is_digit_of, digit_value, between in *.
    ncases. }
  assert (Hprefixed : forall (base : N) (p : codepoint) (r : str),
            (base = 16 /\ p = 120) \/ (base = 2 /\ p = 98) ->
            token rt s = 48 :: p :: r -> r <> [] -> fails (str_to_int rt s)).
  { intros base p r Hbase Ht Hr.
    assert (Hb : base <= 36) by (destruct Hbase as [[-> _]|[-> _]]; lia).
    assert (Hp : prefix_letter base p = true)
      by (destruct Hbase as [[-> ->]|[-> ->]]; reflexivity).
    destruct (str_to_int_prefixed rt s base p r Hbase Ht Hr) as [fmt ->].
    destruct (int rt (48 :: p :: r) base) as [v|e] eqn:E;
      [exfalso|unfold fails; eauto].
    rewrite int_prefixed_eq in E by exact Hp.
    rewrite Ht in Hin.
    assert (Hr' : In c r).
    { destruct Hin as [<-|[<-|Hin]]; [discriminate Hw| |exact Hin].
      destruct Hbase as [[_ ->]|[_ ->]]; discriminate Hw. }
    assert (Hbad : forall x, In x (TransformDecimalAndSpaceToASCII rt r) ->
              x = UNDERSCORE \/ is_digit_of base x = true
              \/ Py_ISSPACE x = true).
    { intros x Hx. apply skip_underscore_chars in Hx as [Hx|Hx]; [auto|].
      eapply parse_digits_chars; eauto. }
    destruct (transform_keeps r c Hr' Hc) as [H|H]; apply Hbad in H.
    - now apply (stray_not_taken base c Hb Hw Hs).
    - now apply (stray_not_taken base 63 Hb). }
  destruct (Z.ltb_spec (PyStr.len (token rt s)) 3) as [Hl|Hl];
    [now apply short_token_fails|].
  assert (Hlong : forall a b r, token rt s = a :: b :: r -> r <> []).
  { intros a b r Ht ->. rewrite Ht in Hl. unfold PyStr.len in Hl.
    cbn in Hl. lia. }
  destruct (PyStr.startswith (token rt s) (lit "0x")) eqn:Ex.
  { apply startswith_two in Ex as [r Hr].
    apply (Hprefixed 16 120 r); eauto. }
  destruct (PyStr.startswith (token rt s) (lit "0b")) eqn:Eb.
  { apply startswith_two in Eb as [r Hr].
    apply (Hprefixed 2 98 r); eauto. }
  rewrite str_to_int_eq. cbv zeta. rewrite Hnd, Ex, Eb.
  apply Z.ltb_ge in Hl. rewrite Hl. unfold fails. eauto.
Qed.

End Rejections.

Lemma stray_character_fails_witness :
  fails (str_to_int excerpt (lit "0x1-2")).
Proof.
  apply (stray_character_fails excerpt (lit "0x1-2") 45).
  - right. right. right. left. reflexivity.
  - reflexivity.
  - reflexivity.
  - reflexivity.
Defined.

(** ** The parser: the digits of the character database *)

Section Decimals.

Import Unicode PyInt.

Context (rt : Runtime).

Hypothesis facts : UnicodeFacts rt.

Local Open Scope N_scope.

(** A decimal digit is an ASCII digit or lies above U+00FF. *)
Lemma decimal_cases (c d : N) :
  todecimal rt c = Some d ->
  d < 10 /\ isdigit rt c = true
  /\ ((c < 127 /\ c = 48 + d) \/ (256 <= c /\ isspace rt c = false)).
Proof.
  intros H. split; [eapply todecimal_lt_10; eauto|].
  revert H. unfold todecimal, isdigit, isspace.
  destruct (N.ltb_spec c 256) as [Hc|Hc].
  - unfold latin1_todecimal, latin1_isdigit, between.
    destruct ((48 <=? c) && (c <=? 57)) eqn:E; [|discriminate].
    intros [= <-]. split; [reflexivity|]. left.
    apply andb_true_iff in E as [E1 E2].
    apply N.leb_le in E1, E2. lia.
  - intros H. split; [eapply decimal_isdigit; eauto|].
    right. split; [lia|]. eapply decimal_not_space; eauto.
Qed.

Lemma ascii_digit_of (d : N) : d < 10 -> is_ascii_digit (48 + d) = true.
Proof. unfold is_ascii_digit, between. intros H. ncases. Qed.

(** The transformation of decimal digits: their ASCII digits. *)
Lemma transform_decimals (t : str) :
  forallb (is_decimal rt) t = true ->
  forallb is_ascii_digit (TransformDecimalAndSpaceToASCII rt t) = true
  /\ length (TransformDecimalAndSpaceToASCII rt t) = length t
  /\ numeral_value 10 (TransformDecimalAndSpaceToASCII rt t)
     = decimal_value rt t.
Proof.
  induction t as [|c t IH]; [now split|].
  cbn [forallb]. rewrite andb_true_iff. intros [Hc Ht].
  destruct (IH Ht) as (IH1 & IH2 & IH3).
  unfold is_decimal in Hc.
  destruct (todecimal rt c) as [d|] eqn:Ed; [|discriminate].
  destruct (decimal_cases c d Ed) as (Hd & _ & [[H1 H2]|[H1 H2]]);
    cbn [TransformDecimalAndSpaceToASCII decimal_value]; rewrite Ed.
  - apply N.ltb_lt in H1. rewrite H1.
    cbn [forallb length numeral_value]. rewrite IH1, IH2, IH3. subst c.
    rewrite digit_value_ascii_digit, ascii_digit_of by exact Hd. auto.
  - replace (c <? 127) with false by (symmetry; apply N.ltb_ge; lia).
    rewrite H2.
    cbn [forallb length numeral_value]. rewrite IH1, IH2, IH3.
    rewrite digit_value_ascii_digit, ascii_digit_of by exact Hd. auto.
Qed.

Lemma isdecimal_isdigit (t : str) :
  isdecimal rt t = true -> PyStr.isdigit rt t = true.
Proof.
  unfold isdecimal, PyStr.isdigit. destruct t as [|c t]; [auto|].
  rewrite !forallb_forall. intros H x Hx. apply H in Hx.
  unfold is_decimal in Hx.
  destruct (todecimal rt x) as [d|] eqn:Ed; [|discriminate].
  now apply (decimal_cases x d).
Qed.

(** The conversion of ASCII decimal digits, with its limit. *)
Lemma int_ascii_decimal (t : str) :
  t <> [] -> forallb is_ascii_digit t = true ->
  int rt t 10
  = if exceeds_limit rt 10 (length t) then Raise ValueError
    else Return (Z.of_N (numeral_value 10 t)).
Proof.
  intros Hne Ht. unfold int.
  assert (Hd : forallb (is_digit_of 10) t = true).
  { rewrite forallb_forall in *. intros c Hc.
    now apply is_ascii_digit_decimal, Ht. }
  rewrite transform_ascii by (apply (digits_ascii 10); [lia|exact Hd]).
  unfold PyLong_FromString.
  destruct t as [|c t']; [congruence|].
  assert (Hc : digit_value c < 10).
  { cbn [forallb] in Hd. apply andb_true_iff in Hd as [Hc _].
    now apply N.ltb_lt in Hc. }
  destruct (digit_value_digit 10 c ltac:(lia) Hc) as (_ & H1 & H2 & H3 & H4).
  rewrite skip_spaces_cons, skip_sign_cons, skip_prefix_decimal by assumption.
  unfold starts_with_underscore. rewrite H1.
  rewrite scan_all_digits by (lia || assumption).
  cbn [map length]. rewrite length_map.
  destruct (exceeds_limit rt 10 (S (length t'))); [reflexivity|].
  cbn [skip_spaces]. change (digit_value c :: map digit_value t')
    with (map digit_value (c :: t')).
  now rewrite accumulate_numeral, Z.mul_1_l.
Qed.

(** The conversion of decimal digits of the database, with its limit. *)
Lemma int_decimals (t : str) :
  isdecimal rt t = true ->
  int rt t 10
  = if exceeds_limit rt 10 (length t) then Raise ValueError
    else Return (Z.of_N (decimal_value rt t)).
Proof.
  intros H. unfold isdecimal in H.
  destruct t as [|c t]; [discriminate|]. set (u := c :: t) in *.
  destruct (transform_decimals u H) as (H1 & H2 & H3).
  assert (Hd : forallb (is_digit_of 10)
                 (TransformDecimalAndSpaceToASCII rt u) = true).
  { rewrite forallb_forall in *. intros x Hx.
    now apply is_ascii_digit_decimal, H1. }
  unfold int.
  rewrite <- (transform_ascii rt (TransformDecimalAndSpaceToASCII rt u))
    by (apply (digits_ascii 10); [lia|exact Hd]).
  change (PyLong_FromString rt
            (TransformDecimalAndSpaceToASCII rt
               (TransformDecimalAndSpaceToASCII rt u)) 10)
    with (int rt (TransformDecimalAndSpaceToASCII rt u) 10).
  rewrite int_ascii_decimal, H2, H3; [reflexivity| |exact H1].
  intros E. rewrite E in H2. discriminate H2.
Qed.

Lemma exceeds_limit_over (t : str) :
  exceeds_limit rt 10 (length t) = true <-> over_limit rt t.
Proof.
  unfold exceeds_limit, over_limit.
  change (is_binary_base 10) with false. cbn [negb andb].
  rewrite !andb_true_iff, !N.ltb_lt. tauto.
Qed.

(** X11. A token of decimal digits of any script, ASCII or not, within
    the limit of the interpreter, parses to its base-10 value, each
    character counting for its digit. *)
Theorem decimal_digits_of_any_script (s : str) :
  isdecimal rt (token rt s) = true -> ~ over_limit rt (token rt s) ->
  str_to_int rt s = ([], Return (Z.of_N (decimal_value rt (token rt s)))).
Proof.
  intros Hd Hlim. rewrite str_to_int_eq. cbv zeta.
  rewrite isdecimal_isdigit, int_decimals by exact Hd.
  destruct (exceeds_limit rt 10 (length (token rt s))) eqn:E; [|reflexivity].
  now apply exceeds_limit_over in E.
Qed.

(** What a text in base 10 is made of when its conversion succeeds. *)
Lemma decimal_parse_chars (u : str) (v : Z) (c : codepoint) :
  PyLong_FromString rt u 10 = Return v -> In c u ->
  c = 43 \/ c = 45 \/ c = UNDERSCORE \/ is_digit_of 10 c = true
  \/ Py_ISSPACE c = true.
Proof.
  rewrite PyLong_FromString_eq. intros H Hin.
  destruct (skip_spaces_split u) as (pre & Hu & Hpre).
  rewrite Hu in Hin. apply in_app_or in Hin as [Hin|Hin].
  { rewrite forallb_forall in Hpre. auto 6. }
  destruct (skip_sign (skip_spaces u)) as [sign s1] eqn:Es.
  rewrite skip_prefix_decimal in H.
  assert (Hc : In c s1 \/ c = 43 \/ c = 45).
  { unfold skip_sign in Es.
    destruct (skip_spaces u) as [|x y]; [destruct Hin|].
    destruct (N.eqb_spec x 43) as [->|_].
    { injection Es as _ <-. destruct Hin as [<-|Hin]; auto. }
    destruct (N.eqb_spec x 45) as [->|_].
    { injection Es as _ <-. destruct Hin as [<-|Hin]; auto. }
    injection Es as _ <-. auto. }
  destruct Hc as [Hc|[Hc|Hc]]; [|auto..].
  destruct (parse_digits_chars rt 10 sign s1 v c H Hc) as [E|[E|E]]; auto 6.
Qed.

Lemma question_mark_raises (t : str) :
  In 63 (TransformDecimalAndSpaceToASCII rt t) ->
  int rt t 10 = Raise ValueError.
Proof.
  intros Hin. destruct (int rt t 10) as [v|e] eqn:E.
  - exfalso. unfold int in E.
    destruct (decimal_parse_chars _ v 63 E Hin) as [H|[H|[H|[H|H]]]];
      vm_compute in H; discriminate H.
  - apply int_raises in E. now subst e.
Qed.

Hypothesis digits : digits_not_space rt.

(** A digit that is no decimal digit: the superscripts of Latin-1 and the
    digits above U+00FF without a decimal value. *)
Lemma digit_not_decimal (c : codepoint) :
  isdigit rt c = true -> todecimal rt c = None ->
  127 <= c /\ isspace rt c = false.
Proof.
  unfold isdigit, todecimal, isspace.
  destruct (N.ltb_spec c 256) as [Hc|Hc].
  - unfold latin1_isdigit, latin1_todecimal.
    destruct (between 48 57 c); [discriminate|]. cbn [orb].
    intros H _. rewrite !orb_true_iff, !N.eqb_eq in H.
    destruct H as [[-> | ->]| ->]; split; (lia || reflexivity).
  - intros H _. split; [lia|]. now apply digits.
Qed.

(** X12. The parse raises ValueError exactly on the tokens that pass
    [str.isdigit] and that [int] refuses: those with a digit that is no
    decimal digit (a superscript, a circled digit), and those of more
    digits than the interpreter converts. *)
Theorem raises_exactly_on_refused_digits (s : str) :
  str_to_int rt s = ([], Raise ValueError)
  <-> PyStr.isdigit rt (token rt s) = true
      /\ (isdecimal rt (token rt s) = false \/ over_limit rt (token rt s)).
Proof.
  rewrite str_to_int_eq. cbv zeta. set (t := token rt s). split.
  - destruct (PyStr.isdigit rt t) eqn:Ed.
    + intros H. split; [reflexivity|].
      destruct (isdecimal rt t) eqn:Ec; [right|now left].
      rewrite int_decimals in H by exact Ec.
      destruct (exceeds_limit rt 10 (length t)) eqn:El; [|discriminate H].
      now apply exceeds_limit_over.
    + destruct (PyStr.len t <? 3)%Z; [discriminate|].
      destruct (PyStr.startswith t (lit "0x"));
        [destruct (int rt t 16); discriminate|].
      destruct (PyStr.startswith t (lit "0b"));
        [destruct (int rt t 2); discriminate|discriminate].
  - intros [Hd H]. rewrite Hd. f_equal.
    destruct (isdecimal rt t) eqn:Ec.
    + destruct H as [H|H]; [discriminate H|].
      rewrite int_decimals by exact Ec.
      apply exceeds_limit_over in H. now rewrite H.
    + clear H. unfold isdecimal in Ec. unfold PyStr.isdigit in Hd.
      destruct t as [|x y]; [discriminate Hd|].
      apply forallb_false_witness in Ec as (c & Hin & Hc).
      rewrite forallb_forall in Hd. apply Hd in Hin as Hi.
      unfold is_decimal in Hc.
      destruct (todecimal rt c) eqn:Et; [discriminate Hc|].
      destruct (digit_not_decimal c Hi Et) as [Hge Hsp].
      apply question_mark_raises.
      eapply transform_question_mark; eauto.
Qed.

End Decimals.

Lemma excerpt_digits_not_space : digits_not_space excerpt.
Proof.
  intros c Hc. cbn [hi_isdigit hi_isspace excerpt]. unfold Unicode.between.
  intros H. ncases.
Qed.

Lemma decimal_digits_of_any_script_witness :
  str_to_int excerpt [1633; 50; 1635]%N = ([], Return 123%Z).
Proof.
  apply (decimal_digits_of_any_script excerpt excerpt_facts
           [1633; 50; 1635]%N).
  - reflexivity.
  - intros [H _]. vm_compute in H. discriminate H.
Defined.

Lemma raises_exactly_on_refused_digits_witness :
  str_to_int excerpt [49; 185]%N = ([], Raise ValueError).
Proof.
  apply (raises_exactly_on_refused_digits excerpt excerpt_facts
           excerpt_digits_not_space [49; 185]%N).
  split; [reflexivity|]. left. reflexivity.
Defined.

(** ** The encode step *)

Section EncoderFurther.

Import PyInt.

Local Open Scope Z_scope.

Lemma encode_returns (n : Z) (bs : list byte) :
  encode n = Return bs ->
  0 <= n /\ bs = le_bytes (Z.to_nat (byte_count n)) n.
Proof.
  intros H. destruct (Z.lt_ge_cases n 0) as [Hn|Hn].
  - rewrite encode_negative in H by exact Hn. discriminate H.
  - rewrite encode_eq in H by exact Hn. injection H as <-. auto.
Qed.

Lemma bit_length_lower (n : Z) : 0 < n -> 2 ^ (bit_length n - 1) <= n.
Proof.
  intros Hn. unfold bit_length. destruct (Z.eqb_spec n 0); [lia|].
  rewrite Z.abs_eq by lia.
  replace (Z.log2 n + 1 - 1) with (Z.log2 n) by lia.
  now apply Z.log2_spec.
Qed.

Lemma byte_count_least (n k : Z) :
  0 <= n -> 1 <= k -> n < 256 ^ k -> byte_count n <= k.
Proof.
  intros Hn Hk Hlt.
  assert (Hb : bit_length n <= 8 * k).
  { apply bit_length_least; [lia|lia|].
    rewrite Z.pow_mul_r by lia. exact Hlt. }
  rewrite byte_count_max, ceil_div_8.
  pose proof (Z.div_mod (bit_length n + 7) 8 ltac:(lia)).
  pose proof (Z.mod_pos_bound (bit_length n + 7) 8 ltac:(lia)).
  lia.
Qed.

(** X13. The bytes of a value are at most [k], for [k] at least one,
    exactly when the value is below 256^k: every value below 256 is one
    byte, every value below 65536 at most two, and so on. *)
Theorem encode_length_bound (n k : Z) (bs : list byte) :
  1 <= k -> encode n = Return bs ->
  (Z.of_nat (length bs) <= k <-> n < 256 ^ k).
Proof.
  intros Hk He. apply encode_returns in He as [Hn ->].
  rewrite length_le_bytes.
  pose proof (byte_count_max n) as Hm. rewrite Z2Nat.id by lia. split.
  - intros Hle. eapply Z.lt_le_trans; [now apply byte_count_fits|].
    apply Z.pow_le_mono_r; lia.
  - now apply byte_count_least.
Qed.

Lemma last_le_bytes (k : nat) (n : Z) (d : byte) :
  last (le_bytes (S k) n) d = byte_of_Z ((n / 256 ^ Z.of_nat k) mod 256).
Proof.
  revert n. induction k as [|k IH]; intros n.
  - cbn [le_bytes last Z.of_nat]. now rewrite Z.pow_0_r, Z.div_1_r.
  - change (le_bytes (S (S k)) n)
      with (byte_of_Z (n mod 256) :: le_bytes (S k) (n / 256)).
    replace (last (byte_of_Z (n mod 256) :: le_bytes (S k) (n / 256)) d)
      with (last (le_bytes (S k) (n / 256)) d) by reflexivity.
    rewrite IH, Nat2Z.inj_succ, Z.pow_succ_r, Z.div_div by lia.
    reflexivity.
Qed.

(** X14. The last byte sent for a value that is not zero, its most
    significant one, is not zero: the encoding is never padded. *)
Theorem top_byte_not_zero (n : Z) (bs : list byte) :
  n <> 0 -> encode n = Return bs -> last bs x00 <> x00.
Proof.
  intros Hne He. apply encode_returns in He as [Hn ->].
  pose proof (byte_count_max n) as Hm.
  pose proof (byte_count_fits n Hn) as Hf.
  pose proof (bit_length_lower n ltac:(lia)) as Hl.
  pose proof (bit_length_nonneg n) as Hb.
  rewrite ceil_div_8 in Hm.
  pose proof (Z.div_mod (bit_length n + 7) 8 ltac:(lia)) as Hd.
  pose proof (Z.mod_pos_bound (bit_length n + 7) 8 ltac:(lia)) as Hr.
  set (L := byte_count n) in *.
  assert (Hlow : 256 ^ (L - 1) <= n).
  { eapply Z.le_trans; [|exact Hl].
    change 256 with (2 ^ 8). rewrite <- Z.pow_mul_r by lia.
    apply Z.pow_le_mono_r; [lia|].
    assert (bit_length n <> 0); [|lia].
    unfold bit_length. destruct (Z.eqb_spec n 0); [lia|].
    pose proof (Z.log2_nonneg (Z.abs n)). lia. }
  replace (Z.to_nat L) with (S (Z.to_nat (L - 1))) by lia.
  rewrite last_le_bytes, Z2Nat.id by lia.
  assert (Hq : 1 <= n / 256 ^ (L - 1) < 256).
  { assert (Hp : 0 < 256 ^ (L - 1)) by (apply Z.pow_pos_nonneg; lia).
    split.
    - apply Z.div_le_lower_bound; lia.
    - apply Z.div_lt_upper_bound; [lia|].
      assert (E : 256 ^ L = 256 * 256 ^ (L - 1)).
      { rewrite <- Z.pow_succ_r by lia. f_equal. lia. }
      lia. }
  rewrite Z.mod_small by lia. intros E.
  apply (f_equal Z_of_byte) in E. rewrite Z_of_byte_of_Z in E by lia.
  cbn in E. lia.
Qed.

(** X15. Two values that are sent as the same bytes are the same value. *)
Theorem encode_injective (a b : Z) (bs : list byte) :
  encode a = Return bs -> encode b = Return bs -> a = b.
Proof.
  intros Ha Hb.
  destruct (encode_returns a bs Ha) as [Ha0 _].
  destruct (encode_returns b bs Hb) as [Hb0 _].
  destruct (encode_decodes a bs Ha0 Ha) as [<- _].
  now destruct (encode_decodes b bs Hb0 Hb) as [<- _].
Qed.

End EncoderFurther.

Lemma encode_length_bound_witness :
  (Z.of_nat (length [x00; x01]) <= 2 <-> 256 < 256 ^ 2)%Z.
Proof. apply (encode_length_bound 256 2 [x00; x01]); [lia|reflexivity]. Defined.

Lemma top_byte_not_zero_witness : last [x00; x00; x01] x00 <> x00.
Proof.
  apply (top_byte_not_zero 65536 [x00; x00; x01]); [lia|reflexivity].
Defined.

Lemma encode_injective_witness : (258 = 258)%Z.
Proof.
  apply (encode_injective 258 258 [x02; x01]); reflexivity.
Defined.

(** ** From a line to the bytes on the port *)

Section Lines.

Import PyInt.

Context (rt : Runtime).

Local Open Scope Z_scope.

Lemma numeral_value_bound (base : N) (r : str) :
  forallb (is_digit_of base) r = true ->
  (numeral_value base r < base ^ N.of_nat (length r))%N.
Proof.
  induction r as [|c r IH]; [intros _; cbn; lia|].
  cbn [forallb]. rewrite andb_true_iff. intros [Hc Hr].
  apply N.ltb_lt in Hc. specialize (IH Hr).
  cbn [numeral_value length]. rewrite Nat2N.inj_succ, N.pow_succ_r'.
  nia.
Qed.

Lemma eqb_eq (s t : str) : PyStr.eqb s t = true -> s = t.
Proof.
  revert t. induction s as [|c s IH]; intros [|d t]; cbn [PyStr.eqb];
    try discriminate; [reflexivity|].
  rewrite andb_true_iff, N.eqb_eq. intros [-> H]. f_equal. auto.
Qed.

Hypothesis facts : UnicodeFacts rt.

Lemma str_to_int_token (s : str) :
  str_to_int rt (token rt s) = str_to_int rt s.
Proof. now rewrite !str_to_int_eq, token_idempotent. Qed.

(** X16. A line with a literal after 0x or 0b, of [k] digits of [w] bits
    each, makes one write to the port and a turn that goes on: the bytes
    written spell the value of the digits, and they are at most
    max(1, ceil(w * k / 8)). *)
Theorem literal_line_is_sent (line : str) (base : N) (p : codepoint) (w : Z)
    (r : str) :
  (base = 16%N /\ p = 120%N /\ w = 4) \/ (base = 2%N /\ p = 98%N /\ w = 1) ->
  token rt line = 48%N :: p :: r -> r <> [] ->
  forallb (is_digit_of base) r = true ->
  exists bs,
    iteration rt (str_to_int rt) (Some (Line line))
    = ([Prompt PROMPT; SerialWrite bs], Return Continue)
    /\ decode bs = Z.of_N (numeral_value base r)
    /\ Z.of_nat (length bs)
       <= Z.max 1 (ceil_div (w * Z.of_nat (length r)) 8).
Proof.
  intros Hbase Ht Hne Hr.
  assert (Hb : (base = 16%N /\ p = 120%N) \/ (base = 2%N /\ p = 98%N))
    by (destruct Hbase as [(? & ? & ?)|(? & ? & ?)]; auto).
  assert (Hpow : 2 ^ w = Z.of_N base)
    by (destruct Hbase as [(-> & _ & ->)|(-> & _ & ->)]; reflexivity).
  assert (Hw : 0 < w) by (destruct Hbase as [(_ & _ & ->)|(_ & _ & ->)]; lia).
  set (v := Z.of_N (numeral_value base r)).
  assert (Hv : 0 <= v) by (unfold v; lia).
  assert (Hparse : str_to_int rt (token rt line) = ([], Return v)).
  { destruct (str_to_int_prefixed rt (token rt line) base p r Hb) as [fmt ->];
      [now rewrite token_idempotent|exact Hne|].
    rewrite int_prefixed_digits; [reflexivity| | | |exact Hne|exact Hr];
      destruct Hb as [[-> ->]|[-> ->]]; (reflexivity || lia). }
  assert (Hx : PyStr.eqb (token rt line) (lit "x") = false).
  { rewrite Ht. reflexivity. }
  pose proof (encode_eq v Hv) as He.
  exists (le_bytes (Z.to_nat (byte_count v)) v).
  rewrite iteration_line, Hx, Hparse, He.
  destruct (Z.eqb_spec v (-1)); [lia|].
  split; [reflexivity|].
  destruct (encode_decodes v _ Hv He) as [Hd _]. split; [exact Hd|].
  rewrite length_le_bytes.
  pose proof (byte_count_max v) as Hm. rewrite Z2Nat.id by lia.
  rewrite ceil_div_8.
  set (k := Z.of_nat (length r)).
  assert (Hk : 0 <= k) by (unfold k; lia).
  pose proof (Z.div_mod (w * k + 7) 8 ltac:(lia)) as Hdiv.
  pose proof (Z.mod_pos_bound (w * k + 7) 8 ltac:(lia)) as Hmod.
  apply byte_count_least; [exact Hv|lia|].
  apply Z.lt_le_trans with (2 ^ (w * k)).
  - rewrite Z.pow_mul_r, Hpow by lia. unfold v, k.
    pose proof (numeral_value_bound base r Hr) as Hn.
    apply N2Z.inj_lt in Hn. rewrite N2Z.inj_pow, nat_N_Z in Hn. exact Hn.
  - change 256 with (2 ^ 8). rewrite <- Z.pow_mul_r by lia.
    apply Z.pow_le_mono_r; lia.
Qed.

(** X17. After lines that were all sent or skipped, the exit token ends
    the loop: the function releases the port and returns normally, and
    the lines that follow are not read. *)
Theorem exit_after_lines (pre rest : list keyboard) (line : str) :
  Forall (continuing rt) pre -> token rt line = lit "x" ->
  loop_send_uart_input rt true (pre ++ Line line :: rest)
  = (turns rt pre
     ++ [Prompt PROMPT; SerialClose; Log INFO "Serial port closed" None],
     Return tt).
Proof.
  intros Hpre Hx. unfold loop_send_uart_input, loop_send_uart_input_with.
  rewrite (while_true_app rt pre (Line line :: rest) Hpre).
  cbn [while_true]. rewrite iteration_line, Hx. cbn.
  now rewrite <- !app_assoc.
Qed.

(** X18. After lines that were all sent or skipped, a line on which the
    parse raises ends the function with ValueError: nothing is logged or
    written for the line, the port is released, and the lines that follow
    are not read. *)
Theorem raising_line_ends_the_function (pre rest : list keyboard)
    (line : str) :
  Forall (continuing rt) pre ->
  str_to_int rt line = ([], Raise ValueError) ->
  loop_send_uart_input rt true (pre ++ Line line :: rest)
  = (turns rt pre
     ++ [Prompt PROMPT; SerialClose; Log INFO "Serial port closed" None],
     Raise ValueError).
Proof.
  intros Hpre Hr. unfold loop_send_uart_input, loop_send_uart_input_with.
  rewrite (while_true_app rt pre (Line line :: rest) Hpre).
  cbn [while_true]. rewrite iteration_line, str_to_int_token, Hr.
  destruct (PyStr.eqb (token rt line) (lit "x")) eqn:Ex.
  - apply eqb_eq in Ex. rewrite <- str_to_int_token, Ex in Hr.
    discriminate Hr.
  - cbn. now rewrite <- !app_assoc.
Qed.

End Lines.

Lemma literal_line_is_sent_witness :
  exists bs,
    iteration excerpt (str_to_int excerpt) (Some (Line (lit " 0X1ff ")))
    = ([Prompt PROMPT; SerialWrite bs], Return Continue)
    /\ decode bs = Z.of_N (numeral_value 16 (lit "1ff"))
    /\ (Z.of_nat (length bs)
        <= Z.max 1 (ceil_div (4 * Z.of_nat (length (lit "1ff"))) 8))%Z.
Proof.
  apply (literal_line_is_sent excerpt excerpt_facts (lit " 0X1ff ") 16 120 4
           (lit "1ff")).
  - left. repeat split.
  - reflexivity.
  - discriminate.
  - reflexivity.
Defined.

Lemma exit_after_lines_witness :
  loop_send_uart_input excerpt true
    [Line (lit "7"); Line (lit "?"); Line (lit " X "); Line (lit "9")]
  = (turns excerpt [Line (lit "7"); Line (lit "?")]
     ++ [Prompt PROMPT; SerialClose; Log INFO "Serial port closed" None],
     Return tt).
Proof.
  apply (exit_after_lines excerpt [Line (lit "7"); Line (lit "?")]
           [Line (lit "9")] (lit " X ")).
  - repeat constructor; eexists; reflexivity.
  - reflexivity.
Defined.

Lemma raising_line_ends_the_function_witness :
  loop_send_uart_input excerpt true
    [Line (lit "7"); Line [50; 179]%N; Line (lit "9")]
  = (turns excerpt [Line (lit "7")]
     ++ [Prompt PROMPT; SerialClose; Log INFO "Serial port closed" None],
     Raise ValueError).
Proof.
  apply (raising_line_ends_the_function excerpt excerpt_facts [Line (lit "7")]
           [Line (lit "9")] [50; 179]%N).
  - repeat constructor; eexists; reflexivity.
  - reflexivity.
Defined.

(** ** The choice of the port and the entry point *)

Section EntryFacts.

Context (rt : Runtime).

Lemma for_each_emit {A} (xs : list A) (f : A -> effect) :
  for_each xs (fun x => emit (f x)) = (map f xs, Return tt).
Proof.
  induction xs as [|x xs IH]; [reflexivity|].
  cbn [for_each map]. rewrite IH. reflexivity.
Qed.

Lemma bind_ret {A B} (a : A) (k : A -> M B) : bind (ret a) k = k a.
Proof. unfold bind, ret. now destruct (k a). Qed.

Lemma detect_com_port_eq (ports : list str) :
  detect_com_port ports
  = (match ports with
     | [] => [Log ERROR "No COM ports detected" None]
     | p :: _ =>
         map (fun q => Log INFO "Detected COM port: %s" (Some q)) ports
         ++ [Log INFO "Selected COM port: %s" (Some p)]
     end,
     Return (hd_error ports)).
Proof.
  destruct ports as [|p others]; [reflexivity|].
  unfold detect_com_port. rewrite for_each_emit. reflexivity.
Qed.

(** X19. The detection never raises and gives the first port of the
    enumeration, or nothing when there is none; it logs every port found,
    in the order of the enumeration, and then the one it selected, or one
    error when there is none. *)
Theorem detect_com_port_selects_first (ports : list str) :
  outcome (detect_com_port ports) = Return (hd_error ports)
  /\ fst (detect_com_port ports)
     = match ports with
       | [] => [Log ERROR "No COM ports detected" None]
       | p :: _ =>
           map (fun q => Log INFO "Detected COM port: %s" (Some q)) ports
           ++ [Log INFO "Selected COM port: %s" (Some p)]
       end.
Proof.
  destruct ports as [|p others]; [split; reflexivity|].
  unfold detect_com_port. rewrite for_each_emit.
  split; reflexivity.
Qed.

(** X20. With a port given on the command line the ports are not
    enumerated: the script is the loop on that port, whatever ports there
    are. *)
Theorem given_port_skips_detection (com_port_arg : str) (ports : list str)
    (opens : str -> bool) (stdin : list keyboard) :
  com_port_arg <> [] ->
  main rt (Namespace com_port_arg) ports opens stdin
  = loop_send_uart_input rt (opens com_port_arg) stdin.
Proof.
  intros Hne. destruct com_port_arg as [|c arg]; [congruence|].
  unfold main, parse_args. rewrite bind_ret. cbn [truthy].
  now rewrite bind_ret.
Qed.

Lemma main_detected (p : str) (others : list str) (opens : str -> bool)
    (stdin : list keyboard) :
  p <> [] ->
  main rt (Namespace []) (p :: others) opens stdin
  = (map (fun q => Log INFO "Detected COM port: %s" (Some q)) (p :: others)
     ++ Log INFO "Selected COM port: %s" (Some p)
        :: fst (loop_send_uart_input rt (opens p) stdin),
     snd (loop_send_uart_input rt (opens p) stdin)).
Proof.
  intros Hne. destruct p as [|c p']; [congruence|].
  unfold main, parse_args. rewrite bind_ret. cbn [truthy].
  rewrite detect_com_port_eq. cbn [bind truthy hd_error].
  destruct (loop_send_uart_input rt (opens (c :: p')) stdin) as [w r].
  cbn [fst snd]. now rewrite <- app_assoc.
Qed.

(** X21. Without a port on the command line, the script runs the loop on
    the first port of the enumeration and on no other: when that port
    cannot be opened the script logs the failure and ends, whether or not
    another port could be opened. *)
Theorem only_first_port_is_tried (p : str) (others : list str)
    (opens : str -> bool) (stdin : list keyboard) :
  p <> [] ->
  main rt (Namespace []) (p :: others) opens stdin
  = (map (fun q => Log INFO "Detected COM port: %s" (Some q)) (p :: others)
     ++ Log INFO "Selected COM port: %s" (Some p)
        :: fst (loop_send_uart_input rt (opens p) stdin),
     snd (loop_send_uart_input rt (opens p) stdin))
  /\ (opens p = false ->
      main rt (Namespace []) (p :: others) opens stdin
      = (map (fun q => Log INFO "Detected COM port: %s" (Some q))
           (p :: others)
         ++ [Log INFO "Selected COM port: %s" (Some p);
             Log ERROR "Failed to open serial port: %s" None],
         Return tt)).
Proof.
  intros Hne. split; [now apply main_detected|].
  intros Hp. rewrite main_detected by exact Hne. now rewrite Hp.
Qed.

(** The ways through [main]: argparse ends the program; or no port is
    selected; or the loop runs on the selected port. *)
Lemma main_cases (argv : command_line) (ports : list str)
    (opens : str -> bool) (stdin : list keyboard) :
  (exists status,
     argv = Exits status
     /\ main rt argv ports opens stdin = ([Usage], Raise (SystemExit status)))
  \/ (exists com_port w,
        argv = Namespace com_port
        /\ Forall (fun e => touches_device e = false) w
        /\ main rt argv ports opens stdin = (w, Return tt))
  \/ (exists com_port w p,
        argv = Namespace com_port
        /\ Forall (fun e => touches_device e = false) w
        /\ main rt argv ports opens stdin
           = (w ++ fst (loop_send_uart_input rt (opens p) stdin),
              snd (loop_send_uart_input rt (opens p) stdin))).
Proof.
  destruct argv as [[|c arg]|status].
  - right. destruct ports as [|[|c p] others].
    + left. exists [], [Log ERROR "No COM ports detected" None].
      split; [reflexivity|]. split; [|reflexivity]. repeat constructor.
    + left. unfold main, parse_args. rewrite bind_ret. cbn [truthy].
      rewrite detect_com_port_eq. cbn [bind truthy hd_error].
      exists []. eexists. split; [reflexivity|]. split; [|reflexivity].
      rewrite app_nil_r. apply Forall_app. split; [|repeat constructor].
      apply Forall_forall. intros e He.
      apply in_map_iff in He as (q & <- & _). reflexivity.
    + right. rewrite main_detected by discriminate.
      exists [],
             (map (fun q => Log INFO "Detected COM port: %s" (Some q))
                ((c :: p) :: others)
              ++ [Log INFO "Selected COM port: %s" (Some (c :: p))]),
             (c :: p).
      split; [reflexivity|]. split; [|now rewrite <- app_assoc].
      apply Forall_app. split; [|repeat constructor].
      apply Forall_forall. intros e He.
      apply in_map_iff in He as (q & <- & _). reflexivity.
  - right. right. exists (c :: arg), [], (c :: arg).
    split; [reflexivity|]. split; [constructor|].
    unfold main, parse_args. rewrite bind_ret. cbn [truthy].
    rewrite bind_ret. cbn [app].
    now destruct (loop_send_uart_input rt (opens (c :: arg)) stdin).
  - left. exists status. split; reflexivity.
Qed.

(** X22. When no port can be opened, the script never prompts and never
    touches a port, whatever argparse makes of the command line and
    whatever the ports and the input are: on a namespace it only logs and
    ends normally; on an exit of argparse it ends with that SystemExit,
    after the message of argparse and nothing else. *)
Theorem nothing_without_an_open_port (argv : command_line)
    (ports : list str) (opens : str -> bool) (stdin : list keyboard) :
  (forall p, opens p = false) ->
  match argv with
  | Namespace _ =>
      outcome (main rt argv ports opens stdin) = Return tt
      /\ Forall (fun e => touches_device e = false)
           (fst (main rt argv ports opens stdin))
  | Exits status =>
      main rt argv ports opens stdin = ([Usage], Raise (SystemExit status))
  end.
Proof.
  intros Hno.
  destruct (main_cases argv ports opens stdin)
    as [(status & -> & H)|[(c & w & -> & Hw & ->)|(c & w & p & -> & Hw & ->)]].
  - exact H.
  - auto.
  - rewrite Hno. cbn. split; [reflexivity|].
    apply Forall_app. split; [exact Hw|repeat constructor].
Qed.


End EntryFacts.

Lemma given_port_skips_detection_witness :
  main excerpt (Namespace (lit "COM5")) [lit "COM1"] (fun _ => true)
    [Line (lit "x")]
  = loop_send_uart_input excerpt true [Line (lit "x")].
Proof.
  apply (given_port_skips_detection excerpt (lit "COM5") [lit "COM1"]
           (fun _ => true) [Line (lit "x")]).
  discriminate.
Defined.

Lemma only_first_port_is_tried_witness :
  main excerpt (Namespace []) [lit "COM1"; lit "COM2"]
    (fun p => PyStr.eqb p (lit "COM2")) [Line (lit "7")]
  = ([Log INFO "Detected COM port: %s" (Some (lit "COM1"));
      Log INFO "Detected COM port: %s" (Some (lit "COM2"));
      Log INFO "Selected COM port: %s" (Some (lit "COM1"));
      Log ERROR "Failed to open serial port: %s" None],
     Return tt).
Proof.
  apply (proj2 (only_first_port_is_tried excerpt (lit "COM1") [lit "COM2"]
                  (fun p => PyStr.eqb p (lit "COM2")) [Line (lit "7")]
                  ltac:(discriminate))).
  reflexivity.
Defined.

Lemma nothing_without_an_open_port_witness :
  (outcome (main excerpt (Namespace []) [lit "COM1"] (fun _ => false)
              [Line (lit "7")])
   = Return tt
   /\ Forall (fun e => touches_device e = false)
        (fst (main excerpt (Namespace []) [lit "COM1"] (fun _ => false)
                [Line (lit "7")])))
  /\ main excerpt (Exits 2) [lit "COM1"] (fun _ => false) [Line (lit "7")]
     = ([Usage], Raise (SystemExit 2)).
Proof.
  split.
  - apply (nothing_without_an_open_port excerpt (Namespace []) [lit "COM1"]
             (fun _ => false) [Line (lit "7")]).
    reflexivity.
  - apply (nothing_without_an_open_port excerpt (Exits 2) [lit "COM1"]
             (fun _ => false) [Line (lit "7")]).
    reflexivity.
Defined.
